(** * ai-pilot: dependency graph and change-impact core

    A shallow embedding of the analysis core of the CLI:
    - [GitDiffAnalyzer] (src/core/diff-analyzer.ts): staged-file listing,
      unified-diff parsing, diff-to-block mapping;
    - [DependencyTracer] (same file, second half): export extraction, forward
      dependency traversal, reverse dependent scan;
    - [TaskHydrator.findFollowingCodeBlock] and [extractKeyCode]
      (src/core/hydrator.ts);
    - [ContextFinder] (src/core/context-finder.ts): [calculateMatchScore],
      [extractKeywords], the code summaries, the related files and the ranking
      of [findMatchingFiles];
    - the grouping of the impact report and the impact loop of the diff
      command (src/commands/scan.ts).

    JavaScript strings are modelled as Rocq strings (sequences of 8-bit
    characters, UTF-8 for text beyond ASCII), JavaScript numbers that hold line numbers and counters as
    [nat]. The collaborators the code calls but does not define (the file
    system, git, the ts-morph syntax tree, Node's [path] module) are data or
    operations passed in explicitly. *)

From Stdlib Require Import Ascii String List Arith Lia Bool.
From stdpp Require Import base option list strings gmap pretty sorting.

Set Default Proof Using "Type".

(** ** JavaScript string primitives *)

Module JS.

(** [s.startsWith(p)] *)
Fixpoint startsWith (s p : string) {struct p} : bool :=
  match p, s with
  | EmptyString, _ => true
  | String _ _, EmptyString => false
  | String b p', String a s' => if Ascii.eqb a b then startsWith s' p' else false
  end.

(** [s.includes(needle)] *)
Fixpoint includes (s needle : string) : bool :=
  startsWith s needle ||
  match s with
  | EmptyString => false
  | String _ s' => includes s' needle
  end.

(** [s.endsWith(p)] *)
Fixpoint endsWith (s p : string) : bool :=
  String.eqb s p ||
  match s with
  | EmptyString => false
  | String _ s' => endsWith s' p
  end.

(** [s.substring(n)] *)
Fixpoint substringFrom (n : nat) (s : string) : string :=
  match n, s with
  | 0, _ => s
  | S n', String _ s' => substringFrom n' s'
  | S _, EmptyString => EmptyString
  end.

(** [s.substring(0, n)] *)
Fixpoint takeStr (n : nat) (s : string) : string :=
  match n, s with
  | S n', String a s' => String a (takeStr n' s')
  | _, _ => EmptyString
  end.

(** [s.substring(i, j)] for [i <= j] *)
Definition substring (i j : nat) (s : string) : string :=
  takeStr (j - i) (substringFrom i s).

(** [s.split(sep)] for a one-character separator; the empty string splits
    into one empty field. *)
Fixpoint split (sep : ascii) (s : string) : list string :=
  match s with
  | EmptyString => [EmptyString]
  | String a s' =>
      if Ascii.eqb a sep then EmptyString :: split sep s'
      else match split sep s' with
           | h :: t => String a h :: t
           | [] => [String a EmptyString]
           end
  end.

(** [parts.join(sep)] *)
Fixpoint join (sep : string) (parts : list string) : string :=
  match parts with
  | [] => EmptyString
  | [p] => p
  | p :: rest => p +:+ sep +:+ join sep rest
  end.

(** White space removed by [trim]: tab, line feed, vertical tab, form feed,
    carriage return and space (the 8-bit part of the ECMAScript set). *)
Definition isWhiteSpace (a : ascii) : bool :=
  let n := nat_of_ascii a in
  ((9 <=? n) && (n <=? 13)) || (n =? 32).

Fixpoint trimStart (s : string) : string :=
  match s with
  | String a s' => if isWhiteSpace a then trimStart s' else s
  | EmptyString => EmptyString
  end.

Fixpoint trimEnd (s : string) : string :=
  match s with
  | EmptyString => EmptyString
  | String a s' =>
      match trimEnd s' with
      | EmptyString => if isWhiteSpace a then EmptyString else String a EmptyString
      | t => String a t
      end
  end.

(** [s.trim()] *)
Definition trim (s : string) : string := trimEnd (trimStart s).

Definition isUpper (a : ascii) : bool :=
  let n := nat_of_ascii a in (65 <=? n) && (n <=? 90).

Definition lowerChar (a : ascii) : ascii :=
  if isUpper a then ascii_of_nat (nat_of_ascii a + 32) else a.

(** [s.toLowerCase()], on the letters A to Z; other characters are kept. *)
Fixpoint toLowerCase (s : string) : string :=
  match s with
  | EmptyString => EmptyString
  | String a s' => String (lowerChar a) (toLowerCase s')
  end.

Definition isDigit (a : ascii) : bool :=
  let n := nat_of_ascii a in (48 <=? n) && (n <=? 57).

Definition digitValue (a : ascii) : nat := nat_of_ascii a - 48.

(** [parseInt(s, 10)] on a string of decimal digits. *)
Definition parseInt (s : string) : nat :=
  fold_left (fun acc a => 10 * acc + digitValue a) (list_ascii_of_string s) 0.

(** A number inside a template literal: its decimal digits. *)
Definition numberToString (n : nat) : string := pretty n.

End JS.

(** ** Outcomes of calls that may throw *)

Inductive result (A : Type) : Type :=
| Ok (a : A)
| Throw (message : string).
Arguments Ok {A} a.
Arguments Throw {A} message.

Definition rbind {A B} (r : result A) (k : A -> result B) : result B :=
  match r with
  | Ok a => k a
  | Throw m => Throw m
  end.

(** ** Node's [path] module

    The operations of [path] the code calls. They belong to the platform, so
    the analysis is stated over any implementation; [Posix] below is the one
    used to run the code on concrete projects. *)

Class NodePath := {
  path_join : string -> string -> string;
  path_resolve : string -> string -> string;
  path_dirname : string -> string;
  path_basename : string -> string;
  path_extname : string -> string;
  path_relative : string -> string -> string;
  path_isAbsolute : string -> bool;
}.

Module Posix.

(** Segments of a path after normalisation: empty and [.] segments are
    dropped, [..] removes the segment before it (at the root of an
    absolute path it is dropped, at the start of a relative one kept). *)
Fixpoint normSegs (absolute : bool) (stack todo : list string) : list string :=
  match todo with
  | [] => rev stack
  | seg :: todo' =>
      if String.eqb seg EmptyString || String.eqb seg "." then normSegs absolute stack todo'
      else if String.eqb seg ".." then
        match stack with
        | top :: stack' =>
            if String.eqb top ".." then normSegs absolute (seg :: stack) todo'
            else normSegs absolute stack' todo'
        | [] => if absolute then normSegs absolute [] todo'
                else normSegs absolute [seg] todo'
        end
      else normSegs absolute (seg :: stack) todo'
  end.

Definition isAbsolute (p : string) : bool := JS.startsWith p "/".

Definition segments (p : string) : list string :=
  normSegs (isAbsolute p) [] (JS.split "/"%char p).

Definition normalize (p : string) : string :=
  let body := JS.join "/" (segments p) in
  if isAbsolute p then "/" +:+ body
  else if String.eqb body EmptyString then "." else body.

Definition join (a b : string) : string :=
  if String.eqb a EmptyString then normalize b
  else if String.eqb b EmptyString then normalize a
  else normalize (a +:+ "/" +:+ b).

(** [path.resolve(from, to)] for an absolute [from] (the process working
    directory is not consulted). *)
Definition resolve (from to : string) : string :=
  if isAbsolute to then normalize to else normalize (from +:+ "/" +:+ to).

Definition dirname (p : string) : string :=
  match rev (JS.split "/"%char p) with
  | _ :: (_ :: _) as front =>
      let d := JS.join "/" (rev front) in
      if String.eqb d EmptyString then "/" else d
  | _ => "."
  end.

Definition basename (p : string) : string :=
  match rev (JS.split "/"%char p) with
  | last :: _ => last
  | [] => EmptyString
  end.

Definition extname (p : string) : string :=
  match rev (JS.split "."%char (basename p)) with
  | ext :: (_ :: _) as front =>
      if String.eqb (JS.join "." (rev front)) EmptyString then EmptyString else "." +:+ ext
  | _ => EmptyString
  end.

Fixpoint dropCommon (a b : list string) : list string * list string :=
  match a, b with
  | x :: a', y :: b' => if String.eqb x y then dropCommon a' b' else (a, b)
  | _, _ => (a, b)
  end.

Definition relative (from to : string) : string :=
  let '(up, down) := dropCommon (segments from) (segments to) in
  JS.join "/" (map (fun _ => "..") up ++ down).

Definition ops : NodePath := {|
  path_join := join;
  path_resolve := resolve;
  path_dirname := dirname;
  path_basename := basename;
  path_extname := extname;
  path_relative := relative;
  path_isAbsolute := isAbsolute;
|}.

End Posix.

(** ** The source model (ts-morph)

    A parsed file is its text, its syntax tree, and the declaration lists the
    code reads from it. Offsets count characters from 0; lines count from 1
    and are separated by line feeds. *)

Module Ast.

Inductive SyntaxKind :=
| SourceFileKind
| FunctionDeclaration
| VariableStatement
| VariableDeclarationList
| VariableDeclaration
| ArrowFunction
| MethodDeclaration
| ClassDeclaration
| InterfaceDeclaration
| ReturnStatement
| ParenthesizedExpression
| JsxElement
| JsxSelfClosingElement
| JsxFragment
| OtherKind.

Global Instance SyntaxKind_eq_dec : EqDecision SyntaxKind.
Proof. solve_decision. Defined.

(** What the signature extractors read from a function-like node. *)
Record SignatureInfo := mkSignatureInfo {
  getParameters : list string;   (* text of each parameter *)
  getReturnType : string;        (* text of the checked return type *)
  isAsync : bool;
}.

#[warnings="-register-all"]
Inductive Node := mkNode {
  getKind : SyntaxKind;
  getName : option string;
  getPos : nat;                  (* start, leading trivia included *)
  getStart : nat;                (* start of the first token *)
  getEnd : nat;
  signatureInfo : SignatureInfo;
  initializerIndex : option nat; (* which child is the initializer *)
  forEachChild : list Node;
}.

Definition noSignature : SignatureInfo := mkSignatureInfo [] EmptyString false.

Definition getInitializer (n : Node) : option Node :=
  i ← initializerIndex n; forEachChild n !! i.

(** [getName()] of a node kind whose name is never undefined. *)
Definition nameOf (n : Node) : string := default EmptyString (getName n).

(** [Node.getText()]: the text from the first token to the end. *)
Definition getText (fullText : string) (n : Node) : string :=
  JS.substring (getStart n) (getEnd n) fullText.

Definition countNewlines (s : string) : nat :=
  length (filter (fun a => a = "010"%char) (list_ascii_of_string s)).

(** [getLineAndColumnAtPos(pos).line] *)
Definition lineAtPos (fullText : string) (pos : nat) : nat :=
  S (countNewlines (JS.takeStr pos fullText)).

Definition containsPos (n : Node) (pos : nat) : bool :=
  (getPos n <=? pos) && (pos <? getEnd n).

(** [getDescendantAtPos(pos)] together with the [getParent()] chain of the
    node it finds: innermost node first, the node the search started from
    last. The search descends into the first child whose range holds
    [pos]. *)
Fixpoint chainAt (pos : nat) (n : Node) : list Node :=
  let fix firstChild (cs : list Node) : option (list Node) :=
    match cs with
    | [] => None
    | c :: cs' => if containsPos c pos then Some (chainAt pos c) else firstChild cs'
    end in
  match firstChild (forEachChild n) with
  | Some chain => chain ++ [n]
  | None => [n]
  end.

(** [forEachDescendant]: every descendant in depth-first pre-order, each
    with its parent. *)
Fixpoint descendants (n : Node) : list (Node * Node) :=
  let fix ofChildren (cs : list Node) : list (Node * Node) :=
    match cs with
    | [] => []
    | c :: cs' => (c, n) :: descendants c ++ ofChildren cs'
    end in
  ofChildren (forEachChild n).

(** Import declaration: the specifier, [getDefaultImport()?.getText()] and
    the [getName()] of each named import. *)
Record ImportDeclaration := mkImport {
  getModuleSpecifierValue : string;
  getDefaultImport : option string;
  getNamedImports : list string;
}.

Record SourceFile := mkSourceFile {
  getFullText : string;
  root : Node;
  getImportDeclarations : list ImportDeclaration;
  getFunctions : list (option string * bool);       (* name, isExported *)
  getClasses : list (option string * bool);
  getInterfaces : list (string * bool);
  getTypeAliases : list (string * bool);
  getVariableStatements : list (bool * list string); (* isExported, names *)
  getDefaultExportSymbol : bool;                     (* is there one *)
}.

End Ast.

(** ** The world outside the process: files and git *)

Inductive FsEntry :=
| FsFile (sourceFile : Ast.SourceFile)
| FsDirectory.

Record World := mkWorld {
  rootPath : string;
  fs : gmap string FsEntry;
  (** result of [globby] over the [src/**] patterns, test and declaration
      files ignored; absolute paths *)
  globbyFiles : list string;
  (** [git diff --cached --name-status] *)
  gitNameStatus : result string;
  (** [git diff --cached -U0 -- <path>] *)
  gitDiff : string -> result string;
}.

(** [fs.existsSync] / [fse.pathExists] *)
Definition existsSync (w : World) (p : string) : bool := bool_decide (is_Some (fs w !! p)).

(** [project.addSourceFileAtPath] *)
Definition addSourceFileAtPath (w : World) (p : string) : result Ast.SourceFile :=
  match fs w !! p with
  | Some (FsFile sf) => Ok sf
  | Some FsDirectory => Throw "EISDIR: illegal operation on a directory"
  | None => Throw "File not found"
  end.

(** [fs.readFileSync(p, 'utf-8')] *)
Definition readFileSync (w : World) (p : string) : result string :=
  match fs w !! p with
  | Some (FsFile sf) => Ok (Ast.getFullText sf)
  | Some FsDirectory => Throw "EISDIR: illegal operation on a directory"
  | None => Throw "ENOENT: no such file or directory"
  end.

(** ** GitDiffAnalyzer: the unified-diff parser *)

Module Diff.

Inductive ChangeType := Add | Delete | Modify.   (* 'add' | 'delete' | 'modify' *)

Record ChangedLine := mkChangedLine {
  lineNumber : nat;
  type : ChangeType;
  content : string;
}.

(** The regular expression of [getChangedLines],
    [/^@@ -\d+(?:,\d+)? \+(\d+)(?:,(\d+))? @@/], as a matcher that returns
    capture group 1. Every quantifier is followed by a character outside
    the class it repeats, so the greedy match is the only one. *)

(** the longest prefix of digits and the rest *)
Fixpoint spanDigits (s : string) : string * string :=
  match s with
  | String a s' =>
      if JS.isDigit a then let '(d, r) := spanDigits s' in (String a d, r)
      else (EmptyString, s)
  | EmptyString => (EmptyString, EmptyString)
  end.

(** [\d+] *)
Definition digits1 (s : string) : option (string * string) :=
  match spanDigits s with
  | (EmptyString, _) => None
  | (d, r) => Some (d, r)
  end.

(** a literal *)
Definition expect (lit s : string) : option string :=
  if JS.startsWith s lit then Some (JS.substringFrom (String.length lit) s) else None.

(** [(?:,\d+)?] *)
Definition optCount (s : string) : string :=
  match s with
  | String ","%char r => match digits1 r with Some (_, r') => r' | None => s end
  | _ => s
  end.

Definition hunkMatch (line : string) : option string :=
  r1 ← expect "@@ -" line;
  '(_, r2) ← digits1 r1;
  r4 ← expect " +" (optCount r2);
  '(g1, r5) ← digits1 r4;
  _ ← expect " @@" (optCount r5);
  Some g1.

(** One iteration of the loop over the lines of the diff; the state is
    [currentLine] and the [changedLines] pushed so far. *)
Definition lineStep (st : nat * list ChangedLine) (line : string)
  : nat * list ChangedLine :=
  let '(currentLine, changedLines) := st in
  match hunkMatch line with
  | Some g1 => (JS.parseInt g1, changedLines)
  | None =>
      if JS.startsWith line "+" && negb (JS.startsWith line "+++") then
        (S currentLine,
         changedLines ++ [mkChangedLine currentLine Add (JS.substringFrom 1 line)])
      else if JS.startsWith line "-" && negb (JS.startsWith line "---") then
        (currentLine,
         changedLines ++ [mkChangedLine currentLine Delete (JS.substringFrom 1 line)])
      else if JS.startsWith line " " then
        (S currentLine, changedLines)
      else st
  end.

Definition parseLines (lines : list string) : nat * list ChangedLine :=
  fold_left lineStep lines (0, []).

(** The body of [getChangedLines] on the output of
    [git diff --cached -U0 -- <path>]. *)
Definition parseDiff (stdout : string) : list ChangedLine :=
  snd (parseLines (JS.split "010"%char stdout)).

(** [getChangedLines]: a failing git command gives the empty list. *)
Definition getChangedLines (w : World) (relativePath : string) : list ChangedLine :=
  match gitDiff w relativePath with
  | Ok stdout => parseDiff stdout
  | Throw _ => []
  end.

(** *** Diff-to-block mapping *)

Inductive BlockType := KFunction | KMethod | KClass | KInterface | KComponent.

Global Instance BlockType_eq_dec : EqDecision BlockType.
Proof. solve_decision. Defined.

(** the string a block type is in the source *)
Definition typeName (t : BlockType) : string :=
  match t with
  | KFunction => "function"
  | KMethod => "method"
  | KClass => "class"
  | KInterface => "interface"
  | KComponent => "component"
  end.

Record CodeBlock := mkCodeBlock {
  blockType : BlockType;              (* type *)
  name : string;
  startLine : nat;
  endLine : nat;
  signature : string;
  fullCode : string;
  changedLineNumbers : list nat;
}.

(** [a || d] for a string that may be undefined *)
Definition orElse (a : option string) (d : string) : string :=
  match a with
  | Some s => if String.eqb s EmptyString then d else s
  | None => d
  end.

Definition extractFunctionSignature (func : Ast.Node) : string :=
  let name := orElse (Ast.getName func) "anonymous" in
  let params := JS.join ", " (Ast.getParameters (Ast.signatureInfo func)) in
  let returnType := Ast.getReturnType (Ast.signatureInfo func) in
  let isAsync := if Ast.isAsync (Ast.signatureInfo func) then "async " else EmptyString in
  isAsync +:+ "function " +:+ name +:+ "(" +:+ params +:+ "): " +:+ returnType.

Definition extractMethodSignature (method : Ast.Node) : string :=
  let name := Ast.nameOf method in
  let params := JS.join ", " (Ast.getParameters (Ast.signatureInfo method)) in
  let returnType := Ast.getReturnType (Ast.signatureInfo method) in
  let isAsync := if Ast.isAsync (Ast.signatureInfo method) then "async " else EmptyString in
  isAsync +:+ name +:+ "(" +:+ params +:+ "): " +:+ returnType.

Definition isReactComponent (code : string) : bool :=
  JS.includes code "return (" && (JS.includes code "<" || JS.includes code "jsx").

(** The offset [findCodeBlockAtLine] computes for a line: the lengths of
    the lines before it, one more for each line feed. *)
Definition linePos (text : string) (lineNumber : nat) : nat :=
  sum_list (map (fun l => String.length l + 1)
                (take (lineNumber - 1) (JS.split "010"%char text))).

(** The [while (current)] loop: [chain] is [current] followed by its
    parents. Reading a parent that does not exist throws. *)
Fixpoint walkUp (text : string) (lineNumber : nat) (chain : list Ast.Node)
  : result (option CodeBlock) :=
  let line pos := Ast.lineAtPos text pos in
  match chain with
  | [] => Ok None
  | current :: parents =>
      match Ast.getKind current with
      | Ast.FunctionDeclaration =>
          let isComponent := isReactComponent (Ast.getText text current) in
          Ok (Some {|
            blockType := if isComponent then KComponent else KFunction;
            name := orElse (Ast.getName current) "anonymous";
            startLine := line (Ast.getStart current);
            endLine := line (Ast.getEnd current);
            signature := extractFunctionSignature current;
            fullCode := Ast.getText text current;
            changedLineNumbers := [lineNumber] |})
      | Ast.VariableDeclaration =>
          match Ast.getInitializer current with
          | Some initializer =>
              if decide (Ast.getKind initializer = Ast.ArrowFunction) then
                match parents with
                | _ :: statement :: _ =>
                    let name := Ast.nameOf current in
                    let code := Ast.getText text statement in
                    let isComponent := isReactComponent code in
                    Ok (Some {|
                      blockType := if isComponent then KComponent else KFunction;
                      name := name;
                      startLine := line (Ast.getStart current);
                      endLine := line (Ast.getEnd current);
                      signature :=
                        "const " +:+ name +:+ " = "
                        +:+ default EmptyString (head (JS.split "{"%char (Ast.getText text initializer)))
                        +:+ "=> {...}";
                      fullCode := code;
                      changedLineNumbers := [lineNumber] |})
                | _ => Throw "TypeError: Cannot read properties of undefined"
                end
              else walkUp text lineNumber parents
          | None => walkUp text lineNumber parents
          end
      | Ast.MethodDeclaration =>
          match parents with
          | parent :: _ =>
              let className :=
                orElse (if decide (Ast.getKind parent = Ast.ClassDeclaration)
                        then Ast.getName parent else None) "Unknown" in
              Ok (Some {|
                blockType := KMethod;
                name := className +:+ "." +:+ Ast.nameOf current;
                startLine := line (Ast.getStart current);
                endLine := line (Ast.getEnd current);
                signature := extractMethodSignature current;
                fullCode := Ast.getText text current;
                changedLineNumbers := [lineNumber] |})
          | [] => Throw "TypeError: Cannot read properties of undefined"
          end
      | Ast.ClassDeclaration =>
          let name := orElse (Ast.getName current) "anonymous" in
          Ok (Some {|
            blockType := KClass;
            name := name;
            startLine := line (Ast.getStart current);
            endLine := line (Ast.getEnd current);
            signature := "class " +:+ name;
            fullCode := Ast.getText text current;
            changedLineNumbers := [lineNumber] |})
      | Ast.InterfaceDeclaration =>
          let name := Ast.nameOf current in
          Ok (Some {|
            blockType := KInterface;
            name := name;
            startLine := line (Ast.getStart current);
            endLine := line (Ast.getEnd current);
            signature := "interface " +:+ name;
            fullCode := Ast.getText text current;
            changedLineNumbers := [lineNumber] |})
      | _ => walkUp text lineNumber parents
      end
  end.

Definition findCodeBlockAtLine (sourceFile : Ast.SourceFile) (lineNumber : nat)
  : result (option CodeBlock) :=
  let text := Ast.getFullText sourceFile in
  let pos := linePos text lineNumber in
  if Ast.containsPos (Ast.root sourceFile) pos
  then walkUp text lineNumber (Ast.chainAt pos (Ast.root sourceFile))
  else Ok None.

Definition blockKey (b : CodeBlock) : string :=
  typeName (blockType b) +:+ "-" +:+ name b +:+ "-" +:+ JS.numberToString (startLine b).

(** the predicate of [blocks.find] *)
Definition sameBlock (block b : CodeBlock) : Prop :=
  blockType b = blockType block /\ name b = name block /\ startLine b = startLine block.

Global Instance sameBlock_dec block b : Decision (sameBlock block b).
Proof. unfold sameBlock. apply _. Defined.

Definition pushLine (n : nat) (b : CodeBlock) : CodeBlock :=
  {| blockType := blockType b; name := name b; startLine := startLine b;
     endLine := endLine b; signature := signature b; fullCode := fullCode b;
     changedLineNumbers := changedLineNumbers b ++ [n] |}.

Definition isRelevant (l : ChangedLine) : bool :=
  match type l with Add | Modify => true | Delete => false end.

(** One iteration of the loop of [locateAffectedBlocks]; the state is
    [blocks] and [processedBlocks]. *)
Definition blockStep (sourceFile : Ast.SourceFile)
    (st : list CodeBlock * gset string) (changedLine : ChangedLine)
  : result (list CodeBlock * gset string) :=
  let '(blocks, processedBlocks) := st in
  rbind (findCodeBlockAtLine sourceFile (lineNumber changedLine)) (fun found =>
  match found with
  | None => Ok st
  | Some block =>
      if decide (blockKey block ∈ processedBlocks) then
        match list_find (sameBlock block) blocks with
        | Some (i, existingBlock) =>
            if decide (lineNumber changedLine ∈ changedLineNumbers existingBlock)
            then Ok st
            else Ok (<[i := pushLine (lineNumber changedLine) existingBlock]> blocks,
                     processedBlocks)
        | None => Ok st
        end
      else Ok (blocks ++ [block], {[blockKey block]} ∪ processedBlocks)
  end).

Fixpoint blockLoop (sourceFile : Ast.SourceFile) (lines : list ChangedLine)
    (st : list CodeBlock * gset string) : result (list CodeBlock * gset string) :=
  match lines with
  | [] => Ok st
  | changedLine :: rest =>
      rbind (blockStep sourceFile st changedLine) (blockLoop sourceFile rest)
  end.

Definition locateAffectedBlocks (w : World) (filePath : string)
    (changedLines : list ChangedLine) : result (list CodeBlock) :=
  if negb (existsSync w filePath) then Ok []
  else
    rbind (addSourceFileAtPath w filePath) (fun sourceFile =>
    let relevantLines := filter (fun l => isRelevant l = true) changedLines in
    rbind (blockLoop sourceFile relevantLines ([], ∅)) (fun st => Ok (fst st))).

(** *** Staged files *)

Inductive FileStatus := Added | Modified | Deleted.

Global Instance FileStatus_eq_dec : EqDecision FileStatus.
Proof. solve_decision. Defined.

Record StagedFile := mkStagedFile {
  path : option string;     (* undefined when the line has no tab *)
  status : FileStatus;
}.

(** the status letter of a line of [--name-status] output: its first
    tab-separated field *)
Definition statusField (line : string) : string :=
  default EmptyString (head (JS.split "009"%char line)).

Definition pathField (line : string) : option string :=
  JS.split "009"%char line !! 1.

Definition parseStatus (status : string) : option FileStatus :=
  if String.eqb status "A" then Some Added
  else if String.eqb status "M" then Some Modified
  else if String.eqb status "D" then Some Deleted
  else None.

(** the loop over the lines of the listing *)
Fixpoint stagedOfLines (lines : list string) : list StagedFile :=
  match lines with
  | [] => []
  | line :: rest =>
      match parseStatus (statusField line) with
      | Some fileStatus => mkStagedFile (pathField line) fileStatus :: stagedOfLines rest
      | None => stagedOfLines rest
      end
  end.

Definition stagedLines (stdout : string) : list string :=
  if String.eqb (JS.trim stdout) EmptyString then [] else JS.split "010"%char (JS.trim stdout).

Definition getStagedFiles (w : World) : result (list StagedFile) :=
  match gitNameStatus w with
  | Ok stdout => Ok (stagedOfLines (stagedLines stdout))
  | Throw message =>
      if JS.includes message "not a git repository"
      then Throw "当前目录不是 Git 仓库"
      else Throw message
  end.

Record FileChange := mkFileChange {
  filePath : string;
  relativePath : string;
  fileStatus : FileStatus;            (* status *)
  changedLines : list ChangedLine;
  affectedBlocks : list CodeBlock;
}.

Record Summary := mkSummary { added : nat; modified : nat; deleted : nat }.

Record DiffAnalysis := mkDiffAnalysis {
  totalFiles : nat;
  fileChanges : list FileChange;
  summary : Summary;
}.

(** [summary[status]++] *)
Definition bump (s : Summary) (st : FileStatus) : Summary :=
  match st with
  | Added => mkSummary (S (added s)) (modified s) (deleted s)
  | Modified => mkSummary (added s) (S (modified s)) (deleted s)
  | Deleted => mkSummary (added s) (modified s) (S (deleted s))
  end.

Section WithPath.
Context `{NodePath}.

Definition isSourceFile (filePath : string) : bool :=
  let ext := path_extname filePath in
  bool_decide (ext ∈ [".ts"; ".tsx"; ".js"; ".jsx"])
  && negb (JS.includes filePath ".test.")
  && negb (JS.includes filePath ".spec.").

Definition analyzeFileChange (w : World) (relativePath : string)
    (status : FileStatus) (absolutePath : string) : result (option FileChange) :=
  if decide (status = Deleted) then
    Ok (Some (mkFileChange absolutePath relativePath status [] []))
  else
    let changedLines := getChangedLines w relativePath in
    match changedLines with
    | [] => Ok None
    | _ =>
        rbind (locateAffectedBlocks w absolutePath changedLines) (fun affectedBlocks =>
        Ok (Some (mkFileChange absolutePath relativePath status changedLines affectedBlocks)))
    end.

(** The loop of [analyzeStagedChanges]; the state is [fileChanges] and
    [summary]. [path.join] throws on an undefined path. *)
Fixpoint stagedLoop (w : World) (stagedFiles : list StagedFile)
    (st : list FileChange * Summary) : result (list FileChange * Summary) :=
  match stagedFiles with
  | [] => Ok st
  | file :: rest =>
      match path file with
      | None => Throw "TypeError: The 'path' argument must be of type string"
      | Some filePath =>
          let absolutePath := path_join (rootPath w) filePath in
          if negb (isSourceFile filePath) then stagedLoop w rest st
          else
            rbind (analyzeFileChange w filePath (status file) absolutePath) (fun fileChange =>
            match fileChange with
            | Some fc => stagedLoop w rest (fst st ++ [fc], bump (snd st) (status file))
            | None => stagedLoop w rest st
            end)
      end
  end.

(** [analyzeStagedChanges] from the point where the staged files are known *)
Definition analyzeEntries (w : World) (stagedFiles : list StagedFile) : result DiffAnalysis :=
  match stagedFiles with
  | [] => Ok (mkDiffAnalysis 0 [] (mkSummary 0 0 0))
  | _ =>
      rbind (stagedLoop w stagedFiles ([], mkSummary 0 0 0)) (fun st =>
      Ok (mkDiffAnalysis (length (fst st)) (fst st) (snd st)))
  end.

Definition analyzeStagedChanges (w : World) : result DiffAnalysis :=
  rbind (getStagedFiles w) (analyzeEntries w).

End WithPath.


End Diff.

(** ** DependencyTracer *)

Module DependencyInfo.
Inductive FileType := component | hook | util | service | type_ | other.
Record t := mk {
  filePath : string;
  relativePath : string;
  type : FileType;
  imports : list string;
}.
End DependencyInfo.

Module DependentInfo.
Record t := mk {
  filePath : string;
  relativePath : string;
  importedItems : list string;
  usageCount : nat;
}.
End DependentInfo.

Module ExportedItem.
Inductive Kind := function | class | interface | type_ | const | default_.
Record t := mk {
  name : string;
  type : Kind;
  isUsedExternally : bool;
}.
End ExportedItem.

Module ImpactAnalysis.
Record t := mk {
  targetFile : string;
  targetRelativePath : string;
  exports : list ExportedItem.t;
  dependencies : list DependencyInfo.t;
  dependents : list DependentInfo.t;
}.
End ImpactAnalysis.

Module Tracer.

(** The tracer's [visited] field, and two logs that the code does not
    keep: [calls] receives the file and depth of every invocation of
    [analyzeDependencies], [scans] those of every invocation that goes on
    to read the file's imports. The logs are never read by the code
    below; the traversal properties are stated over them. *)
Record TracerState := mkState {
  visited : gset string;
  calls : list (string * nat);
  scans : list (string * nat);
}.

(** A traversal step: it reads and updates the tracer state and returns a
    value or throws; [None] stands for recursion fuel used up. *)
Definition Trav (A : Type) : Type := TracerState -> option (TracerState * result A).

Definition ret {A} (a : A) : Trav A := fun st => Some (st, Ok a).
Definition lift {A} (r : result A) : Trav A := fun st => Some (st, r).
Definition outOfFuel {A} : Trav A := fun _ => None.
Definition bind {A B} (m : Trav A) (k : A -> Trav B) : Trav B :=
  fun st =>
    match m st with
    | None => None
    | Some (st', Ok a) => k a st'
    | Some (st', Throw e) => Some (st', Throw e)
    end.

Notation "'let*' x ':=' m 'in' k" := (bind m (fun x => k))
  (at level 10, x name, m at level 100, k at level 200).

Definition logCall (file : string) (depth : nat) : Trav unit :=
  fun st => Some (mkState (visited st) (calls st ++ [(file, depth)]) (scans st), Ok tt).

(** [this.visited.has(filePath)] *)
Definition visitedHas (file : string) : Trav bool :=
  fun st => Some (st, Ok (bool_decide (file ∈ visited st))).

(** [this.visited.add(filePath)] *)
Definition visitedAdd (file : string) (depth : nat) : Trav unit :=
  fun st => Some (mkState ({[file]} ∪ visited st) (calls st) (scans st ++ [(file, depth)]), Ok tt).

(** a [forEach] whose callback pushes onto a local array *)
Fixpoint foldTrav {X B} (f : B -> X -> Trav B) (l : list X) (b : B) : Trav B :=
  match l with
  | [] => ret b
  | x :: l' => let* b' := f b x in foldTrav f l' b'
  end.

Definition possibleExtensions : list string :=
  [EmptyString; ".ts"; ".tsx"; ".js"; ".jsx";
   "/index.ts"; "/index.tsx"; "/index.js"; "/index.jsx"].

(** [/use[A-Z]/] *)
Fixpoint matchesUseUpper (s : string) : bool :=
  match s with
  | EmptyString => false
  | String a s' =>
      (JS.startsWith s "use"
       && match JS.substringFrom 3 s with
          | String c _ => JS.isUpper c
          | EmptyString => false
          end)
      || matchesUseUpper s'
  end.

(** what an import declaration brings in: the default import, then the
    named ones *)
Definition importedNames (importDecl : Ast.ImportDeclaration) : list string :=
  match Ast.getDefaultImport importDecl with
  | Some d => [d]
  | None => []
  end ++ Ast.getNamedImports importDecl.

Definition exportsOf {N} (nameOf : N -> string) (kind : ExportedItem.Kind)
    (decls : list (N * bool)) : list ExportedItem.t :=
  flat_map (fun d : N * bool =>
              if snd d then [ExportedItem.mk (nameOf (fst d)) kind false] else [])
           decls.

Definition extractExports (sourceFile : Ast.SourceFile) : list ExportedItem.t :=
  exportsOf (fun n => Diff.orElse n "anonymous") ExportedItem.function
            (Ast.getFunctions sourceFile)
  ++ exportsOf (fun n => Diff.orElse n "anonymous") ExportedItem.class
               (Ast.getClasses sourceFile)
  ++ exportsOf id ExportedItem.interface (Ast.getInterfaces sourceFile)
  ++ exportsOf id ExportedItem.type_ (Ast.getTypeAliases sourceFile)
  ++ flat_map (fun stmt : bool * list string =>
                 if fst stmt
                 then map (fun n => ExportedItem.mk n ExportedItem.const false) (snd stmt)
                 else [])
              (Ast.getVariableStatements sourceFile)
  ++ (if Ast.getDefaultExportSymbol sourceFile
      then [ExportedItem.mk "default" ExportedItem.default_ false]
      else []).

Section WithPath.
Context `{NodePath}.

Definition resolveImportPath (w : World) (currentDir moduleSpecifier : string)
  : option string :=
  let aliased := JS.startsWith moduleSpecifier "@/" in
  let specifier :=
    if aliased then "src/" +:+ JS.substringFrom 2 moduleSpecifier else moduleSpecifier in
  let currentDir := if aliased then rootPath w else currentDir in
  List.find (existsSync w)
            (map (fun ext => path_resolve currentDir (specifier +:+ ext)) possibleExtensions).

Definition determineFileType (w : World) (filePath : string)
  : result DependencyInfo.FileType :=
  let fileName := JS.toLowerCase (path_basename filePath) in
  rbind (readFileSync w filePath) (fun content =>
  if JS.startsWith fileName "use" && matchesUseUpper fileName then
    Ok DependencyInfo.hook
  else if JS.endsWith filePath ".tsx" || JS.endsWith filePath ".jsx" then
    Ok DependencyInfo.component
  else if JS.includes content "return (" && JS.includes content "<"
          && JS.includes content "/>" then
    Ok DependencyInfo.component
  else if JS.includes fileName "service" || JS.includes fileName "api"
          || JS.includes fileName "client" then
    Ok DependencyInfo.service
  else if JS.includes fileName "type" || JS.endsWith fileName ".d.ts" then
    Ok DependencyInfo.type_
  else if JS.includes fileName "util" || JS.includes fileName "helper"
          || JS.includes fileName "tool" then
    Ok DependencyInfo.util
  else Ok DependencyInfo.other).

(** is the import kept by the forward traversal, and where does it lead *)
Definition localTarget (w : World) (filePath : string)
    (importDecl : Ast.ImportDeclaration) : option string :=
  let moduleSpecifier := Ast.getModuleSpecifierValue importDecl in
  if negb (JS.startsWith moduleSpecifier ".") && negb (JS.startsWith moduleSpecifier "/")
  then None
  else
    match resolveImportPath w (path_dirname filePath) moduleSpecifier with
    | None => None
    | Some resolvedPath =>
        if JS.includes resolvedPath (rootPath w) then Some resolvedPath else None
    end.

(** The callback of the [forEach] over the import declarations; [recur]
    is the recursive call. *)
Definition importStep (w : World)
    (recur : string -> Ast.SourceFile -> Trav (list DependencyInfo.t))
    (filePath : string) (depth maxDepth : nat)
    (dependencies : list DependencyInfo.t) (importDecl : Ast.ImportDeclaration)
  : Trav (list DependencyInfo.t) :=
  match localTarget w filePath importDecl with
  | None => ret dependencies
  | Some resolvedPath =>
      let relativePath := path_relative (rootPath w) resolvedPath in
      let* type := lift (determineFileType w resolvedPath) in
      let imports := importedNames importDecl in
      let dependencies :=
        dependencies ++ [DependencyInfo.mk resolvedPath relativePath type imports] in
      if depth <? maxDepth then
        let* depSourceFile := lift (addSourceFileAtPath w resolvedPath) in
        let* subDeps := recur resolvedPath depSourceFile in
        ret (dependencies ++ subDeps)
      else ret dependencies
  end.

Fixpoint analyzeDependencies (fuel : nat) (w : World)
    (filePath : string) (sourceFile : Ast.SourceFile) (depth maxDepth : nat)
  : Trav (list DependencyInfo.t) :=
  match fuel with
  | 0 => outOfFuel
  | S fuel' =>
      let* _ := logCall filePath depth in
      if maxDepth <? depth then ret []
      else
        let* seen := visitedHas filePath in
        if seen : bool then ret []
        else
          let* _ := visitedAdd filePath depth in
          foldTrav
            (importStep w
               (fun p sf => analyzeDependencies fuel' w p sf (S depth) maxDepth)
               filePath depth maxDepth)
            (Ast.getImportDeclarations sourceFile) []
  end.

(** The callback of the [forEach] inside [analyzeDependents]; the state
    is [importedItems] and [usageCount]. *)
Definition countImport (w : World) (file targetPath : string)
    (st : list string * nat) (importDecl : Ast.ImportDeclaration) : list string * nat :=
  let moduleSpecifier := Ast.getModuleSpecifierValue importDecl in
  match resolveImportPath w (path_dirname file) moduleSpecifier with
  | Some resolvedPath =>
      if decide (resolvedPath = targetPath) then
        let st1 :=
          match Ast.getDefaultImport importDecl with
          | Some d => (fst st ++ [d], S (snd st))
          | None => st
          end in
        fold_left (fun acc named => (fst acc ++ [named], S (snd acc)))
                  (Ast.getNamedImports importDecl) st1
      else st
  | None => st
  end.

(** the loop over the project files *)
Fixpoint dependentsLoop (w : World) (targetPath : string) (files : list string)
    (dependents : list DependentInfo.t) : result (list DependentInfo.t) :=
  match files with
  | [] => Ok dependents
  | file :: rest =>
      if decide (file = targetPath) then dependentsLoop w targetPath rest dependents
      else
        rbind (addSourceFileAtPath w file) (fun sourceFile =>
        let '(importedItems, usageCount) :=
          fold_left (countImport w file targetPath)
                    (Ast.getImportDeclarations sourceFile) ([], 0) in
        match importedItems with
        | [] => dependentsLoop w targetPath rest dependents
        | _ =>
            dependentsLoop w targetPath rest
              (dependents ++ [DependentInfo.mk file (path_relative (rootPath w) file)
                                              importedItems usageCount])
        end)
  end.

Definition analyzeDependents (w : World) (targetPath : string)
  : result (list DependentInfo.t) :=
  dependentsLoop w targetPath (globbyFiles w) [].

(** state of a tracer whose [visited] set has just been cleared *)
Definition cleared : TracerState := mkState ∅ [] [].

(** the forward traversal of one query, as [analyzeImpact] starts it *)
Definition forwardTraversal (fuel : nat) (w : World) (absolutePath : string)
    (sourceFile : Ast.SourceFile) : option (TracerState * result (list DependencyInfo.t)) :=
  analyzeDependencies fuel w absolutePath sourceFile 0 3 cleared.

Definition analyzeImpact (fuel : nat) (w : World) (filePath : string)
  : option (result ImpactAnalysis.t) :=
  let absolutePath :=
    if path_isAbsolute filePath then filePath else path_join (rootPath w) filePath in
  if negb (existsSync w absolutePath) then Some (Throw ("文件不存在: " +:+ filePath))
  else
    match addSourceFileAtPath w absolutePath with
    | Throw e => Some (Throw e)
    | Ok sourceFile =>
        let relativePath := path_relative (rootPath w) absolutePath in
        let exports := extractExports sourceFile in
        match forwardTraversal fuel w absolutePath sourceFile with
        | None => None
        | Some (_, Throw e) => Some (Throw e)
        | Some (_, Ok dependencies) =>
            match analyzeDependents w absolutePath with
            | Throw e => Some (Throw e)
            | Ok dependents =>
                Some (Ok (ImpactAnalysis.mk absolutePath relativePath
                                            exports dependencies dependents))
            end
        end
    end.

End WithPath.

End Tracer.

(** ** TaskHydrator: the declaration that follows a task marker *)

Module Hydrator.

Inductive BlockType := function | method | arrow | class.

Record FoundBlock := mkFound {
  type : BlockType;
  name : option string;
  code : string;
  node : Ast.Node;
  startLine : nat;
  endLine : nat;
}.

(** the [if / else if] chain over the node kinds *)
Definition classify (node parent : Ast.Node) : option (BlockType * option string) :=
  match Ast.getKind node with
  | Ast.FunctionDeclaration => Some (function, Ast.getName node)
  | Ast.MethodDeclaration => Some (method, Ast.getName node)
  | Ast.ArrowFunction =>
      Some (arrow,
            if decide (Ast.getKind parent = Ast.VariableDeclaration)
            then Ast.getName parent else None)
  | Ast.ClassDeclaration => Some (class, Ast.getName node)
  | _ => None
  end.

(** [d < minDistance], where [None] is [Infinity] *)
Definition closer (d : nat) (minDistance : option nat) : bool :=
  match minDistance with
  | None => true
  | Some m => d <? m
  end.

(** The callback of [forEachDescendant]; the state is [result] and
    [minDistance]. *)
Definition visit (text : string) (commentLine : nat)
    (st : option FoundBlock * option nat) (np : Ast.Node * Ast.Node)
  : option FoundBlock * option nat :=
  let '(node, parent) := np in
  let startLine := Ast.lineAtPos text (Ast.getStart node) in
  if (commentLine <? startLine) && closer (startLine - commentLine) (snd st) then
    match classify node parent with
    | Some (blockType, blockName) =>
        let endLine := Ast.lineAtPos text (Ast.getEnd node) in
        (Some (mkFound blockType blockName (Ast.getText text node) node startLine endLine),
         Some (startLine - commentLine))
    | None => st
    end
  else st.

Definition findFollowingCodeBlock (sourceFile : Ast.SourceFile) (commentLine : nat)
  : option FoundBlock :=
  fst (fold_left (visit (Ast.getFullText sourceFile) commentLine)
                 (Ast.descendants (Ast.root sourceFile)) (None, None)).

End Hydrator.

(** ** ContextFinder: relevance scoring *)

Module Finder.

(** the fields of [FileAnalysis] the scorer reads; functions and
    interfaces are represented by their optional names *)
Record FileAnalysis := mkFile {
  filePath : string;
  relativePath : string;
  exports : list string;
  functions : list (option string);
  interfaces : list (option string);
}.

(** [name?.toLowerCase().includes(keyword)] *)
Definition nameIncludes (name : option string) (keyword : string) : bool :=
  match name with
  | Some n => JS.includes (JS.toLowerCase n) keyword
  | None => false
  end.

(** one [if (...) { score += points; matchedKeywords.push(keyword) }] *)
Definition award (hit : bool) (points : nat) (keyword : string)
    (st : nat * list string) : nat * list string :=
  if hit then (fst st + points, snd st ++ [keyword]) else st.

(** [[...new Set(l)]]: first occurrences, in order *)
Definition dedupe (l : list string) : list string :=
  fold_left (fun acc k => if decide (k ∈ acc) then acc else acc ++ [k]) l [].

Section WithPath.
Context `{NodePath}.

(** the body of the loop over the keywords *)
Definition keywordStep (file : FileAnalysis) (st : nat * list string)
    (keyword : string) : nat * list string :=
  let filePathLower := JS.toLowerCase (relativePath file) in
  let fileNameLower := JS.toLowerCase (path_basename (filePath file)) in
  let st1 :=
    if JS.includes fileNameLower keyword then award true 10 keyword st
    else if JS.includes filePathLower keyword then award true 5 keyword st
    else st in
  let st2 :=
    fold_left (fun acc exp =>
                 award (JS.includes (JS.toLowerCase exp) keyword) 8 keyword acc)
              (exports file) st1 in
  let st3 :=
    fold_left (fun acc func => award (nameIncludes func keyword) 6 keyword acc)
              (functions file) st2 in
  fold_left (fun acc iface => award (nameIncludes iface keyword) 6 keyword acc)
            (interfaces file) st3.

Definition calculateMatchScore (file : FileAnalysis) (keywords : list string)
  : nat * list string :=
  let '(score, matchedKeywords) := fold_left (keywordStep file) keywords (0, []) in
  (score, dedupe matchedKeywords).

End WithPath.

End Finder.

(** ** Predicates on strings used in the statements *)

(** no character of [s] is [a] *)
Definition lacks (a : ascii) (s : string) : Prop :=
  Forall (fun c => c <> a) (list_ascii_of_string s).

Definition allDigits (s : string) : Prop :=
  Forall (fun c => JS.isDigit c = true) (list_ascii_of_string s).

(** [s] does not begin with a digit *)
Definition noLeadingDigit (s : string) : Prop :=
  match s with
  | String c _ => JS.isDigit c = false
  | EmptyString => True
  end.

(** the value of a digit string read after digits worth [acc] *)
Definition readDigits (acc : nat) (s : string) : nat :=
  fold_left (fun acc a => 10 * acc + JS.digitValue a) (list_ascii_of_string s) acc.

(** ** The unified diff format

    How git writes a hunk header: [@@ -<old>[,<count>] +<new>[,<count>] @@],
    optionally followed by the text of the enclosing section. *)

Module Unified.

Definition count (c : option nat) : string :=
  match c with
  | Some k => "," +:+ pretty k
  | None => EmptyString
  end.

Definition hunkHeader (old : nat) (oldCount : option nat)
    (new : nat) (newCount : option nat) (section : string) : string :=
  "@@ -" +:+ pretty old +:+ count oldCount
  +:+ " +" +:+ pretty new +:+ count newCount +:+ " @@" +:+ section.

(** the state of the parsing loop after the lines [lines], started in [st] *)
Definition run (st : nat * list Diff.ChangedLine) (lines : list string)
  : nat * list Diff.ChangedLine :=
  fold_left Diff.lineStep lines st.

End Unified.

(** ** Vocabulary for the staged-change statements *)

Module Staged.

(** the same world with another staged-file listing *)
Definition withListing (w : World) (stdout : string) : World :=
  mkWorld (rootPath w) (fs w) (globbyFiles w) (Ok stdout) (gitDiff w).

(** how many of the file changes have status [s] *)
Definition countStatus (s : Diff.FileStatus) (changes : list Diff.FileChange) : nat :=
  length (filter (fun fc => Diff.fileStatus fc = s) changes).

(** the summary counts the file changes by status *)
Definition summarises (sm : Diff.Summary) (changes : list Diff.FileChange) : Prop :=
  Diff.added sm = countStatus Diff.Added changes
  /\ Diff.modified sm = countStatus Diff.Modified changes
  /\ Diff.deleted sm = countStatus Diff.Deleted changes.

(** the file change was produced for an entry of the listing: a line whose
    status letter is that of the change and whose path is its path *)
Definition fromLine (lines : list string) (fc : Diff.FileChange) : Prop :=
  exists line, line ∈ lines
    /\ Diff.parseStatus (Diff.statusField line) = Some (Diff.fileStatus fc)
    /\ Diff.pathField line = Some (Diff.relativePath fc).

End Staged.

(** ** The structural test of the specification

    "Its body contains a return of a markup-like expression", read on the
    syntax tree: some return statement under the node returns a JSX element
    or fragment (parentheses aside), or the node is an arrow function whose
    body is one. *)

Module Claimed.

Definition isJsx (k : Ast.SyntaxKind) : bool :=
  match k with
  | Ast.JsxElement | Ast.JsxSelfClosingElement | Ast.JsxFragment => true
  | _ => false
  end.

Fixpoint isMarkupExpression (n : Ast.Node) : bool :=
  match n with
  | Ast.mkNode k _ _ _ _ _ _ children =>
      isJsx k
      || match k, children with
         | Ast.ParenthesizedExpression, [e] => isMarkupExpression e
         | _, _ => false
         end
  end.

Definition returnsMarkupHere (n : Ast.Node) : bool :=
  match Ast.getKind n, Ast.forEachChild n with
  | Ast.ReturnStatement, e :: _ => isMarkupExpression e
  | Ast.ArrowFunction, body => existsb isMarkupExpression (drop (length body - 1) body)
  | _, _ => false
  end.

Definition returnsMarkup (fn : Ast.Node) : bool :=
  returnsMarkupHere fn || existsb (fun d => returnsMarkupHere (fst d)) (Ast.descendants fn).

End Claimed.

(** ** Vocabulary for the block-mapping statements *)

Module Mapped.

(** [blocks] holds an entry for the declaration of [block] that lists [line] *)
Definition covers (blocks : list Diff.CodeBlock) (line : nat) (block : Diff.CodeBlock) : Prop :=
  exists b, b ∈ blocks /\ Diff.sameBlock block b /\ line ∈ Diff.changedLineNumbers b.

(** no two entries of [blocks] are for the same declaration *)
Definition distinctBlocks (blocks : list Diff.CodeBlock) : Prop :=
  forall i j bi bj,
    blocks !! i = Some bi -> blocks !! j = Some bj -> Diff.sameBlock bi bj -> i = j.

(** [n] is the number of an added or modified line of the diff *)
Definition isChangedLine (changedLines : list Diff.ChangedLine) (n : nat) : Prop :=
  exists cl, cl ∈ changedLines /\ Diff.isRelevant cl = true /\ Diff.lineNumber cl = n.

(** the loop state is consistent: [processedBlocks] holds the keys of
    [blocks], and no key occurs twice *)
Definition consistent (st : list Diff.CodeBlock * gset string) : Prop :=
  (forall k, k ∈ snd st <-> exists b, b ∈ fst st /\ Diff.blockKey b = k)
  /\ NoDup (map Diff.blockKey (fst st)).

End Mapped.

(** ** Vocabulary for the traversal statements *)

Module Walk.

(** the step never runs out of fuel *)
Definition terminates {A} (m : Tracer.Trav A) : Prop :=
  forall st, is_Some (m st).

(** the step keeps the property [J] of the tracer state *)
Definition preserves (J : Tracer.TracerState -> Prop) {A} (m : Tracer.Trav A) : Prop :=
  forall st st' r, J st -> m st = Some (st', r) -> J st'.

(** What holds of the tracer state throughout one query: no file is scanned
    twice, every scanned file is in [visited], and no invocation has a depth
    beyond [maxDepth]. *)
Definition bounded (maxDepth : nat) (st : Tracer.TracerState) : Prop :=
  NoDup (map fst (Tracer.scans st))
  /\ (forall f, f ∈ map fst (Tracer.scans st) -> f ∈ Tracer.visited st)
  /\ Forall (fun c => snd c <= maxDepth) (Tracer.calls st).

(** the names an import declaration of [file] brings in from [targetPath] *)
Definition importsFrom `{NodePath} (w : World) (file targetPath : string)
    (importDecl : Ast.ImportDeclaration) : list string :=
  if decide (Tracer.resolveImportPath w (path_dirname file)
               (Ast.getModuleSpecifierValue importDecl) = Some targetPath)
  then Tracer.importedNames importDecl
  else [].

(** [m'] does whatever [m] does when [m] has fuel enough *)
Definition extends {A} (m m' : Tracer.Trav A) : Prop :=
  forall st out, m st = Some out -> m' st = Some out.

(** the names [file] imports from [targetPath], over all its import
    declarations *)
Definition namesFrom `{NodePath} (w : World) (file targetPath : string)
    (sourceFile : Ast.SourceFile) : list string :=
  flat_map (importsFrom w file targetPath) (Ast.getImportDeclarations sourceFile).

(** the record the reverse scan makes for [file] *)
Definition dependentRecord `{NodePath} (w : World) (file targetPath : string)
    (sourceFile : Ast.SourceFile) : DependentInfo.t :=
  DependentInfo.mk file (path_relative (rootPath w) file)
                   (namesFrom w file targetPath sourceFile)
                   (length (namesFrom w file targetPath sourceFile)).

(** the number of distinct names in a list *)
Definition distinctNames (names : list string) : nat :=
  size (list_to_set names : gset string).

End Walk.

(** ** Vocabulary for the marker and scoring statements *)

Module Marker.

(** the nodes [findFollowingCodeBlock] takes: function declarations, method
    declarations, arrow functions and class declarations *)
Definition accepted (n : Ast.Node) : bool :=
  match Ast.getKind n with
  | Ast.FunctionDeclaration | Ast.MethodDeclaration
  | Ast.ArrowFunction | Ast.ClassDeclaration => true
  | _ => false
  end.

(** the kinds as the specification lists them: an arrow function only when
    it is bound to a variable *)
Definition acceptedAsClaimed (n parent : Ast.Node) : bool :=
  match Ast.getKind n with
  | Ast.FunctionDeclaration | Ast.MethodDeclaration | Ast.ClassDeclaration => true
  | Ast.ArrowFunction => bool_decide (Ast.getKind parent = Ast.VariableDeclaration)
  | _ => false
  end.

Definition startLineOf (sourceFile : Ast.SourceFile) (n : Ast.Node) : nat :=
  Ast.lineAtPos (Ast.getFullText sourceFile) (Ast.getStart n).

(** [n] is an accepted node that starts after line [line] *)
Definition follows (sourceFile : Ast.SourceFile) (line : nat) (n : Ast.Node) : Prop :=
  accepted n = true /\ line < startLineOf sourceFile n.

(** what the search has established after the nodes [seen] *)
Definition nearest (sourceFile : Ast.SourceFile) (line : nat)
    (seen : list (Ast.Node * Ast.Node)) (st : option Hydrator.FoundBlock * option nat) : Prop :=
  match fst st with
  | Some b =>
      snd st = Some (Hydrator.startLine b - line)
      /\ (exists parent, (Hydrator.node b, parent) ∈ seen)
      /\ Hydrator.startLine b = startLineOf sourceFile (Hydrator.node b)
      /\ follows sourceFile line (Hydrator.node b)
      /\ (forall n parent, (n, parent) ∈ seen -> follows sourceFile line n ->
                           Hydrator.startLine b <= startLineOf sourceFile n)
  | None =>
      snd st = None
      /\ (forall n parent, (n, parent) ∈ seen -> ~ follows sourceFile line n)
  end.

End Marker.

Module Score.

Definition countHits {X} (hit : X -> bool) (l : list X) : nat := length (filter (fun x => hit x = true) l).

(** the points one keyword earns a file, tier by tier *)
Definition namePoints `{NodePath} (file : Finder.FileAnalysis) (keyword : string) : nat :=
  if JS.includes (JS.toLowerCase (path_basename (Finder.filePath file))) keyword then 10
  else if JS.includes (JS.toLowerCase (Finder.relativePath file)) keyword then 5
  else 0.

Definition exportPoints (file : Finder.FileAnalysis) (keyword : string) : nat :=
  8 * countHits (fun exp => JS.includes (JS.toLowerCase exp) keyword) (Finder.exports file).

Definition functionPoints (file : Finder.FileAnalysis) (keyword : string) : nat :=
  6 * countHits (fun func => Finder.nameIncludes func keyword) (Finder.functions file).

Definition interfacePoints (file : Finder.FileAnalysis) (keyword : string) : nat :=
  6 * countHits (fun iface => Finder.nameIncludes iface keyword) (Finder.interfaces file).

Definition keywordPoints `{NodePath} (file : Finder.FileAnalysis) (keyword : string) : nat :=
  namePoints file keyword + exportPoints file keyword
  + functionPoints file keyword + interfacePoints file keyword.

End Score.

(** ** Sample projects

    Small projects on which the functions above are run. All live under the
    root [/p] and use the POSIX path operations. *)

Module Sample.

Definition fileNode (text : string) (children : list Ast.Node) : Ast.Node :=
  Ast.mkNode Ast.SourceFileKind None 0 0 (String.length text) Ast.noSignature None children.

(** a file of which only the imports and exported functions matter *)
Definition moduleFile (imports : list Ast.ImportDeclaration)
    (exportedFunctions : list string) : Ast.SourceFile :=
  Ast.mkSourceFile EmptyString (fileNode EmptyString []) imports
    (map (fun f => (Some f, true)) exportedFunctions) [] [] [] [] false.

Definition named (specifier : string) (names : list string) : Ast.ImportDeclaration :=
  Ast.mkImport specifier None names.

Definition noGit : result string := Throw "fatal: not a git repository".

Definition project (files : list (string * Ast.SourceFile)) : World :=
  mkWorld "/p"
          (list_to_map (map (fun f => (fst f, FsFile (snd f))) files))
          (map fst files)
          noGit (fun _ => noGit).

(** [t.ts] exports [foo]; [a.ts] has [import { foo } from './t'] *)
Definition usedExport : World :=
  project [("/p/src/a.ts", moduleFile [named "./t" ["foo"]] []);
           ("/p/src/t.ts", moduleFile [] ["foo"])].

(** a chain: [a.ts] imports [b.ts], which imports [c.ts] *)
Definition chain : World :=
  project [("/p/src/a.ts", moduleFile [named "./b" ["b"]] ["a"]);
           ("/p/src/b.ts", moduleFile [named "./c" ["c"]] ["b"]);
           ("/p/src/c.ts", moduleFile [] ["c"])].

(** a cycle: [a.ts] and [b.ts] import each other *)
Definition cycle : World :=
  project [("/p/src/a.ts", moduleFile [named "./b" ["b"]] ["a"]);
           ("/p/src/b.ts", moduleFile [named "./a" ["a"]] ["b"])].

(** [u.ts] has [import { a } from './t'] and [import { a as b } from './t'] *)
Definition repeatedName : World :=
  project [("/p/src/t.ts", moduleFile [] ["a"]);
           ("/p/src/u.ts", moduleFile [named "./t" ["a"]; named "./t" ["a"]] [])].

Definition lf : string := String "010"%char EmptyString.
Definition tab : string := String "009"%char EmptyString.

Definition node (kind : Ast.SyntaxKind) (name : option string) (pos start end_ : nat)
    (children : list Ast.Node) : Ast.Node :=
  Ast.mkNode kind name pos start end_ Ast.noSignature None children.

(** a file of which only the text and the syntax tree matter *)
Definition textFile (text : string) (children : list Ast.Node) : Ast.SourceFile :=
  Ast.mkSourceFile text (fileNode text children) [] [] [] [] [] [] false.

(** A function that returns a number; markup occurs only in its comment.
<<
function f() {
  // return (<div/>)
  return 1;
}
>>
    Lines start at offsets 0, 15, 36 and 48. *)
Definition widgetText : string :=
  JS.join lf ["function f() {"; "  // return (<div/>)"; "  return 1;"; "}"; EmptyString].

Definition widgetTree : list Ast.Node :=
  [Ast.mkNode Ast.FunctionDeclaration (Some "f") 0 0 49
     (Ast.mkSignatureInfo [] "number" false) None
     [node Ast.OtherKind (Some "f") 8 9 10 [];                (* the identifier *)
      node Ast.OtherKind None 12 13 49                        (* the body block *)
        [node Ast.ReturnStatement None 14 38 47               (* return 1; *)
           [node Ast.OtherKind None 44 45 46 []]]]].          (* 1 *)

Definition widget : Ast.SourceFile := textFile widgetText widgetTree.

(** [src/widget.ts] is staged as modified (line 3 replaced) next to a rename. *)
Definition renameEntry : string := "R100" +:+ tab +:+ "src/old.ts" +:+ tab +:+ "src/new.ts".
Definition widgetEntry : string := "M" +:+ tab +:+ "src/widget.ts".
Definition listing : string := JS.join lf [widgetEntry; renameEntry; EmptyString].
Definition listingWithoutRename : string := JS.join lf [widgetEntry; EmptyString].

Definition widgetDiff : string :=
  JS.join lf ["diff --git a/src/widget.ts b/src/widget.ts"; "index 1111111..2222222 100644";
              "--- a/src/widget.ts"; "+++ b/src/widget.ts";
              "@@ -3 +3 @@"; "-  return 0;"; "+  return 1;"; EmptyString].

Definition staged : World :=
  mkWorld "/p"
          {[ "/p/src/widget.ts" := FsFile widget ]}
          ["/p/src/widget.ts"]
          (Ok listing)
          (fun relativePath =>
             if String.eqb relativePath "src/widget.ts" then Ok widgetDiff
             else Throw "fatal: bad revision").

(** An arrow function bound to a variable that returns markup.
<<
const Card = () => {
  return (<div/>);
};
>>
    Lines start at offsets 0, 21 and 40. *)
Definition cardText : string :=
  JS.join lf ["const Card = () => {"; "  return (<div/>);"; "};"; EmptyString].

Definition cardArrow : Ast.Node :=
  node Ast.ArrowFunction None 12 13 41
    [node Ast.OtherKind None 18 19 41                         (* the body block *)
       [node Ast.ReturnStatement None 20 23 39
          [node Ast.ParenthesizedExpression None 29 30 38
             [node Ast.JsxSelfClosingElement None 31 31 37 []]]]].

Definition cardDeclaration : Ast.Node :=
  Ast.mkNode Ast.VariableDeclaration (Some "Card") 5 6 41 Ast.noSignature (Some 1)
    [node Ast.OtherKind (Some "Card") 5 6 10 []; cardArrow].

Definition card : Ast.SourceFile :=
  textFile cardText
    [node Ast.VariableStatement None 0 0 42
       [node Ast.VariableDeclarationList None 0 0 41 [cardDeclaration]]].

(** A task marker followed by a call that takes a callback, then a function.
<<
// @AI-TODO tidy up
items.forEach(x => go(x));
function foo() {}
>>
    Lines start at offsets 0, 20 and 47; the arrow function is at 34..44. *)
Definition callbackText : string :=
  JS.join lf ["// @AI-TODO tidy up"; "items.forEach(x => go(x));"; "function foo() {}";
              EmptyString].

Definition callbackArrow : Ast.Node :=
  node Ast.ArrowFunction None 34 34 44
    [node Ast.OtherKind (Some "x") 34 34 35 [];               (* the parameter *)
     node Ast.OtherKind None 38 39 44 []].                    (* go(x) *)

Definition callbackCall : Ast.Node :=
  node Ast.OtherKind None 0 20 45                             (* items.forEach(...) *)
    [node Ast.OtherKind None 0 20 33 [];                      (* items.forEach *)
     callbackArrow].

Definition callbackFoo : Ast.Node :=
  Ast.mkNode Ast.FunctionDeclaration (Some "foo") 46 47 64
    (Ast.mkSignatureInfo [] "void" false) None
    [node Ast.OtherKind (Some "foo") 55 56 59 [];
     node Ast.OtherKind None 61 62 64 []].

Definition callbackFile : Ast.SourceFile :=
  textFile callbackText
    [node Ast.OtherKind None 0 20 46 [callbackCall];          (* the statement *)
     callbackFoo].

(** a component file whose name has capital letters *)
Definition profileFile : Finder.FileAnalysis :=
  Finder.mkFile "/p/src/components/UserProfile.tsx" "src/components/UserProfile.tsx" [] [] [].

(** the file of the scoring example *)
Definition userProfile : Finder.FileAnalysis :=
  Finder.mkFile "/p/src/userProfile.ts" "src/userProfile.ts" [] [] [].

(** the widget with lines 2 and 3 both added by one hunk *)
Definition widgetDiff2 : string :=
  JS.join lf ["diff --git a/src/widget.ts b/src/widget.ts"; "index 1111111..3333333 100644";
              "--- a/src/widget.ts"; "+++ b/src/widget.ts";
              "@@ -1,0 +2,2 @@"; "+  // return (<div/>)"; "+  return 1;"; EmptyString].

Definition staged2 : World :=
  mkWorld "/p"
          {[ "/p/src/widget.ts" := FsFile widget ]}
          ["/p/src/widget.ts"]
          (Ok listingWithoutRename)
          (fun _ => Ok widgetDiff2).

End Sample.

(** ** Further notions used in the statements *)

#[global] Instance ChangeType_eq_dec : EqDecision Diff.ChangeType.
Proof. solve_decision. Defined.

Module Located.

(** the nodes at which the [while (current)] loop of [findCodeBlockAtLine]
    stops: function, method, class and interface declarations, and variable
    declarations whose initializer is an arrow function *)
Definition declares (n : Ast.Node) : bool :=
  match Ast.getKind n with
  | Ast.FunctionDeclaration | Ast.MethodDeclaration
  | Ast.ClassDeclaration | Ast.InterfaceDeclaration => true
  | Ast.VariableDeclaration =>
      match Ast.getInitializer n with
      | Some initializer => bool_decide (Ast.getKind initializer = Ast.ArrowFunction)
      | None => false
      end
  | _ => false
  end.

(** the entry [b] lists at least one line, no line twice, and only numbers
    of lines among [lines] that the mapper places in the declaration of [b] *)
Definition listsOnly (sourceFile : Ast.SourceFile) (lines : list Diff.ChangedLine)
    (b : Diff.CodeBlock) : Prop :=
  Diff.changedLineNumbers b <> []
  /\ NoDup (Diff.changedLineNumbers b)
  /\ forall n, n ∈ Diff.changedLineNumbers b ->
       exists cl found,
         cl ∈ lines /\ Diff.lineNumber cl = n
         /\ Diff.findCodeBlockAtLine sourceFile n = Ok (Some found)
         /\ Diff.sameBlock found b.

End Located.

(** ** Lines, offsets and the declaration around an offset *)

Module Enclosing.

(** [pos] is the first offset that [getLineAndColumnAtPos] places on line
    [l]: the offset at which the line begins *)
Definition startsLine (text : string) (l pos : nat) : bool :=
  (Ast.lineAtPos text pos =? l)
  && forallb (fun p => Ast.lineAtPos text p <? l) (seq 0 pos).

(** where the [while (current)] loop stops on a chain of nodes: the first
    node that is a declaration, with the nodes above it *)
Fixpoint located (chain : list Ast.Node) : option (Ast.Node * list Ast.Node) :=
  match chain with
  | [] => None
  | n :: outer => if Located.declares n then Some (n, outer) else located outer
  end.

(** the offset lies inside a declaration of the file *)
Definition enclosed (sourceFile : Ast.SourceFile) (pos : nat) : bool :=
  Ast.containsPos (Ast.root sourceFile) pos
  && bool_decide (is_Some (located (Ast.chainAt pos (Ast.root sourceFile)))).

(** the text contains [return (] and also [<] or [jsx] *)
Definition hasMarkupText (code : string) : Prop :=
  JS.includes code "return (" = true
  /\ (JS.includes code "<" = true \/ JS.includes code "jsx" = true).

End Enclosing.

Module MapperCases.

(** the function declaration of the widget *)
Definition widgetFunction : Ast.Node :=
  default (Sample.fileNode EmptyString []) (head Sample.widgetTree).

(** the widget after two lines were removed from it, old lines 3 and 5: the
    deletions carry the numbers 2 and 3 of the new file *)
Definition widgetDiff : string :=
  JS.join Sample.lf
    ["diff --git a/src/widget.ts b/src/widget.ts"; "index 4444444..1111111 100644";
     "--- a/src/widget.ts"; "+++ b/src/widget.ts";
     "@@ -3 +2,0 @@"; "-  log(1);"; "@@ -5 +3,0 @@"; "-  log(2);"; EmptyString].

Definition removed : World :=
  mkWorld "/p"
          {[ "/p/src/widget.ts" := FsFile Sample.widget ]}
          ["/p/src/widget.ts"]
          (Ok Sample.listingWithoutRename)
          (fun _ => Ok widgetDiff).

End MapperCases.

Module Traced.

(** the step never returns a value: it throws, or runs out of fuel *)
Definition fails {A} (m : Tracer.Trav A) : Prop :=
  forall st st' a, m st <> Some (st', Ok a).

(** the dependency record [d] was made for an import declaration of one of
    the files [scanned], which is on disk: the declaration is local, resolves
    to the record's path inside the root, and brings in the record's names *)
Definition recordedFor `{NodePath} (w : World) (scanned : list string)
    (d : DependencyInfo.t) : Prop :=
  exists importer importerSource importDecl,
    importer ∈ scanned
    /\ fs w !! importer = Some (FsFile importerSource)
    /\ importDecl ∈ Ast.getImportDeclarations importerSource
    /\ Tracer.localTarget w importer importDecl = Some (DependencyInfo.filePath d)
    /\ DependencyInfo.imports d = Tracer.importedNames importDecl
    /\ DependencyInfo.relativePath d
       = path_relative (rootPath w) (DependencyInfo.filePath d)
    /\ Tracer.determineFileType w (DependencyInfo.filePath d) = Ok (DependencyInfo.type d).

(** a step that, started in a state, only adds to the log of scanned files,
    and whose value satisfies [Q] of the files scanned by its end *)
Definition scanning {A} (Q : list string -> A -> Prop) (m : Tracer.Trav A) : Prop :=
  forall st st' a,
    m st = Some (st', Ok a) ->
    (map fst (Tracer.scans st) `prefix_of` map fst (Tracer.scans st'))
    /\ Q (map fst (Tracer.scans st')) a.

(** the import goes to a relative or absolute path, not to a package or an
    alias *)
Definition isPathSpecifier (importDecl : Ast.ImportDeclaration) : bool :=
  JS.startsWith (Ast.getModuleSpecifierValue importDecl) "."
  || JS.startsWith (Ast.getModuleSpecifierValue importDecl) "/".

End Traced.

Module Cases.

(** [a.ts] has [import { Button } from './ui'], and [ui] is a directory
    with an [index.ts] *)
Definition directoryImport : World :=
  mkWorld "/p"
          (<["/p/src/ui" := FsDirectory]>
             (fs (Sample.project
                    [("/p/src/a.ts", Sample.moduleFile [Sample.named "./ui" ["Button"]] []);
                     ("/p/src/ui/index.ts", Sample.moduleFile [] ["Button"])])))
          ["/p/src/a.ts"; "/p/src/ui/index.ts"]
          Sample.noGit (fun _ => Sample.noGit).

(** [n.ts] has [import * as t from './t'] and [import './t'] *)
Definition namespaceImport : World :=
  Sample.project
    [("/p/src/n.ts", Sample.moduleFile [Ast.mkImport "./t" None []; Ast.mkImport "./t" None []] []);
     ("/p/src/t.ts", Sample.moduleFile [] ["t"])].

(** [a.ts] has [import { t } from '@/t'] and [import React from 'react'] *)
Definition aliasImport : World :=
  Sample.project
    [("/p/src/a.ts",
      Sample.moduleFile [Sample.named "@/t" ["t"]; Ast.mkImport "react" (Some "React") []] []);
     ("/p/src/t.ts", Sample.moduleFile [] ["t"])].

End Cases.

Module Followed.

(** What the search of [findFollowingCodeBlock] holds after the nodes
    [seen]: the block it has is made from a node of [seen], field by field,
    and every accepted node after the marker that was visited before that node
    starts on a later line. *)
Definition first (sourceFile : Ast.SourceFile) (line : nat)
    (seen : list (Ast.Node * Ast.Node)) (found : option Hydrator.FoundBlock) : Prop :=
  match found with
  | Some b =>
      exists before parent after,
        seen = before ++ (Hydrator.node b, parent) :: after
        /\ Hydrator.classify (Hydrator.node b) parent = Some (Hydrator.type b, Hydrator.name b)
        /\ Hydrator.code b = Ast.getText (Ast.getFullText sourceFile) (Hydrator.node b)
        /\ Hydrator.endLine b
           = Ast.lineAtPos (Ast.getFullText sourceFile) (Ast.getEnd (Hydrator.node b))
        /\ Forall (fun np => Marker.follows sourceFile line (fst np) ->
                             Hydrator.startLine b < Marker.startLineOf sourceFile (fst np))
                  before
  | None => True
  end.

(** how many tiers of the scorer a keyword hits in a file *)
Definition hits `{NodePath} (file : Finder.FileAnalysis) (keyword : string) : nat :=
  (if JS.includes (JS.toLowerCase (path_basename (Finder.filePath file))) keyword then 1
   else if JS.includes (JS.toLowerCase (Finder.relativePath file)) keyword then 1
   else 0)
  + Score.countHits (fun exp => JS.includes (JS.toLowerCase exp) keyword) (Finder.exports file)
  + Score.countHits (fun func => Finder.nameIncludes func keyword) (Finder.functions file)
  + Score.countHits (fun iface => Finder.nameIncludes iface keyword) (Finder.interfaces file).

End Followed.

(** ** TaskHydrator: the preview of a file *)

Module Preview.

(** [extractKeyCode]: the first 50 lines, and a note when there are more *)
Definition extractKeyCode (sourceFile : Ast.SourceFile) : string :=
  let fullText := Ast.getFullText sourceFile in
  let lines := JS.split "010"%char fullText in
  let preview := JS.join Sample.lf (take 50 lines) in
  let hasMore := 50 <? length lines in
  if hasMore
  then preview +:+ Sample.lf +:+ Sample.lf +:+ "// ... "
       +:+ JS.numberToString (length lines - 50) +:+ " more lines"
  else preview.

End Preview.

(** ** ContextFinder: summaries, related files and the ranking

    The finder keeps its own ts-morph project. What it reads from a source
    file of that project is the record [Source]; a file of the project map is
    the [FileAnalysis] the scorer reads together with its [imports]. *)

Module FinderContext.

Inductive ExportType := function | class | interface | type_ | const.

Record ExportInfo := mkExport {
  exportName : string;               (* name *)
  exportType : ExportType;           (* type *)
  signature : option string;
  isDefault : bool;
}.

Record PropertyInfo := mkProperty {
  propertyName : string;             (* name *)
  propertyType : string;             (* type *)
  optional : bool;
}.

Record InterfaceDefinition := mkInterface {
  interfaceName : string;            (* name *)
  properties : list PropertyInfo;
}.

Record TypeDefinition := mkType {
  typeName : string;                 (* name *)
  definition : string;
}.

Record CodeSummary := mkSummary {
  summaryPath : string;              (* filePath *)
  exports : list ExportInfo;
  interfaces : list InterfaceDefinition;
  types : list TypeDefinition;
  dependencies : list string;
  sourceCode : option string;
}.

Inductive RelationType := import_ | typeRelation | dependency.

Record RelatedFileInfo := mkRelated {
  relatedPath : string;              (* filePath *)
  relationType : RelationType;
  relatedSummary : CodeSummary;      (* codeSummary *)
}.

(** *** What ts-morph gives for a source file *)

Record FunctionDeclaration := mkFunction {
  functionName : option string;      (* getName() *)
  functionExported : bool;           (* isExported() *)
  signatureText : string;            (* getSignature().getDeclaration().getText() *)
  functionDefault : bool;            (* isDefaultExport() *)
}.

Record ClassDeclaration := mkClass {
  className : option string;
  classExported : bool;
  classDefault : bool;
}.

Record PropertySignature := mkPropertySignature {
  getName : string;
  typeText : string;                 (* getType().getText() *)
  hasQuestionToken : bool;
  (** [getTypeNode()]: absent, or the files that hold the declarations of
      the symbol of the node's type, as far as the checker lists them before
      any error (none when the type has no symbol) *)
  getTypeNode : option (list string);
}.

Record InterfaceDeclaration := mkInterfaceDeclaration {
  declaredName : string;
  interfaceExported : bool;
  getProperties : list PropertySignature;
}.

Record TypeAliasDeclaration := mkTypeAlias {
  aliasName : string;
  aliasExported : bool;
  aliasText : string;                (* getType().getText() *)
}.

Record VariableStatement := mkVariableStatement {
  statementExported : bool;
  statementDefault : bool;
  getDeclarations : list string;     (* the name of each declaration *)
}.

Record Source := mkSource {
  getFullText : string;
  getFunctions : list FunctionDeclaration;
  getClasses : list ClassDeclaration;
  getInterfaces : list InterfaceDeclaration;
  getTypeAliases : list TypeAliasDeclaration;
  getVariableStatements : list VariableStatement;
  getImportDeclarations : list string;   (* the module specifier of each *)
}.

(** the fields of [ImportInfo] that are read *)
Record ImportInfo := mkImportInfo {
  isLocal : bool;
  resolvedPath : option string;
}.

Record ProjectFile := mkProjectFile {
  analysis : Finder.FileAnalysis;
  imports : list ImportInfo;
}.

Record ContextMatch := mkMatch {
  file : ProjectFile;
  matchScore : nat;
  matchedKeywords : list string;
  codeSummary : CodeSummary;
  relatedFiles : list RelatedFileInfo;
}.

(** the finder: its root, its ts-morph project and its project map *)
Record ContextFinder := mkFinder {
  root : string;
  project : gmap string Source;
  projectMap : option (list ProjectFile);
}.

(** a name inside a template literal: [undefined] is written out *)
Definition templated (name : option string) : string := default "undefined" name.

Definition extractExports (sourceFile : Source) : list ExportInfo :=
  flat_map (fun func =>
              if functionExported func
              then [mkExport (Diff.orElse (functionName func) "anonymous") function
                             (Some (signatureText func)) (functionDefault func)]
              else [])
           (getFunctions sourceFile)
  ++ flat_map (fun cls =>
                 if classExported cls
                 then [mkExport (Diff.orElse (className cls) "anonymous") class
                                (Some ("class " +:+ templated (className cls) +:+ " { ... }"))
                                (classDefault cls)]
                 else [])
              (getClasses sourceFile)
  ++ flat_map (fun iface =>
                 if interfaceExported iface
                 then [mkExport (declaredName iface) interface None false]
                 else [])
              (getInterfaces sourceFile)
  ++ flat_map (fun typeAlias =>
                 if aliasExported typeAlias
                 then [mkExport (aliasName typeAlias) type_ None false]
                 else [])
              (getTypeAliases sourceFile)
  ++ flat_map (fun stmt =>
                 if statementExported stmt
                 then map (fun decl => mkExport decl const None (statementDefault stmt))
                          (getDeclarations stmt)
                 else [])
              (getVariableStatements sourceFile).

Definition extractInterfaces (sourceFile : Source) : list InterfaceDefinition :=
  map (fun iface =>
         mkInterface (declaredName iface)
           (map (fun prop => mkProperty (getName prop) (typeText prop) (hasQuestionToken prop))
                (getProperties iface)))
      (getInterfaces sourceFile).

Definition extractTypes (sourceFile : Source) : list TypeDefinition :=
  map (fun typeAlias => mkType (aliasName typeAlias) (aliasText typeAlias))
      (getTypeAliases sourceFile).

Definition extractDependencies (sourceFile : Source) : list string :=
  filter (fun moduleSpecifier =>
            JS.startsWith moduleSpecifier "." || JS.startsWith moduleSpecifier "@/" = true)
         (getImportDeclarations sourceFile).

Definition extractCodeSummary (finder : ContextFinder) (filePath : string)
    (includeSource : bool) : CodeSummary :=
  match project finder !! filePath with
  | None => mkSummary filePath [] [] [] [] None
  | Some sourceFile =>
      mkSummary filePath (extractExports sourceFile) (extractInterfaces sourceFile)
                (extractTypes sourceFile) (extractDependencies sourceFile)
                (if includeSource then Some (getFullText sourceFile) else None)
  end.

(** [findTypeReferences]: the declaration files under the root *)
Definition findTypeReferences (finder : ContextFinder) (declarationFiles : list string)
  : list string :=
  filter (fun filePath => JS.includes filePath (root finder) = true) declarationFiles.

(** one [if (!visited.has(p)) { visited.add(p); relatedFiles.push(...) }];
    the state is [visited] and [relatedFiles] *)
Definition relate (finder : ContextFinder) (relation : RelationType)
    (st : gset string * list RelatedFileInfo) (filePath : string)
  : gset string * list RelatedFileInfo :=
  if decide (filePath ∈ fst st) then st
  else ({[filePath]} ∪ fst st,
        snd st ++ [mkRelated filePath relation (extractCodeSummary finder filePath false)]).

(** a path that is neither undefined nor empty *)
Definition truthy (p : option string) : option string :=
  match p with
  | Some s => if String.eqb s EmptyString then None else Some s
  | None => None
  end.

Definition traceRelatedFiles (finder : ContextFinder) (file : ProjectFile)
  : list RelatedFileInfo :=
  let start : gset string * list RelatedFileInfo :=
    ({[Finder.filePath (analysis file)]}, []) in
  let afterImports :=
    fold_left (fun st imp =>
                 if isLocal imp
                 then match truthy (resolvedPath imp) with
                      | Some p => relate finder import_ st p
                      | None => st
                      end
                 else st)
              (imports file) start in
  let afterTypes :=
    match project finder !! Finder.filePath (analysis file) with
    | None => afterImports
    | Some sourceFile =>
        fold_left (fun st iface =>
                     fold_left (fun st prop =>
                                  match getTypeNode prop with
                                  | Some declarationFiles =>
                                      fold_left (relate finder typeRelation)
                                                (findTypeReferences finder declarationFiles) st
                                  | None => st
                                  end)
                               (getProperties iface) st)
                  (getInterfaces sourceFile) afterImports
    end in
  snd afterTypes.

(** [array.sort((a, b) => key(b) - key(a))]. The sort of an array is stable:
    the result is in descending order of the key and keeps the order of
    elements with equal keys, which determines it. It is written here as an
    insertion of each element behind those that are not smaller. *)
Fixpoint insertDescending {A} (key : A -> nat) (x : A) (sorted : list A) : list A :=
  match sorted with
  | [] => [x]
  | y :: rest =>
      if key y <? key x then x :: sorted else y :: insertDescending key x rest
  end.

Definition sortDescending {A} (key : A -> nat) (l : list A) : list A :=
  fold_left (fun sorted x => insertDescending key x sorted) l [].

Section WithPath.
Context `{NodePath}.

(** the body of the loop over the files of the project map *)
Definition matchFile (finder : ContextFinder) (keywords : list string)
    (matches : list ContextMatch) (file : ProjectFile) : list ContextMatch :=
  let matchResult := Finder.calculateMatchScore (analysis file) keywords in
  if 0 <? fst matchResult then
    let includeSource := 10 <=? fst matchResult in
    let codeSummary :=
      extractCodeSummary finder (Finder.filePath (analysis file)) includeSource in
    let relatedFiles := traceRelatedFiles finder file in
    matches ++ [mkMatch file (fst matchResult) (snd matchResult) codeSummary relatedFiles]
  else matches.

Definition findMatchingFiles (finder : ContextFinder) (keywords : list string)
  : result (list ContextMatch) :=
  match projectMap finder with
  | None => Throw "项目地图未设置，请先调用 setProjectMap"
  | Some files =>
      Ok (sortDescending matchScore (fold_left (matchFile finder keywords) files []))
  end.

End WithPath.

End FinderContext.

Module Ranked.

(** [a] may come before [b] in a list in descending order of [key] *)
Definition descending {A} (key : A -> nat) (a b : A) : Prop := key b <= key a.

(** the match that [findMatchingFiles] makes for a file *)
Definition matchOf `{NodePath} (finder : FinderContext.ContextFinder) (keywords : list string)
    (file : FinderContext.ProjectFile) : FinderContext.ContextMatch :=
  let matchResult := Finder.calculateMatchScore (FinderContext.analysis file) keywords in
  FinderContext.mkMatch file (fst matchResult) (snd matchResult)
    (FinderContext.extractCodeSummary finder (Finder.filePath (FinderContext.analysis file))
       (10 <=? fst matchResult))
    (FinderContext.traceRelatedFiles finder file).

(** the score of a file of the project map *)
Definition scoreOf `{NodePath} (keywords : list string) (file : FinderContext.ProjectFile) : nat :=
  fst (Finder.calculateMatchScore (FinderContext.analysis file) keywords).

(** the paths of the local imports of a file that are resolved *)
Definition localImports (file : FinderContext.ProjectFile) : list string :=
  omap (fun imp => if FinderContext.isLocal imp then FinderContext.truthy (FinderContext.resolvedPath imp)
                   else None)
       (FinderContext.imports file).

End Ranked.

Module Related.

(** the files [findTypeReferences] answers for the type nodes of the
    properties of the interfaces of the file, in the order of the loops *)
Definition typeReferences (finder : FinderContext.ContextFinder)
    (file : FinderContext.ProjectFile) : list string :=
  match FinderContext.project finder !! Finder.filePath (FinderContext.analysis file) with
  | None => []
  | Some sourceFile =>
      flat_map (fun iface =>
                  flat_map (fun prop =>
                              match FinderContext.getTypeNode prop with
                              | Some declarationFiles =>
                                  FinderContext.findTypeReferences finder declarationFiles
                              | None => []
                              end)
                           (FinderContext.getProperties iface))
               (FinderContext.getInterfaces sourceFile)
  end.

(** what holds of [visited] and [relatedFiles] while related files are
    traced for the file at [own]: [allowed] says which paths may be entered
    under which relation *)
Definition tracing (finder : FinderContext.ContextFinder) (own : string)
    (allowed : FinderContext.RelationType -> string -> Prop)
    (st : gset string * list FinderContext.RelatedFileInfo) : Prop :=
  NoDup (map FinderContext.relatedPath (snd st))
  /\ (forall p, p ∈ fst st <-> p = own \/ p ∈ map FinderContext.relatedPath (snd st))
  /\ (own ∉ map FinderContext.relatedPath (snd st))
  /\ Forall (fun r =>
               FinderContext.relatedSummary r
               = FinderContext.extractCodeSummary finder (FinderContext.relatedPath r) false
               /\ allowed (FinderContext.relationType r) (FinderContext.relatedPath r))
            (snd st).

(** an import entry is a resolved local import of the file; a type entry is
    a file answered for a property's type, under the root, that is not
    imported *)
Definition origin (finder : FinderContext.ContextFinder) (file : FinderContext.ProjectFile)
    (relation : FinderContext.RelationType) (p : string) : Prop :=
  match relation with
  | FinderContext.import_ => p ∈ Ranked.localImports file
  | FinderContext.typeRelation =>
      p ∈ typeReferences finder file
      /\ JS.includes p (FinderContext.root finder) = true
      /\ p ∉ Ranked.localImports file
  | FinderContext.dependency => False
  end.

End Related.

Module RelatedCases.

(** [list.ts] imports [item.ts]; its interface has properties whose types
    are declared in [item.ts], in [user.ts], in [list.ts] itself and in the
    library of the compiler *)
Definition listFile : FinderContext.ProjectFile :=
  FinderContext.mkProjectFile
    (Finder.mkFile "/p/src/list.ts" "src/list.ts" [] [] [])
    [FinderContext.mkImportInfo true (Some "/p/src/item.ts")].

Definition listSource : FinderContext.Source :=
  FinderContext.mkSource "import { Item } from './item';" [] []
    [FinderContext.mkInterfaceDeclaration "List" true
       [FinderContext.mkPropertySignature "first" "Item" false (Some ["/p/src/item.ts"]);
        FinderContext.mkPropertySignature "owner" "User" false (Some ["/p/src/user.ts"]);
        FinderContext.mkPropertySignature "rest" "List" true (Some ["/p/src/list.ts"]);
        FinderContext.mkPropertySignature "ready" "Promise<void>" false
          (Some ["/usr/lib/node_modules/typescript/lib/lib.es5.d.ts"]);
        FinderContext.mkPropertySignature "size" "number" false None]]
    [] [] ["./item"].

Definition finder : FinderContext.ContextFinder :=
  FinderContext.mkFinder "/p" {[ "/p/src/list.ts" := listSource ]} (Some [listFile]).

End RelatedCases.

Module FinderCases.

Definition cardFile : FinderContext.ProjectFile :=
  FinderContext.mkProjectFile
    (Finder.mkFile "/p/src/user/Card.tsx" "src/user/Card.tsx" [] [] [])
    [FinderContext.mkImportInfo true (Some "/p/src/userProfile.ts");
     FinderContext.mkImportInfo false None;
     FinderContext.mkImportInfo true (Some "/p/src/userProfile.ts")].

Definition mathFile : FinderContext.ProjectFile :=
  FinderContext.mkProjectFile (Finder.mkFile "/p/src/lib/math.ts" "src/lib/math.ts" [] [] []) [].

Definition profileFile : FinderContext.ProjectFile :=
  FinderContext.mkProjectFile Sample.userProfile [].

Definition profileSource : FinderContext.Source :=
  FinderContext.mkSource "export interface User { id: number }" [] []
    [FinderContext.mkInterfaceDeclaration "User" true
       [FinderContext.mkPropertySignature "id" "number" false (Some [])]]
    [] [] [].

Definition cardSource : FinderContext.Source :=
  FinderContext.mkSource "import { User } from '../userProfile';" [] [] [] [] [] ["../userProfile"].

(** a project map in which the second-best file comes first *)
Definition finder : FinderContext.ContextFinder :=
  FinderContext.mkFinder "/p"
    {[ "/p/src/user/Card.tsx" := cardSource; "/p/src/userProfile.ts" := profileSource ]}
    (Some [cardFile; mathFile; profileFile]).

End FinderCases.

#[global] Instance FileType_eq_dec : EqDecision DependencyInfo.FileType.
Proof. solve_decision. Defined.

(** ** The commands: what they do with the analyses *)

Module Command.

(** the object [grouped] of [groupByType]: its keys in the order they were
    written, each with its array *)
Definition Groups : Type := list (DependencyInfo.FileType * list DependencyInfo.t).

Definition emptyGroups : Groups :=
  [(DependencyInfo.component, []); (DependencyInfo.hook, []); (DependencyInfo.util, []);
   (DependencyInfo.service, []); (DependencyInfo.type_, []); (DependencyInfo.other, [])].

(** [grouped[dep.type].push(dep)] *)
Definition push (grouped : Groups) (dep : DependencyInfo.t) : Groups :=
  map (fun group : DependencyInfo.FileType * list DependencyInfo.t =>
         if decide (fst group = DependencyInfo.type dep)
         then (fst group, snd group ++ [dep])
         else group)
      grouped.

Definition groupByType (dependencies : list DependencyInfo.t) : Groups :=
  fold_left push dependencies emptyGroups.

Section WithPath.
Context `{NodePath}.

(** The body of the loop of the diff command over the file changes; the
    state is [impactMap]. An analysis that throws is ignored. *)
Definition traceChange (fuel : nat) (w : World)
    (impactMap : gmap string ImpactAnalysis.t) (fileChange : Diff.FileChange)
  : option (gmap string ImpactAnalysis.t) :=
  if decide (Diff.fileStatus fileChange = Diff.Deleted) then Some impactMap
  else
    match Tracer.analyzeImpact fuel w (Diff.filePath fileChange) with
    | None => None
    | Some (Ok impact) => Some (<[Diff.relativePath fileChange := impact]> impactMap)
    | Some (Throw _) => Some impactMap
    end.

Fixpoint traceChanges (fuel : nat) (w : World) (fileChanges : list Diff.FileChange)
    (impactMap : gmap string ImpactAnalysis.t) : option (gmap string ImpactAnalysis.t) :=
  match fileChanges with
  | [] => Some impactMap
  | fileChange :: rest =>
      match traceChange fuel w impactMap fileChange with
      | Some impactMap' => traceChanges fuel w rest impactMap'
      | None => None
      end
  end.

End WithPath.

End Command.

(** ** Text beyond ASCII

    Where the code tests characters outside ASCII (white space, Chinese
    characters), the text is read as UTF-8: [chars] cuts it into characters,
    each the string of its bytes. A character outside the basic plane is two
    code units in JavaScript; none of the tests below accepts either of them,
    nor the four-byte character that stands for them here. *)

Module Utf8.

Definition byte (a : ascii) : nat := nat_of_ascii a.

Definition str1 (a : ascii) : string := String a EmptyString.
Definition str2 (a b : ascii) : string := String a (str1 b).
Definition str3 (a b c : ascii) : string := String a (str2 b c).
Definition str4 (a b c d : ascii) : string := String a (str3 b c d).

Fixpoint chars (s : string) : list string :=
  match s with
  | EmptyString => []
  | String a s1 =>
      if (byte a <? 192) || (248 <=? byte a) then str1 a :: chars s1
      else
        match s1 with
        | EmptyString => [str1 a]
        | String b s2 =>
            if byte a <? 224 then str2 a b :: chars s2
            else
              match s2 with
              | EmptyString => [str2 a b]
              | String c s3 =>
                  if byte a <? 240 then str3 a b c :: chars s3
                  else
                    match s3 with
                    | EmptyString => [str3 a b c]
                    | String d s4 => str4 a b c d :: chars s4
                    end
              end
        end
  end.

Definition bytes (c : string) : list nat := map byte (list_ascii_of_string c).

(** [\s], which is also what [trim] removes: the white space and line
    terminators of ECMAScript *)
Definition isWhiteSpace (c : string) : bool :=
  match bytes c with
  | [b] => ((9 <=? b) && (b <=? 13)) || (b =? 32)
  | [194; 160] => true                                   (* U+00A0 *)
  | [225; 154; 128] => true                              (* U+1680 *)
  | [226; 128; b] =>
      ((128 <=? b) && (b <=? 138))                       (* U+2000 to U+200A *)
      || (b =? 168) || (b =? 169) || (b =? 175)          (* U+2028, U+2029, U+202F *)
  | [226; 129; 159] => true                              (* U+205F *)
  | [227; 128; 128] => true                              (* U+3000 *)
  | [239; 187; 191] => true                              (* U+FEFF *)
  | _ => false
  end.

(** [[一-龥]]: in UTF-8 the three-byte characters from E4 B8 80 to
    E9 BE A5 *)
Definition isChinese (c : string) : bool :=
  match bytes c with
  | [b0; b1; b2] =>
      ((228 <? b0) || ((b0 =? 228) && ((184 <? b1) || ((b1 =? 184) && (128 <=? b2)))))
      && ((b0 <? 233) || ((b0 =? 233) && ((b1 <? 190) || ((b1 =? 190) && (b2 <=? 165)))))
      && (128 <=? b1) && (b1 <=? 191) && (128 <=? b2) && (b2 <=? 191)
  | _ => false
  end.

Definition unchars (cs : list string) : string := fold_right String.append EmptyString cs.

End Utf8.

(** ** ContextFinder: keywords of a request *)

Module Keywords.

Definition stopWords : list string :=
  ["的"; "是"; "在"; "我"; "要"; "请"; "帮"; "和"; "或"; "与"; "为"; "了"; "到"; "对";
   "进行"; "实现"; "添加"; "修改"; "删除"; "更新"; "给"; "把"].

(** the maximal runs of characters that satisfy [keep]; [run] is the run
    being read, in reverse *)
Fixpoint runs (keep : string -> bool) (run : list string) (cs : list string)
  : list (list string) :=
  let close := match run with [] => [] | _ => [rev run] end in
  match cs with
  | [] => close
  | c :: cs' => if keep c then runs keep (c :: run) cs' else close ++ runs keep [] cs'
  end.

(** [userInput.trim().split(/\s+/)]: the maximal runs of characters that
    are not white space; when there is none, the one empty token that
    splitting the empty string gives *)
Definition tokens (userInput : string) : list string :=
  match runs (fun c => negb (Utf8.isWhiteSpace c)) [] (Utf8.chars userInput) with
  | [] => [EmptyString]
  | fields => map Utf8.unchars fields
  end.

(** [token.match(/[一-龥]{2,}/g) || []] *)
Definition chineseWords (token : string) : list string :=
  map Utf8.unchars
      (filter (fun run => 2 <= length run) (runs Utf8.isChinese [] (Utf8.chars token))).

Definition isLetter (a : ascii) : bool :=
  let n := nat_of_ascii a in
  ((65 <=? n) && (n <=? 90)) || ((97 <=? n) && (n <=? 122)).

Definition isAlphaNumeric (a : ascii) : bool := isLetter a || JS.isDigit a.

(** [[\w-]] *)
Definition isWordOrDash (a : ascii) : bool :=
  isAlphaNumeric a || Ascii.eqb a "_" || Ascii.eqb a "-".

(** [token.match(/[a-zA-Z][a-zA-Z0-9]*/g) || []]: a word starts at a letter
    and runs on over letters and digits; [word] is the word being read *)
Fixpoint englishWordsFrom (word : option string) (s : string) : list string :=
  let close := match word with Some w => [w] | None => [] end in
  match s with
  | EmptyString => close
  | String a s' =>
      match word with
      | Some w =>
          if isAlphaNumeric a then englishWordsFrom (Some (w +:+ String a EmptyString)) s'
          else close ++ englishWordsFrom None s'
      | None =>
          if isLetter a then englishWordsFrom (Some (String a EmptyString)) s'
          else englishWordsFrom None s'
      end
  end.

Definition englishWords (token : string) : list string := englishWordsFrom None token.

(** [word.split(/(?=[A-Z])/)]: the word is cut before every capital letter
    but the first character; [part] is the part being read *)
Fixpoint camelSplitFrom (part : string) (s : string) : list string :=
  match s with
  | EmptyString => [part]
  | String a s' =>
      if JS.isUpper a then part :: camelSplitFrom (String a EmptyString) s'
      else camelSplitFrom (part +:+ String a EmptyString) s'
  end.

Definition camelSplit (word : string) : list string :=
  match word with
  | EmptyString => [EmptyString]
  | String a s => camelSplitFrom (String a EmptyString) s
  end.

(** [token.match(/[\w-]+\.(ts|tsx|js|jsx)/)]: somewhere a character of
    [[\w-]] is followed by [.ts] or [.js] *)
Fixpoint isFileToken (token : string) : bool :=
  match token with
  | EmptyString => false
  | String a rest =>
      (isWordOrDash a && (JS.startsWith rest ".ts" || JS.startsWith rest ".js"))
      || isFileToken rest
  end.

(** [keywords.add(k)] on a set that keeps the order of insertion *)
Definition add (keywords : list string) (k : string) : list string :=
  if decide (k ∈ keywords) then keywords else keywords ++ [k].

(** the callback of [englishWords.forEach] *)
Definition addEnglish (keywords : list string) (word : string) : list string :=
  if 2 <=? String.length word then
    let keywords := add keywords (JS.toLowerCase word) in
    let camelParts := filter (fun p => 1 < String.length p) (camelSplit word) in
    fold_left (fun keywords part => add keywords (JS.toLowerCase part)) camelParts keywords
  else keywords.

(** the callback of [tokens.forEach] *)
Definition addToken (keywords : list string) (token : string) : list string :=
  if String.length token =? 0 then keywords
  else
    let keywords :=
      fold_left (fun keywords word =>
                   if decide (word ∈ stopWords) then keywords
                   else add keywords (JS.toLowerCase word))
                (chineseWords token) keywords in
    let keywords := fold_left addEnglish (englishWords token) keywords in
    if isFileToken token then add keywords token else keywords.

Definition extractKeywords (userInput : string) : list string :=
  fold_left addToken (tokens userInput) [].

End Keywords.

Module Extracted.

(** where a keyword of a token comes from *)
Definition fromToken (token k : string) : Prop :=
  (exists word, word ∈ Keywords.chineseWords token /\ (word ∉ Keywords.stopWords)
                /\ k = JS.toLowerCase word)
  \/ (exists word, word ∈ Keywords.englishWords token /\ 2 <= String.length word
                   /\ (k = JS.toLowerCase word
                       \/ exists part, part ∈ Keywords.camelSplit word
                                       /\ 1 < String.length part
                                       /\ k = JS.toLowerCase part))
  \/ (Keywords.isFileToken token = true /\ k = token).

End Extracted.

(** ** The scorer over any lower-casing

    [String.prototype.toLowerCase] maps every cased letter of Unicode, not
    only A to Z. Like the operations of [path], it belongs to the platform:
    the scorer is given here with that function as a parameter, so that what
    is proved of it holds for the function the platform has. [Finder] above
    is this scorer with [JS.toLowerCase]. *)

Module Cased.

Section WithLowering.
Context `{NodePath}.
Variable toLowerCase : string -> string.

(** [name?.toLowerCase().includes(keyword)] *)
Definition nameIncludes (name : option string) (keyword : string) : bool :=
  match name with
  | Some n => JS.includes (toLowerCase n) keyword
  | None => false
  end.

(** the body of the loop over the keywords *)
Definition keywordStep (file : Finder.FileAnalysis) (st : nat * list string)
    (keyword : string) : nat * list string :=
  let filePathLower := toLowerCase (Finder.relativePath file) in
  let fileNameLower := toLowerCase (path_basename (Finder.filePath file)) in
  let st1 :=
    if JS.includes fileNameLower keyword then Finder.award true 10 keyword st
    else if JS.includes filePathLower keyword then Finder.award true 5 keyword st
    else st in
  let st2 :=
    fold_left (fun acc exp =>
                 Finder.award (JS.includes (toLowerCase exp) keyword) 8 keyword acc)
              (Finder.exports file) st1 in
  let st3 :=
    fold_left (fun acc func => Finder.award (nameIncludes func keyword) 6 keyword acc)
              (Finder.functions file) st2 in
  fold_left (fun acc iface => Finder.award (nameIncludes iface keyword) 6 keyword acc)
            (Finder.interfaces file) st3.

Definition calculateMatchScore (file : Finder.FileAnalysis) (keywords : list string)
  : nat * list string :=
  let '(score, matchedKeywords) := fold_left (keywordStep file) keywords (0, []) in
  (score, Finder.dedupe matchedKeywords).

(** the points one keyword earns a file, tier by tier *)
Definition namePoints (file : Finder.FileAnalysis) (keyword : string) : nat :=
  if JS.includes (toLowerCase (path_basename (Finder.filePath file))) keyword then 10
  else if JS.includes (toLowerCase (Finder.relativePath file)) keyword then 5
  else 0.

Definition exportPoints (file : Finder.FileAnalysis) (keyword : string) : nat :=
  8 * Score.countHits (fun exp => JS.includes (toLowerCase exp) keyword) (Finder.exports file).

Definition functionPoints (file : Finder.FileAnalysis) (keyword : string) : nat :=
  6 * Score.countHits (fun func => nameIncludes func keyword) (Finder.functions file).

Definition interfacePoints (file : Finder.FileAnalysis) (keyword : string) : nat :=
  6 * Score.countHits (fun iface => nameIncludes iface keyword) (Finder.interfaces file).

Definition keywordPoints (file : Finder.FileAnalysis) (keyword : string) : nat :=
  namePoints file keyword + exportPoints file keyword
  + functionPoints file keyword + interfacePoints file keyword.

(** the keyword is in lower case: lower-casing leaves it as it is *)
Definition isLowerCase (keyword : string) : Prop := toLowerCase keyword = keyword.

(** [keyword] occurs in [name] when letter case is ignored *)
Definition occursIgnoringCase (keyword name : string) : bool :=
  JS.includes (toLowerCase name) (toLowerCase keyword).

End WithLowering.

(** A lower-casing that also knows the capital letters of Latin-1, U+00C0 to
    U+00DE without the multiplication sign: in UTF-8 the byte C3 followed by
    80 to 9E, lowered by adding 20 (hexadecimal) to the second byte. It
    agrees with [toLowerCase] on texts of ASCII and these letters. *)
Fixpoint lowerLatin1 (s : string) : string :=
  match s with
  | EmptyString => EmptyString
  | String a s' =>
      match s' with
      | String b s'' =>
          if (nat_of_ascii a =? 195) && (128 <=? nat_of_ascii b) && (nat_of_ascii b <=? 158)
             && negb (nat_of_ascii b =? 151)
          then String a (String (ascii_of_nat (nat_of_ascii b + 32)) (lowerLatin1 s''))
          else String (JS.lowerChar a) (lowerLatin1 s')
      | EmptyString => String (JS.lowerChar a) EmptyString
      end
  end.

(** a file whose name has capital letters outside ASCII *)
Definition ecole : Finder.FileAnalysis :=
  Finder.mkFile "/p/src/ÉCOLE.ts" "src/ÉCOLE.ts" [] [] [].

End Cased.

(** * Facts about the string primitives *)

Section StringFacts.

Lemma app_empty_l (s : string) : EmptyString +:+ s = s.
Proof. reflexivity. Qed.

Lemma app_cons (a : ascii) (s t : string) : String a s +:+ t = String a (s +:+ t).
Proof. reflexivity. Qed.

Lemma app_empty_r (s : string) : s +:+ EmptyString = s.
Proof. induction s as [|a s IH]; [done|]. by rewrite app_cons, IH. Qed.

Lemma app_assoc_str (s t u : string) : (s +:+ t) +:+ u = s +:+ (t +:+ u).
Proof. induction s as [|a s IH]; [done|]. by rewrite !app_cons, IH. Qed.

Lemma startsWith_app (p s : string) : JS.startsWith (p +:+ s) p = true.
Proof.
  induction p as [|a p IH]; [by destruct s|].
  rewrite app_cons. simpl. by rewrite Ascii.eqb_refl.
Qed.

Lemma startsWith_spec (s p : string) :
  JS.startsWith s p = true <-> exists r, s = p +:+ r.
Proof.
  revert s. induction p as [|b p IH]; intros s.
  - split; [intros _; by exists s | by destruct s].
  - destruct s as [|a s]; simpl.
    + split; [done | intros [r Hr]; by rewrite app_cons in Hr].
    + destruct (Ascii.eqb_spec a b) as [->|Hne].
      * rewrite IH. split; intros [r Hr]; exists r.
        -- by rewrite app_cons, Hr.
        -- rewrite app_cons in Hr. by injection Hr.
      * split; [done | intros [r Hr]]. rewrite app_cons in Hr. by injection Hr.
Qed.

Lemma substringFrom_app (p s : string) : JS.substringFrom (String.length p) (p +:+ s) = s.
Proof. induction p as [|a p IH]; [by destruct s|]. by rewrite app_cons. Qed.

Lemma includes_nil (needle : string) :
  JS.includes EmptyString needle = JS.startsWith EmptyString needle.
Proof. unfold JS.includes. apply orb_false_r. Qed.

Lemma includes_cons (a : ascii) (s needle : string) :
  JS.includes (String a s) needle
  = JS.startsWith (String a s) needle || JS.includes s needle.
Proof. reflexivity. Qed.

Lemma includes_spec (s needle : string) :
  JS.includes s needle = true <-> exists pre post, s = pre +:+ needle +:+ post.
Proof.
  induction s as [|a s IH].
  - rewrite includes_nil, startsWith_spec. split.
    + intros [r Hr]. by exists EmptyString, r.
    + intros [[|b pre] [post Hs]]; [by exists post|]. by rewrite app_cons in Hs.
  - rewrite includes_cons, orb_true_iff, IH, startsWith_spec. split.
    + intros [[r Hr]|(pre & post & Hs)].
      * by exists EmptyString, r.
      * exists (String a pre), post. by rewrite app_cons, Hs.
    + intros ([|b pre] & post & Hs).
      * left. by exists post.
      * right. rewrite app_cons in Hs. injection Hs as _ Hs. by exists pre, post.
Qed.


Lemma lacks_cons (a c : ascii) (s : string) :
  lacks a (String c s) <-> c <> a /\ lacks a s.
Proof. unfold lacks. simpl. by rewrite Forall_cons. Qed.

Lemma lacks_app (a : ascii) (s t : string) :
  lacks a (s +:+ t) <-> lacks a s /\ lacks a t.
Proof.
  induction s as [|c s IH].
  - split; [intros ?; split; [constructor | done] | by intros [_ ?]].
  - rewrite app_cons, !lacks_cons, IH. tauto.
Qed.

Lemma split_lacks (sep : ascii) (s : string) : lacks sep s -> JS.split sep s = [s].
Proof.
  induction s as [|c s IH]; [done|]. rewrite lacks_cons. intros [Hc Hs]. simpl.
  destruct (Ascii.eqb_spec c sep); [done|]. by rewrite IH.
Qed.

Lemma split_app (sep : ascii) (s t : string) :
  lacks sep s -> JS.split sep (s +:+ String sep t) = s :: JS.split sep t.
Proof.
  induction s as [|c s IH].
  - intros _. rewrite app_empty_l. simpl. by rewrite Ascii.eqb_refl.
  - rewrite lacks_cons. intros [Hc Hs]. rewrite app_cons. simpl.
    destruct (Ascii.eqb_spec c sep); [done|]. by rewrite IH.
Qed.

(** a separator-free prefix before the last separator determines the split:
    two strings that end in a field without [sep] are equal when the strings
    are *)
Lemma app_sep_inj (sep : ascii) (s1 s2 d1 d2 : string) :
  lacks sep d1 -> lacks sep d2 ->
  s1 +:+ String sep d1 = s2 +:+ String sep d2 -> s1 = s2 /\ d1 = d2.
Proof.
  intros Hd1 Hd2. revert s2.
  induction s1 as [|a s1 IH]; intros [|b s2]; rewrite ?app_empty_l, ?app_cons.
  - by intros [= ->].
  - intros [= <- ->]. apply lacks_app in Hd1 as [_ Hd1].
    apply lacks_cons in Hd1 as [? _]. done.
  - intros [= -> <-]. apply lacks_app in Hd2 as [_ Hd2].
    apply lacks_cons in Hd2 as [? _]. done.
  - intros [= -> Heq]. destruct (IH _ Heq) as [-> ->]. done.
Qed.

(** *** Decimal digits *)


Lemma pretty_N_char_digit (x : N) : JS.isDigit (pretty_N_char x) = true.
Proof. unfold pretty_N_char. by repeat case_match. Qed.

Lemma pretty_N_char_value (x : N) :
  (x < 10)%N -> JS.digitValue (pretty_N_char x) = N.to_nat x.
Proof.
  intros Hx.
  assert (x = 0 \/ x = 1 \/ x = 2 \/ x = 3 \/ x = 4 \/ x = 5 \/ x = 6
          \/ x = 7 \/ x = 8 \/ x = 9)%N as Hc by lia.
  repeat (destruct Hc as [->|Hc]; [done|]). by subst.
Qed.

Lemma pretty_N_go_digits (x : N) (s : string) :
  allDigits s -> allDigits (pretty_N_go x s).
Proof.
  revert s. induction (N.lt_wf_0 x) as [x _ IH]; intros s Hs.
  destruct (decide (x = 0)%N) as [->|Hx]; [by rewrite pretty_N_go_0|].
  rewrite pretty_N_go_step by lia. apply IH.
  - apply N.div_lt; lia.
  - constructor; [apply pretty_N_char_digit | done].
Qed.

Lemma pretty_N_go_nonempty (x : N) (s : string) :
  s <> EmptyString -> pretty_N_go x s <> EmptyString.
Proof.
  revert s. induction (N.lt_wf_0 x) as [x _ IH]; intros s Hs.
  destruct (decide (x = 0)%N) as [->|Hx]; [by rewrite pretty_N_go_0|].
  rewrite pretty_N_go_step by lia. apply IH; [apply N.div_lt; lia | done].
Qed.

Lemma pretty_nat_digits (n : nat) : allDigits (pretty n).
Proof.
  unfold pretty, pretty_nat, pretty, pretty_N. case_decide.
  - by repeat constructor.
  - by apply pretty_N_go_digits, Forall_nil.
Qed.

Lemma pretty_nat_nonempty (n : nat) : pretty n <> EmptyString.
Proof.
  unfold pretty, pretty_nat, pretty, pretty_N. case_decide; [done|].
  rewrite pretty_N_go_step by lia. by apply pretty_N_go_nonempty.
Qed.

Lemma allDigits_lacks (a : ascii) (s : string) :
  JS.isDigit a = false -> allDigits s -> lacks a s.
Proof.
  intros Ha. unfold allDigits, lacks. intros Hs. eapply Forall_impl; [exact Hs|].
  intros c Hc ->. congruence.
Qed.


Lemma readDigits_pretty_N_go (x : N) (s : string) :
  readDigits 0 (pretty_N_go x s) = readDigits (N.to_nat x) s.
Proof.
  revert s. induction (N.lt_wf_0 x) as [x _ IH]; intros s.
  destruct (decide (x = 0)%N) as [->|Hx]; [by rewrite pretty_N_go_0|].
  rewrite pretty_N_go_step by lia.
  rewrite IH by (apply N.div_lt; lia).
  unfold readDigits. simpl. f_equal.
  rewrite pretty_N_char_value by (apply N.mod_lt; lia).
  assert (x = 10 * (x `div` 10) + x `mod` 10)%N as Hdm by (apply N.div_mod; lia).
  lia.
Qed.

Lemma parseInt_pretty (n : nat) : JS.parseInt (pretty n) = n.
Proof.
  unfold JS.parseInt. change (readDigits 0 (pretty n) = n).
  unfold pretty, pretty_nat, pretty, pretty_N. case_decide as Hn.
  - assert (n = 0) as -> by lia. reflexivity.
  - rewrite readDigits_pretty_N_go. unfold readDigits. simpl. lia.
Qed.

End StringFacts.

(** * The diff parser *)

Section DiffParserFacts.

Lemma expect_app (lit s : string) : Diff.expect lit (lit +:+ s) = Some s.
Proof. unfold Diff.expect. by rewrite startsWith_app, substringFrom_app. Qed.

Lemma spanDigits_app (d r : string) :
  allDigits d -> noLeadingDigit r -> Diff.spanDigits (d +:+ r) = (d, r).
Proof.
  intros Hd Hr. induction d as [|c d IH].
  - rewrite app_empty_l. destruct r as [|c r]; [done|]. simpl in *. by rewrite Hr.
  - apply Forall_cons in Hd as [Hc Hd]. rewrite app_cons. simpl.
    rewrite Hc, IH by done. done.
Qed.

Lemma digits1_pretty (n : nat) (r : string) :
  noLeadingDigit r -> Diff.digits1 (pretty n +:+ r) = Some (pretty n, r).
Proof.
  intros Hr. unfold Diff.digits1.
  rewrite spanDigits_app by auto using pretty_nat_digits.
  pose proof (pretty_nat_nonempty n). by destruct (pretty n).
Qed.

Lemma optCount_count (c : option nat) (r : string) :
  Diff.optCount (Unified.count c +:+ String " " r) = String " " r.
Proof.
  destruct c as [k|]; [|done].
  unfold Unified.count. rewrite app_assoc_str, app_cons, app_empty_l.
  unfold Diff.optCount. by rewrite digits1_pretty.
Qed.

Lemma hunkMatch_header (old : nat) (oc : option nat) (new : nat) (nc : option nat)
    (section : string) :
  Diff.hunkMatch (Unified.hunkHeader old oc new nc section) = Some (pretty new).
Proof.
  unfold Diff.hunkMatch, Unified.hunkHeader.
  rewrite expect_app. simpl.
  assert (forall c r, noLeadingDigit (Unified.count c +:+ String " " r)) as Hnd.
  { intros [k|] r; done. }
  change (" +" +:+ ?r) with (String " " (String "+" r)).
  rewrite digits1_pretty by apply Hnd. simpl.
  rewrite optCount_count.
  change (String " " (String "+" ?r)) with (" +" +:+ r).
  rewrite expect_app. simpl.
  change (" @@" +:+ ?r) with (String " " ("@@" +:+ r)).
  rewrite digits1_pretty by apply Hnd. simpl.
  rewrite optCount_count.
  change (String " " ("@@" +:+ ?r)) with (" @@" +:+ r).
  by rewrite expect_app.
Qed.

Lemma hunkMatch_needs_at (line : string) :
  JS.startsWith line "@" = false -> Diff.hunkMatch line = None.
Proof.
  intros Hline. unfold Diff.hunkMatch, Diff.expect.
  destruct line as [|a line]; [reflexivity|]. simpl in Hline |- *.
  destruct (Ascii.eqb a "@"); [discriminate | reflexivity].
Qed.

Lemma startsWith_other (line : string) (a b : ascii) :
  a <> b -> JS.startsWith line (String a EmptyString) = true ->
  JS.startsWith line (String b EmptyString) = false.
Proof.
  intros Hab. destruct line as [|c line]; [done|]. simpl.
  destruct (Ascii.eqb_spec c a) as [->|]; [|done]. intros _.
  by destruct (Ascii.eqb_spec a b).
Qed.

Lemma lineStep_header (st : nat * list Diff.ChangedLine)
    (old : nat) (oc : option nat) (new : nat) (nc : option nat) (section : string) :
  Diff.lineStep st (Unified.hunkHeader old oc new nc section) = (new, snd st).
Proof.
  destruct st as [cur acc]. unfold Diff.lineStep.
  by rewrite hunkMatch_header, parseInt_pretty.
Qed.

Lemma lineStep_added (cur : nat) (acc : list Diff.ChangedLine) (line : string) :
  JS.startsWith line "+" = true -> JS.startsWith line "+++" = false ->
  Diff.lineStep (cur, acc) line
  = (S cur, acc ++ [Diff.mkChangedLine cur Diff.Add (JS.substringFrom 1 line)]).
Proof.
  intros Hp Hppp. unfold Diff.lineStep.
  rewrite hunkMatch_needs_at by (by apply (startsWith_other line "+" "@")).
  by rewrite Hp, Hppp.
Qed.

Lemma lineStep_deleted (cur : nat) (acc : list Diff.ChangedLine) (line : string) :
  JS.startsWith line "-" = true -> JS.startsWith line "---" = false ->
  Diff.lineStep (cur, acc) line
  = (cur, acc ++ [Diff.mkChangedLine cur Diff.Delete (JS.substringFrom 1 line)]).
Proof.
  intros Hm Hmmm. unfold Diff.lineStep.
  rewrite hunkMatch_needs_at by (by apply (startsWith_other line "-" "@")).
  rewrite (startsWith_other line "-" "+") by done.
  by rewrite Hm, Hmmm.
Qed.

Lemma lineStep_context (cur : nat) (acc : list Diff.ChangedLine) (line : string) :
  JS.startsWith line " " = true -> Diff.lineStep (cur, acc) line = (S cur, acc).
Proof.
  intros Hs. unfold Diff.lineStep.
  rewrite hunkMatch_needs_at by (by apply (startsWith_other line " " "@")).
  rewrite (startsWith_other line " " "+"), (startsWith_other line " " "-") by done.
  by rewrite Hs.
Qed.

(** an added line with content [c]: [+] followed by [c], which is not
    mistaken for the [+++] file header *)
Lemma lineStep_plus (cur : nat) (acc : list Diff.ChangedLine) (c : string) :
  JS.startsWith c "++" = false ->
  Diff.lineStep (cur, acc) ("+" +:+ c) = (S cur, acc ++ [Diff.mkChangedLine cur Diff.Add c]).
Proof. intros Hc. by rewrite lineStep_added. Qed.

Lemma run_app (st : nat * list Diff.ChangedLine) (l1 l2 : list string) :
  Unified.run st (l1 ++ l2) = Unified.run (Unified.run st l1) l2.
Proof. apply fold_left_app. Qed.

Lemma split_join (sep : ascii) (lines : list string) :
  lines <> [] -> Forall (lacks sep) lines ->
  JS.split sep (JS.join (String sep EmptyString) lines) = lines.
Proof.
  induction lines as [|l lines IH]; [done|]. intros _ Hall.
  apply Forall_cons in Hall as [Hl Hall].
  destruct lines as [|l' lines]; [by apply split_lacks|].
  change (JS.join (String sep EmptyString) (l :: l' :: lines))
    with (l +:+ String sep EmptyString +:+ JS.join (String sep EmptyString) (l' :: lines)).
  rewrite app_cons, app_empty_l, split_app by done.
  by rewrite IH.
Qed.

Lemma lacks_plus (sep : ascii) (c : string) :
  sep <> "+"%char -> lacks sep c -> lacks sep ("+" +:+ c).
Proof. intros Hsep Hc. apply lacks_cons. split; [congruence | done]. Qed.

(** The hunk of the specification's example: after any lines [pre], the header
    [@@ -10,0 +10,3 @@] and three added lines leave the cursor at 13 and
    push lines 10, 11 and 12. *)
Lemma run_hunk_10 (pre : list string) (a b c : string) :
  JS.startsWith a "++" = false -> JS.startsWith b "++" = false ->
  JS.startsWith c "++" = false ->
  Unified.run (0, []) (pre ++ ["@@ -10,0 +10,3 @@"; "+" +:+ a; "+" +:+ b; "+" +:+ c])
  = (13, snd (Unified.run (0, []) pre)
         ++ [Diff.mkChangedLine 10 Diff.Add a; Diff.mkChangedLine 11 Diff.Add b;
             Diff.mkChangedLine 12 Diff.Add c]).
Proof.
  intros Ha Hb Hc. rewrite run_app.
  destruct (Unified.run (0, []) pre) as [cur acc].
  unfold Unified.run. cbn [fold_left].
  change "@@ -10,0 +10,3 @@" with (Unified.hunkHeader 10 (Some 0) 10 (Some 3) EmptyString).
  rewrite lineStep_header. simpl snd.
  rewrite !lineStep_plus by done.
  by rewrite <- !(assoc_L (++)).
Qed.

End DiffParserFacts.

(** C4 (as the code has it). A hunk header [@@ -10,0 +10,3 @@] followed by
    three added lines (lines that begin with [+] but not with [+++]) yields
    changed lines 10, 11 and 12 and nothing else, wherever the hunk stands in
    the diff; and in general the cursor is set by a hunk header to the start
    line written after [+], moves on by one on an added line and on a context
    line, and stays on a deleted line. *)
Theorem hunk_cursor_semantics :
  (forall (pre post : list string) (a b c : string),
      Forall (lacks "010"%char) (pre ++ [a; b; c] ++ post) ->
      JS.startsWith a "++" = false -> JS.startsWith b "++" = false ->
      JS.startsWith c "++" = false ->
      Diff.parseDiff
        (JS.join (String "010"%char EmptyString)
                 (pre ++ ["@@ -10,0 +10,3 @@"; "+" +:+ a; "+" +:+ b; "+" +:+ c] ++ post))
      = snd (Unified.run
               (13, Diff.parseDiff (JS.join (String "010"%char EmptyString) pre)
                    ++ [Diff.mkChangedLine 10 Diff.Add a; Diff.mkChangedLine 11 Diff.Add b;
                        Diff.mkChangedLine 12 Diff.Add c])
               post))
  /\ (forall st old oldCount new newCount section,
         Diff.lineStep st (Unified.hunkHeader old oldCount new newCount section)
         = (new, snd st))
  /\ (forall cur acc line,
         JS.startsWith line "+" = true -> JS.startsWith line "+++" = false ->
         Diff.lineStep (cur, acc) line
         = (S cur, acc ++ [Diff.mkChangedLine cur Diff.Add (JS.substringFrom 1 line)]))
  /\ (forall cur acc line,
         JS.startsWith line " " = true -> Diff.lineStep (cur, acc) line = (S cur, acc))
  /\ (forall cur acc line,
         JS.startsWith line "-" = true -> JS.startsWith line "---" = false ->
         Diff.lineStep (cur, acc) line
         = (cur, acc ++ [Diff.mkChangedLine cur Diff.Delete (JS.substringFrom 1 line)])).
Proof.
  split; [|split; [|split; [|split]]].
  - intros pre post a b c Hlf Ha Hb Hc.
    apply Forall_app in Hlf as [Hpre Hlf]. apply Forall_app in Hlf as [Habc Hpost].
    apply Forall_cons in Habc as [Hla Habc]. apply Forall_cons in Habc as [Hlb Habc].
    apply Forall_cons in Habc as [Hlc _].
    unfold Diff.parseDiff, Diff.parseLines.
    rewrite split_join.
    + change (fold_left Diff.lineStep ?l ?st) with (Unified.run st l).
      rewrite (assoc_L (++)), run_app, run_hunk_10 by done.
      destruct pre as [|p pre].
      * reflexivity.
      * by rewrite split_join.
    + by destruct pre.
    + apply Forall_app. split; [done|]. apply Forall_app. split; [|done].
      apply Forall_cons. split.
      { unfold lacks. simpl. repeat (constructor; [done|]). constructor. }
      repeat (apply Forall_cons; split; [by apply lacks_plus|]). constructor.
  - apply lineStep_header.
  - apply lineStep_added.
  - apply lineStep_context.
  - apply lineStep_deleted.
Qed.

Lemma hunk_cursor_semantics_witness :
  let pre := ["diff --git a/src/a.ts b/src/a.ts"; "index 1111111..2222222 100644";
              "--- a/src/a.ts"; "+++ b/src/a.ts"] in
  let post := [EmptyString] in
  (Forall (lacks "010"%char) (pre ++ ["const x = 1;"; "const y = 2;"; "const z = 3;"] ++ post)
   /\ JS.startsWith "const x = 1;" "++" = false
   /\ JS.startsWith "const y = 2;" "++" = false
   /\ JS.startsWith "const z = 3;" "++" = false
   /\ map Diff.lineNumber
        (Diff.parseDiff
           (JS.join (String "010"%char EmptyString)
              (pre ++ ["@@ -10,0 +10,3 @@"; "+const x = 1;"; "+const y = 2;"; "+const z = 3;"]
                   ++ post)))
      = [10; 11; 12])
  /\ (JS.startsWith "+added" "+" = true /\ JS.startsWith "+added" "+++" = false
      /\ Diff.lineStep (7, []) "+added" = (8, [Diff.mkChangedLine 7 Diff.Add "added"]))
  /\ (JS.startsWith " kept" " " = true /\ Diff.lineStep (7, []) " kept" = (8, []))
  /\ (JS.startsWith "-gone" "-" = true /\ JS.startsWith "-gone" "---" = false
      /\ Diff.lineStep (7, []) "-gone" = (7, [Diff.mkChangedLine 7 Diff.Delete "gone"])).
Proof.
  intros pre post.
  destruct hunk_cursor_semantics as (Hhunk & _ & Hadd & Hctx & Hdel).
  assert (Forall (lacks "010"%char)
            (pre ++ ["const x = 1;"; "const y = 2;"; "const z = 3;"] ++ post)) as Hlf.
  { unfold lacks. simpl. repeat (constructor; [repeat (constructor; [done|]); constructor|]).
    constructor. }
  split; [|split; [|split]].
  - split; [exact Hlf|]. repeat (split; [reflexivity|]).
    exact (f_equal (map Diff.lineNumber)
             (Hhunk pre post "const x = 1;" "const y = 2;" "const z = 3;"
                    Hlf eq_refl eq_refl eq_refl)).
  - repeat (split; [reflexivity|]). exact (Hadd 7 [] "+added" eq_refl eq_refl).
  - split; [reflexivity|]. exact (Hctx 7 [] " kept" eq_refl).
  - repeat (split; [reflexivity|]). exact (Hdel 7 [] "-gone" eq_refl eq_refl).
Defined.


(** C4 as stated fails for a line that begins with [+++]: when the second of
    the three lines is the added line [++i;], written [+++i;] in the diff, it
    is taken for a file header and skipped, and the changed lines are 10 and
    11. *)
Lemma triple_plus_line_is_skipped :
  JS.startsWith "+a = 0;" "+" = true
  /\ JS.startsWith "+++i;" "+" = true
  /\ JS.startsWith "+b = 1;" "+" = true
  /\ Diff.parseDiff
       (JS.join Sample.lf ["@@ -10,0 +10,3 @@"; "+a = 0;"; "+++i;"; "+b = 1;"])
     = [Diff.mkChangedLine 10 Diff.Add "a = 0;"; Diff.mkChangedLine 11 Diff.Add "b = 1;"]
  /\ map Diff.lineNumber
       (Diff.parseDiff
          (JS.join Sample.lf ["@@ -10,0 +10,3 @@"; "+a = 0;"; "+++i;"; "+b = 1;"]))
     <> [10; 11; 12].
Proof. repeat split; try (vm_compute; reflexivity). vm_compute. discriminate. Qed.

(** * Staged files *)

Section StagedFacts.
Context `{NodePath}.

Lemma parseStatus_None (letter : string) :
  Diff.parseStatus letter = None <-> letter ∉ ["A"; "M"; "D"].
Proof.
  unfold Diff.parseStatus.
  destruct (String.eqb_spec letter "A") as [->|HA];
    [split; [done | intros Hn; destruct Hn; repeat constructor]|].
  destruct (String.eqb_spec letter "M") as [->|HM];
    [split; [done | intros Hn; destruct Hn; repeat constructor]|].
  destruct (String.eqb_spec letter "D") as [->|HD];
    [split; [done | intros Hn; destruct Hn; repeat constructor]|].
  split; [|done]. intros _ Hin.
  repeat (apply elem_of_cons in Hin as [?|Hin]; [done|]). by apply elem_of_nil in Hin.
Qed.

Lemma stagedOfLines_app (l1 l2 : list string) :
  Diff.stagedOfLines (l1 ++ l2) = Diff.stagedOfLines l1 ++ Diff.stagedOfLines l2.
Proof.
  induction l1 as [|line l1 IH]; [done|]. simpl.
  destruct (Diff.parseStatus (Diff.statusField line)); [|done]. by rewrite IH.
Qed.

(** a line with another status letter leaves no entry *)
Lemma stagedOfLines_skip (l1 l2 : list string) (line : string) :
  Diff.parseStatus (Diff.statusField line) = None ->
  Diff.stagedOfLines (l1 ++ line :: l2) = Diff.stagedOfLines (l1 ++ l2).
Proof. intros Hline. rewrite !stagedOfLines_app. simpl. by rewrite Hline. Qed.

Lemma stagedOfLines_origin (lines : list string) (f : Diff.StagedFile) :
  f ∈ Diff.stagedOfLines lines ->
  exists line, line ∈ lines
    /\ Diff.parseStatus (Diff.statusField line) = Some (Diff.status f)
    /\ Diff.pathField line = Diff.path f.
Proof.
  induction lines as [|line lines IH]; simpl; [by intros ?%elem_of_nil|].
  destruct (Diff.parseStatus (Diff.statusField line)) as [st|] eqn:Hst.
  - intros [->|Hin]%elem_of_cons.
    + exists line. split; [left|done].
    + destruct (IH Hin) as (l & ? & ? & ?). exists l. split; [by right|done].
  - intros Hin. destruct (IH Hin) as (l & ? & ? & ?). exists l. split; [by right|done].
Qed.

Lemma analyzeFileChange_fields (w : World) (relativePath : string)
    (status : Diff.FileStatus) (absolutePath : string) (fc : Diff.FileChange) :
  Diff.analyzeFileChange w relativePath status absolutePath = Ok (Some fc) ->
  Diff.relativePath fc = relativePath /\ Diff.fileStatus fc = status.
Proof.
  unfold Diff.analyzeFileChange. case_decide.
  - by intros [= <-].
  - destruct (Diff.getChangedLines w relativePath); [done|].
    destruct (Diff.locateAffectedBlocks w absolutePath _); simpl; [|done].
    by intros [= <-].
Qed.

Lemma countStatus_snoc (s : Diff.FileStatus) (changes : list Diff.FileChange)
    (fc : Diff.FileChange) :
  Staged.countStatus s (changes ++ [fc])
  = Staged.countStatus s changes + (if decide (Diff.fileStatus fc = s) then 1 else 0).
Proof.
  unfold Staged.countStatus. rewrite filter_app, length_app. f_equal.
  rewrite filter_cons, filter_nil. by case_decide.
Qed.

Lemma summarises_bump (sm : Diff.Summary) (changes : list Diff.FileChange)
    (fc : Diff.FileChange) :
  Staged.summarises sm changes ->
  Staged.summarises (Diff.bump sm (Diff.fileStatus fc)) (changes ++ [fc]).
Proof.
  intros (Ha & Hm & Hd). unfold Staged.summarises. rewrite !countStatus_snoc.
  destruct (Diff.fileStatus fc); simpl; repeat case_decide; try done; lia.
Qed.

(** What the loop of [analyzeStagedChanges] adds comes from the staged
    entries, and the summary keeps counting the file changes. *)
Lemma stagedLoop_spec (w : World) (files : list Diff.StagedFile)
    (st st' : list Diff.FileChange * Diff.Summary) :
  Diff.stagedLoop w files st = Ok st' ->
  (forall fc, fc ∈ fst st' ->
     fc ∈ fst st
     \/ exists f, f ∈ files /\ Diff.path f = Some (Diff.relativePath fc)
                  /\ Diff.status f = Diff.fileStatus fc)
  /\ (Staged.summarises (snd st) (fst st) -> Staged.summarises (snd st') (fst st')).
Proof.
  revert st. induction files as [|f files IH]; intros st; simpl.
  - intros [= <-]. split; [by left | done].
  - destruct (Diff.path f) as [filePath|] eqn:Hpath; [|done].
    destruct (Diff.isSourceFile filePath); simpl.
    + destruct (Diff.analyzeFileChange w filePath (Diff.status f) _) as [[fc|]|] eqn:Hfc;
        simpl; [| |done].
      * intros Hloop. apply IH in Hloop as [Horigin Hsum]. simpl in *.
        apply analyzeFileChange_fields in Hfc as [Hrel Hst].
        split.
        -- intros fc' Hin. destruct (Horigin fc' Hin) as [Hold|(f' & ? & ? & ?)].
           ++ apply elem_of_app in Hold as [?|Hnew%list_elem_of_singleton]; [by left|].
              subst fc'. right. exists f. rewrite Hrel, Hst. split; [left|done].
           ++ right. exists f'. split; [by right|done].
        -- intros Hs. apply Hsum. rewrite <- Hst. by apply summarises_bump.
      * intros Hloop. apply IH in Hloop as [Horigin Hsum]. split; [|done].
        intros fc' Hin. destruct (Horigin fc' Hin) as [?|(f' & ? & ?)]; [by left|].
        right. exists f'. split; [by right|done].
    + intros Hloop. apply IH in Hloop as [Horigin Hsum]. split; [|done].
      intros fc' Hin. destruct (Horigin fc' Hin) as [?|(f' & ? & ?)]; [by left|].
      right. exists f'. split; [by right|done].
Qed.

Lemma getStagedFiles_listing (w : World) (stdout : string) :
  gitNameStatus w = Ok stdout ->
  Diff.getStagedFiles w = Ok (Diff.stagedOfLines (Diff.stagedLines stdout)).
Proof. unfold Diff.getStagedFiles. by intros ->. Qed.

Lemma stagedLoop_withListing (w : World) (stdout : string) (files : list Diff.StagedFile)
    (st : list Diff.FileChange * Diff.Summary) :
  Diff.stagedLoop (Staged.withListing w stdout) files st = Diff.stagedLoop w files st.
Proof.
  revert st. induction files as [|f files IH]; intros st; [done|]. simpl.
  destruct (Diff.path f); [|done]. destruct (Diff.isSourceFile _); simpl; [|apply IH].
  assert (forall a b c, Diff.analyzeFileChange (Staged.withListing w stdout) a b c
                        = Diff.analyzeFileChange w a b c) as -> by done.
  destruct (Diff.analyzeFileChange w _ _ _) as [[fc|]|]; simpl; [apply IH | apply IH | done].
Qed.

(** the analysis is a function of the staged entries *)
Lemma analyzeStagedChanges_listing (w : World) (stdout stdout' : string) :
  gitNameStatus w = Ok stdout ->
  Diff.stagedOfLines (Diff.stagedLines stdout) = Diff.stagedOfLines (Diff.stagedLines stdout') ->
  Diff.analyzeStagedChanges w = Diff.analyzeStagedChanges (Staged.withListing w stdout').
Proof.
  intros Hw Heq. unfold Diff.analyzeStagedChanges.
  rewrite (getStagedFiles_listing w stdout) by done.
  rewrite (getStagedFiles_listing (Staged.withListing w stdout') stdout') by reflexivity.
  rewrite Heq. simpl. unfold Diff.analyzeEntries. by rewrite stagedLoop_withListing.
Qed.

End StagedFacts.

(** C10. A staged entry whose status letter is not A, M or D (a rename or a
    copy, say) is skipped: the analysis is the analysis of the other entries
    alone, the same as for the listing without that entry, so the entry adds
    no file change, no count and no error; every file change of the analysis
    comes from an entry with letter A, M or D, and the summary counts exactly
    the file changes reported. *)
Theorem other_status_ignored `{NodePath} (w : World) (stdout : string)
    (before after : list string) (entry : string) :
  gitNameStatus w = Ok stdout ->
  Diff.stagedLines stdout = before ++ entry :: after ->
  Diff.statusField entry ∉ ["A"; "M"; "D"] ->
  Diff.analyzeStagedChanges w = Diff.analyzeEntries w (Diff.stagedOfLines (before ++ after))
  /\ (forall stdout', Diff.stagedLines stdout' = before ++ after ->
        Diff.analyzeStagedChanges w
        = Diff.analyzeStagedChanges (Staged.withListing w stdout'))
  /\ (forall analysis, Diff.analyzeStagedChanges w = Ok analysis ->
        (forall fc, fc ∈ Diff.fileChanges analysis -> Staged.fromLine (before ++ after) fc)
        /\ Staged.summarises (Diff.summary analysis) (Diff.fileChanges analysis)).
Proof.
  intros Hw Hlines Hletter. apply parseStatus_None in Hletter.
  assert (Diff.stagedOfLines (Diff.stagedLines stdout) = Diff.stagedOfLines (before ++ after))
    as Hstaged by (rewrite Hlines; by apply stagedOfLines_skip).
  assert (Diff.analyzeStagedChanges w
          = Diff.analyzeEntries w (Diff.stagedOfLines (before ++ after))) as Hentries.
  { unfold Diff.analyzeStagedChanges.
    by rewrite (getStagedFiles_listing w stdout), Hstaged. }
  split; [exact Hentries|]. split.
  - intros stdout' Hlines'. apply (analyzeStagedChanges_listing w stdout); [done|].
    by rewrite Hstaged, Hlines'.
  - intros analysis. rewrite Hentries. unfold Diff.analyzeEntries.
    destruct (Diff.stagedOfLines (before ++ after)) as [|f files] eqn:Hfiles.
    + intros [= <-]. simpl. split; [by intros fc ?%elem_of_nil | done].
    + destruct (Diff.stagedLoop w (f :: files) _) as [st'|] eqn:Hloop; simpl; [|done].
      intros [= <-]. simpl. apply stagedLoop_spec in Hloop as [Horigin Hsum]. split.
      * intros fc Hin. destruct (Horigin fc Hin) as [?%elem_of_nil|(f' & Hf' & Hp & Hs)]; [done|].
        rewrite <- Hfiles in Hf'. apply stagedOfLines_origin in Hf' as (line & ? & ? & ?).
        exists line. split; [done|]. split; congruence.
      * by apply Hsum.
Qed.

Lemma other_status_ignored_witness :
  gitNameStatus Sample.staged = Ok Sample.listing
  /\ Diff.stagedLines Sample.listing = [Sample.widgetEntry] ++ Sample.renameEntry :: []
  /\ (Diff.statusField Sample.renameEntry ∉ ["A"; "M"; "D"])
  /\ Diff.stagedLines Sample.listingWithoutRename = [Sample.widgetEntry] ++ []
  /\ @Diff.analyzeStagedChanges Posix.ops Sample.staged
     = @Diff.analyzeEntries Posix.ops Sample.staged
         [Diff.mkStagedFile (Some "src/widget.ts") Diff.Modified]
  /\ @Diff.analyzeStagedChanges Posix.ops Sample.staged
     = @Diff.analyzeStagedChanges Posix.ops
         (Staged.withListing Sample.staged Sample.listingWithoutRename)
  /\ (forall analysis,
        @Diff.analyzeStagedChanges Posix.ops Sample.staged = Ok analysis ->
        (forall fc, fc ∈ Diff.fileChanges analysis ->
                    Staged.fromLine ([Sample.widgetEntry] ++ []) fc)
        /\ Staged.summarises (Diff.summary analysis) (Diff.fileChanges analysis)).
Proof.
  assert (Diff.statusField Sample.renameEntry ∉ ["A"; "M"; "D"]) as Hletter.
  { apply (bool_decide_unpack _). vm_compute. exact I. }
  destruct (@other_status_ignored Posix.ops Sample.staged Sample.listing
              [Sample.widgetEntry] [] Sample.renameEntry eq_refl eq_refl Hletter)
    as (Hentries & Hsame & Hfrom).
  split; [reflexivity|]. split; [reflexivity|]. split; [exact Hletter|].
  split; [reflexivity|]. split; [exact Hentries|]. split; [|exact Hfrom].
  exact (Hsame Sample.listingWithoutRename eq_refl).
Defined.

(** * Lines and offsets *)

Section LineFacts.

Lemma split_nonempty (sep : ascii) (s : string) : JS.split sep s <> [].
Proof.
  destruct s as [|a s]; [done|]. simpl.
  destruct (Ascii.eqb a sep); [done|]. by destruct (JS.split sep s).
Qed.

Lemma lineAtPos_0 (text : string) : Ast.lineAtPos text 0 = 1.
Proof. by destruct text. Qed.

Lemma lineAtPos_nil (pos : nat) : Ast.lineAtPos EmptyString pos = 1.
Proof. by destruct pos. Qed.

Lemma lineAtPos_cons (a : ascii) (text : string) (pos : nat) :
  Ast.lineAtPos (String a text) (S pos)
  = (if Ascii.eqb a "010" then 1 else 0) + Ast.lineAtPos text pos.
Proof.
  unfold Ast.lineAtPos, Ast.countNewlines. cbn [JS.takeStr list_ascii_of_string].
  rewrite filter_cons. destruct (Ascii.eqb_spec a "010"%char) as [->|Hne].
  - by rewrite decide_True.
  - by rewrite decide_False.
Qed.

Lemma linePos_1 (text : string) : Diff.linePos text 1 = 0.
Proof. done. Qed.

Lemma linePos_cons (a : ascii) (text : string) (k : nat) :
  Diff.linePos (String a text) (S (S k))
  = S (Diff.linePos text (if Ascii.eqb a "010" then S k else S (S k))).
Proof.
  unfold Diff.linePos. cbn [JS.split]. destruct (Ascii.eqb a "010").
  - replace (S (S k) - 1) with (S k) by lia. replace (S k - 1) with k by lia.
    cbn [take map sum_list_with String.length]. unfold id. lia.
  - replace (S (S k) - 1) with (S k) by lia.
    pose proof (split_nonempty "010"%char text) as Hne.
    destruct (JS.split "010"%char text) as [|h t]; [done|].
    cbn [take map sum_list_with String.length]. unfold id. lia.
Qed.

Lemma split_length_cons (a : ascii) (text : string) :
  length (JS.split "010"%char (String a text))
  = (if Ascii.eqb a "010" then 1 else 0) + length (JS.split "010"%char text).
Proof.
  cbn [JS.split]. destruct (Ascii.eqb a "010"); [done|].
  pose proof (split_nonempty "010"%char text) as Hne.
  by destruct (JS.split "010"%char text).
Qed.

Lemma startsLine_spec (text : string) (l pos : nat) :
  Enclosing.startsLine text l pos = true
  <-> Ast.lineAtPos text pos = l /\ forall p, p < pos -> Ast.lineAtPos text p < l.
Proof.
  unfold Enclosing.startsLine. rewrite andb_true_iff, Nat.eqb_eq, forallb_forall.
  split; intros [Hline Hfirst]; (split; [done|]).
  - intros p Hp. apply Nat.ltb_lt, Hfirst, in_seq. lia.
  - intros p [_ Hp]%in_seq. apply Nat.ltb_lt, Hfirst. lia.
Qed.

(** the offset computed for a line of the text is where that line begins *)
Lemma linePos_startsLine (text : string) (l : nat) :
  1 <= l <= length (JS.split "010"%char text) ->
  Enclosing.startsLine text l (Diff.linePos text l) = true.
Proof.
  rewrite startsLine_spec. revert l. induction text as [|a text IH]; intros l Hl.
  - simpl in Hl. assert (l = 1) as -> by lia. split; [done|]. intros p Hp. rewrite linePos_1 in Hp. lia.
  - destruct l as [|[|k]]; [lia | |].
    + rewrite linePos_1. split; [apply lineAtPos_0|]. intros p Hp. lia.
    + rewrite linePos_cons. rewrite split_length_cons in Hl.
      destruct (IH (if Ascii.eqb a "010" then S k else S (S k))) as [Hline Hfirst].
      { destruct (Ascii.eqb a "010"); lia. }
      split.
      * rewrite lineAtPos_cons, Hline. destruct (Ascii.eqb a "010"); lia.
      * intros [|p] Hp; [rewrite lineAtPos_0; lia|].
        rewrite lineAtPos_cons. specialize (Hfirst p ltac:(lia)).
        destruct (Ascii.eqb a "010"); lia.
Qed.

(** and the only offset at which it begins *)
Lemma startsLine_linePos (text : string) (l pos : nat) :
  Enclosing.startsLine text l pos = true -> Diff.linePos text l = pos.
Proof.
  rewrite startsLine_spec. revert l pos. induction text as [|a text IH]; intros l pos [Hline Hfirst].
  - rewrite lineAtPos_nil in Hline. subst l. destruct pos as [|pos]; [done|].
    specialize (Hfirst 0 ltac:(lia)). rewrite lineAtPos_0 in Hfirst. lia.
  - destruct pos as [|pos].
    + rewrite lineAtPos_0 in Hline. by subst l.
    + pose proof (Hfirst 0 ltac:(lia)) as H0. rewrite lineAtPos_0 in H0.
      destruct l as [|[|k]]; [lia..|].
      rewrite linePos_cons. f_equal. apply IH.
      rewrite lineAtPos_cons in Hline. split.
      * destruct (Ascii.eqb a "010"); lia.
      * intros p Hp. specialize (Hfirst (S p) ltac:(lia)). rewrite lineAtPos_cons in Hfirst.
        destruct (Ascii.eqb a "010"); lia.
Qed.

Lemma lineAtPos_mono (text : string) (p q : nat) :
  p <= q -> Ast.lineAtPos text p <= Ast.lineAtPos text q.
Proof.
  revert p q. induction text as [|a text IH]; intros p q Hpq.
  - by rewrite !lineAtPos_nil.
  - destruct p as [|p]; [rewrite lineAtPos_0; unfold Ast.lineAtPos; lia|].
    destruct q as [|q]; [lia|]. rewrite !lineAtPos_cons.
    specialize (IH p q ltac:(lia)). lia.
Qed.

End LineFacts.

(** * The diff-to-block mapper *)

Section BlockFacts.

Lemma isReactComponent_spec (code : string) :
  Diff.isReactComponent code = true
  <-> JS.includes code "return (" = true
      /\ (JS.includes code "<" = true \/ JS.includes code "jsx" = true).
Proof. unfold Diff.isReactComponent. by rewrite andb_true_iff, orb_true_iff. Qed.

Lemma walkUp_skip (text : string) (lineNumber : nat) (inner chain : list Ast.Node) :
  Forall (fun m => Located.declares m = false) inner ->
  Diff.walkUp text lineNumber (inner ++ chain) = Diff.walkUp text lineNumber chain.
Proof.
  induction 1 as [|m inner Hm _ IH]; [done|]. simpl.
  unfold Located.declares in Hm.
  destruct (Ast.getKind m); try done.
  destruct (Ast.getInitializer m) as [initializer|]; [|done].
  apply bool_decide_eq_false in Hm. by case_decide.
Qed.

(** the loop stops at the first declaration of the chain *)
Lemma walkUp_stops (text : string) (lineNumber : nat) (chain : list Ast.Node) :
  match Diff.walkUp text lineNumber chain with
  | Ok (Some b) =>
      exists inner n outer,
        chain = inner ++ n :: outer
        /\ Forall (fun m => Located.declares m = false) inner
        /\ Located.declares n = true
        /\ Diff.startLine b = Ast.lineAtPos text (Ast.getStart n)
        /\ Diff.endLine b = Ast.lineAtPos text (Ast.getEnd n)
  | Ok None => Forall (fun m => Located.declares m = false) chain
  | Throw _ => exists n, n ∈ chain /\ Located.declares n = true
  end.
Proof.
  induction chain as [|current parents IH]; [by constructor|].
  assert (Located.declares current = false ->
          match Diff.walkUp text lineNumber parents with
          | Ok (Some b) =>
              exists inner n outer,
                current :: parents = inner ++ n :: outer
                /\ Forall (fun m => Located.declares m = false) inner
                /\ Located.declares n = true
                /\ Diff.startLine b = Ast.lineAtPos text (Ast.getStart n)
                /\ Diff.endLine b = Ast.lineAtPos text (Ast.getEnd n)
          | Ok None => Forall (fun m => Located.declares m = false) (current :: parents)
          | Throw _ => exists n, n ∈ current :: parents /\ Located.declares n = true
          end) as Hskip.
  { intros Hcur. destruct (Diff.walkUp text lineNumber parents) as [[b|]|].
    - destruct IH as (inner & n & outer & -> & Hinner & Hn & Hlines).
      exists (current :: inner), n, outer. split; [done|]. split; [by constructor | done].
    - by constructor.
    - destruct IH as (n & Hin & Hn). exists n. split; [by right | done]. }
  assert (Located.declares current = true ->
          forall b, Diff.startLine b = Ast.lineAtPos text (Ast.getStart current) ->
                    Diff.endLine b = Ast.lineAtPos text (Ast.getEnd current) ->
          exists inner n outer,
            current :: parents = inner ++ n :: outer
            /\ Forall (fun m => Located.declares m = false) inner
            /\ Located.declares n = true
            /\ Diff.startLine b = Ast.lineAtPos text (Ast.getStart n)
            /\ Diff.endLine b = Ast.lineAtPos text (Ast.getEnd n)) as Hhere.
  { intros Hcur b Hs He. exists [], current, parents. by repeat split. }
  assert (Located.declares current = true ->
          exists n, n ∈ current :: parents /\ Located.declares n = true) as Hthrow.
  { intros Hcur. exists current. split; [left | done]. }
  simpl. unfold Located.declares in Hskip, Hhere, Hthrow.
  destruct (Ast.getKind current); try (by apply Hskip); try (by apply Hhere).
  - (* variable declaration *)
    destruct (Ast.getInitializer current) as [initializer|]; [|by apply Hskip].
    case_decide as Hkind.
    + rewrite bool_decide_eq_true_2 in Hhere, Hthrow by done.
      destruct parents as [|list [|statement rest]]; [by apply Hthrow..|]. by apply Hhere.
    + rewrite bool_decide_eq_false_2 in Hskip by done. by apply Hskip.
  - (* method *)
    destruct parents as [|parent rest]; [by apply Hthrow | by apply Hhere].
Qed.

Lemma located_spec (chain : list Ast.Node) (n : Ast.Node) (outer : list Ast.Node) :
  Enclosing.located chain = Some (n, outer)
  <-> exists inner, chain = inner ++ n :: outer
        /\ Forall (fun m => Located.declares m = false) inner
        /\ Located.declares n = true.
Proof.
  split.
  - induction chain as [|m chain IH]; [done|]. simpl.
    destruct (Located.declares m) eqn:Hm.
    + intros [= -> ->]. by exists [].
    + intros (inner & -> & Hinner & Hn)%IH. exists (m :: inner). split; [done|].
      split; [by constructor | done].
  - intros (inner & -> & Hinner & Hn). induction Hinner as [|m inner Hm _ IH]; simpl.
    + by rewrite Hn.
    + by rewrite Hm.
Qed.

Lemma located_None (chain : list Ast.Node) :
  Enclosing.located chain = None <-> Forall (fun m => Located.declares m = false) chain.
Proof.
  induction chain as [|m chain IH]; simpl.
  - split; [by constructor | done].
  - destruct (Located.declares m) eqn:Hm.
    + split; [done|]. intros Hall. apply Forall_cons in Hall as [Hm' _]. congruence.
    + rewrite IH. split; [by constructor | by intros [_ ?]%Forall_cons].
Qed.

(** what the loop returns when it stops at a function declaration *)
Lemma walkUp_function (text : string) (lineNumber : nat) (n : Ast.Node)
    (outer : list Ast.Node) :
  Ast.getKind n = Ast.FunctionDeclaration ->
  exists b,
    Diff.walkUp text lineNumber (n :: outer) = Ok (Some b)
    /\ Diff.fullCode b = Ast.getText text n
    /\ Diff.blockType b
       = (if Diff.isReactComponent (Ast.getText text n) then Diff.KComponent else Diff.KFunction).
Proof. intros Hkind. simpl. rewrite Hkind. eexists. split; [done|]. by split. Qed.

(** and at a variable declaration that holds an arrow function *)
Lemma walkUp_arrow (text : string) (lineNumber : nat) (n declarations statement : Ast.Node)
    (rest : list Ast.Node) :
  Ast.getKind n = Ast.VariableDeclaration ->
  Located.declares n = true ->
  exists b,
    Diff.walkUp text lineNumber (n :: declarations :: statement :: rest) = Ok (Some b)
    /\ Diff.fullCode b = Ast.getText text statement
    /\ Diff.blockType b
       = (if Diff.isReactComponent (Ast.getText text statement)
          then Diff.KComponent else Diff.KFunction).
Proof.
  intros Hkind Hn. unfold Located.declares in Hn. rewrite Hkind in Hn. simpl. rewrite Hkind.
  destruct (Ast.getInitializer n) as [initializer|]; [|done].
  apply bool_decide_eq_true in Hn. rewrite decide_True by done.
  eexists. split; [done|]. by split.
Qed.

Lemma tag_spec (t : Diff.BlockType) (code : string) :
  t = (if Diff.isReactComponent code then Diff.KComponent else Diff.KFunction) ->
  (t = Diff.KComponent \/ t = Diff.KFunction)
  /\ (t = Diff.KComponent <-> Enclosing.hasMarkupText code)
  /\ (t = Diff.KFunction <-> ~ Enclosing.hasMarkupText code).
Proof.
  unfold Enclosing.hasMarkupText. rewrite <- isReactComponent_spec.
  destruct (Diff.isReactComponent code); intros ->;
    (split; [by (left + right)|]); split; split; done.
Qed.

End BlockFacts.

(** C5 (as the code has it). Let the mapper, looking up a changed line,
    stop at the node [n]: the first declaration on the way from the innermost
    node at the line's offset outwards. When [n] is a function declaration,
    the block is made with the text of [n] (from its first token to its end);
    when [n] is a variable declaration that holds an arrow function, with the
    text of the node two levels above it, the whole variable statement. In
    both cases the block is tagged [component] or [function]: [component]
    exactly when that recorded text contains the characters [return (] and
    also [<] or [jsx], and [function] exactly when it does not. The test is a
    substring test on the text, comments inside it included. *)
Theorem component_tag_is_substring_test (sourceFile : Ast.SourceFile) (lineNumber : nat)
    (n : Ast.Node) (outer : list Ast.Node) (code : string) :
  let text := Ast.getFullText sourceFile in
  let pos := Diff.linePos text lineNumber in
  Ast.containsPos (Ast.root sourceFile) pos = true ->
  Enclosing.located (Ast.chainAt pos (Ast.root sourceFile)) = Some (n, outer) ->
  (Ast.getKind n = Ast.FunctionDeclaration /\ code = Ast.getText text n)
  \/ (Ast.getKind n = Ast.VariableDeclaration
      /\ exists declarations statement rest,
           outer = declarations :: statement :: rest /\ code = Ast.getText text statement) ->
  exists b,
    Diff.findCodeBlockAtLine sourceFile lineNumber = Ok (Some b)
    /\ Diff.fullCode b = code
    /\ (Diff.blockType b = Diff.KComponent \/ Diff.blockType b = Diff.KFunction)
    /\ (Diff.blockType b = Diff.KComponent
        <-> JS.includes code "return (" = true
            /\ (JS.includes code "<" = true \/ JS.includes code "jsx" = true))
    /\ (Diff.blockType b = Diff.KFunction
        <-> ~ (JS.includes code "return (" = true
               /\ (JS.includes code "<" = true \/ JS.includes code "jsx" = true))).
Proof.
  intros text pos Hroot (inner & Hchain & Hinner & Hn)%located_spec Hkind.
  unfold Diff.findCodeBlockAtLine. fold text pos. rewrite Hroot, Hchain.
  rewrite walkUp_skip by done.
  destruct Hkind as [[Hkind ->]|(Hkind & declarations & statement & rest & -> & ->)].
  - destruct (walkUp_function text lineNumber n outer Hkind) as (b & Hb & Hcode & Htag).
    exists b. split; [done|]. split; [done|]. by apply tag_spec.
  - destruct (walkUp_arrow text lineNumber n declarations statement rest Hkind Hn)
      as (b & Hb & Hcode & Htag).
    exists b. split; [done|]. split; [done|]. by apply tag_spec.
Qed.

Lemma component_tag_is_substring_test_witness :
  (* a function declaration: the widget, line 3 *)
  (let code := Ast.getText Sample.widgetText MapperCases.widgetFunction in
   Ast.getKind MapperCases.widgetFunction = Ast.FunctionDeclaration
   /\ exists b,
        Diff.findCodeBlockAtLine Sample.widget 3 = Ok (Some b)
        /\ Diff.fullCode b = code
        /\ (Diff.blockType b = Diff.KComponent \/ Diff.blockType b = Diff.KFunction)
        /\ (Diff.blockType b = Diff.KComponent
            <-> JS.includes code "return (" = true
                /\ (JS.includes code "<" = true \/ JS.includes code "jsx" = true))
        /\ (Diff.blockType b = Diff.KFunction
            <-> ~ (JS.includes code "return (" = true
                   /\ (JS.includes code "<" = true \/ JS.includes code "jsx" = true))))
  (* an arrow function bound to a variable: the card, line 2 *)
  /\ (let code := JS.substring 0 42 Sample.cardText in
      Ast.getKind Sample.cardDeclaration = Ast.VariableDeclaration
      /\ exists b,
           Diff.findCodeBlockAtLine Sample.card 2 = Ok (Some b)
           /\ Diff.fullCode b = code
           /\ (Diff.blockType b = Diff.KComponent \/ Diff.blockType b = Diff.KFunction)
           /\ (Diff.blockType b = Diff.KComponent
               <-> JS.includes code "return (" = true
                   /\ (JS.includes code "<" = true \/ JS.includes code "jsx" = true))
           /\ (Diff.blockType b = Diff.KFunction
               <-> ~ (JS.includes code "return (" = true
                      /\ (JS.includes code "<" = true \/ JS.includes code "jsx" = true)))).
Proof.
  split.
  - intros code. split; [reflexivity|].
    refine (component_tag_is_substring_test Sample.widget 3 MapperCases.widgetFunction _ code _ _ _).
    + vm_compute. reflexivity.
    + vm_compute. reflexivity.
    + left. split; reflexivity.
  - intros code. split; [reflexivity|].
    refine (component_tag_is_substring_test Sample.card 2 Sample.cardDeclaration _ code _ _ _).
    + vm_compute. reflexivity.
    + vm_compute. reflexivity.
    + right. split; [reflexivity|]. eexists _, _, _. split; reflexivity.
Defined.

(** An arrow function bound to a variable that does return markup is tagged
    [component], by the text of its variable statement. *)
Lemma card_is_component :
  Claimed.returnsMarkup Sample.cardArrow = true
  /\ Diff.findCodeBlockAtLine Sample.card 2
     = Ok (Some (Diff.mkCodeBlock Diff.KComponent "Card" 1 3
                   "const Card = () => => {...}"
                   (JS.substring 0 42 Sample.cardText) [2])).
Proof. split; vm_compute; reflexivity. Qed.

(** C5 as stated fails: in [Sample.widget] the only return statement returns
    a number and markup occurs in a comment alone, so the structural test of
    the specification is negative, yet the block found for the changed line 3
    is tagged [component]. *)
Lemma comment_markup_tags_component :
  exists fn b,
    Ast.forEachChild (Ast.root Sample.widget) = [fn]
    /\ Ast.getKind fn = Ast.FunctionDeclaration
    /\ Diff.findCodeBlockAtLine Sample.widget 3 = Ok (Some b)
    /\ Diff.fullCode b = Ast.getText Sample.widgetText fn
    /\ Diff.blockType b = Diff.KComponent
    /\ Claimed.returnsMarkup fn = false
    /\ ~ (Diff.blockType b = Diff.KComponent <-> Claimed.returnsMarkup fn = true).
Proof.
  eexists _, _. split; [reflexivity|]. split; [reflexivity|].
  split; [vm_compute; reflexivity|]. split; [vm_compute; reflexivity|].
  split; [reflexivity|]. split; [reflexivity|].
  intros [Hto _]. specialize (Hto eq_refl). vm_compute in Hto. discriminate.
Qed.


(** ** One block per declaration *)

Section DedupFacts.

Lemma typeName_lacks_dash (t : Diff.BlockType) : lacks "-"%char (Diff.typeName t).
Proof. destruct t; unfold lacks; simpl; repeat (constructor; [done|]); constructor. Qed.

Lemma typeName_inj (t t' : Diff.BlockType) : Diff.typeName t = Diff.typeName t' -> t = t'.
Proof. by destruct t, t'. Qed.

(** a separator-free field before the first separator is determined *)
Lemma sep_app_inj (sep : ascii) (s1 s2 r1 r2 : string) :
  lacks sep s1 -> lacks sep s2 ->
  s1 +:+ String sep r1 = s2 +:+ String sep r2 -> s1 = s2 /\ r1 = r2.
Proof.
  revert s2. induction s1 as [|a s1 IH]; intros [|b s2]; rewrite ?app_empty_l, ?app_cons.
  - by intros _ _ [= ->].
  - intros _ [Hb _]%lacks_cons [= <- _]. done.
  - intros [Ha _]%lacks_cons _ [= -> _]. done.
  - intros [_ H1]%lacks_cons [_ H2]%lacks_cons [= -> Heq].
    destruct (IH _ H1 H2 Heq) as [-> ->]. done.
Qed.

Lemma blockKey_sameBlock (b b' : Diff.CodeBlock) :
  Diff.blockKey b = Diff.blockKey b' <-> Diff.sameBlock b b'.
Proof.
  unfold Diff.blockKey, Diff.sameBlock, JS.numberToString. split.
  - change ("-" +:+ ?r) with (String "-" r).
    intros [Ht Hrest]%sep_app_inj; [|apply typeName_lacks_dash..].
    apply typeName_inj in Ht.
    apply app_sep_inj in Hrest as [Hn Hl];
      [|apply allDigits_lacks; [done | apply pretty_nat_digits]..].
    apply (inj pretty) in Hl. done.
  - intros (-> & -> & ->). done.
Qed.

Lemma sameBlock_sym (b b' : Diff.CodeBlock) : Diff.sameBlock b b' -> Diff.sameBlock b' b.
Proof. unfold Diff.sameBlock. intros (-> & -> & ->). done. Qed.

Lemma sameBlock_trans (a b c : Diff.CodeBlock) :
  Diff.sameBlock a b -> Diff.sameBlock b c -> Diff.sameBlock a c.
Proof. unfold Diff.sameBlock. intros (<- & <- & <-) (-> & -> & ->). done. Qed.

Lemma walkUp_line (text : string) (lineNumber : nat) (chain : list Ast.Node)
    (b : Diff.CodeBlock) :
  Diff.walkUp text lineNumber chain = Ok (Some b) -> Diff.changedLineNumbers b = [lineNumber].
Proof.
  induction chain as [|current parents IH]; [done|]. simpl.
  destruct (Ast.getKind current); try exact IH.
  - by intros [= <-].
  - destruct (Ast.getInitializer current) as [initializer|]; [|exact IH].
    case_decide; [|exact IH].
    destruct parents as [|list [|statement rest]]; [done..|]. by intros [= <-].
  - destruct parents as [|parent rest]; [done|]. by intros [= <-].
  - by intros [= <-].
  - by intros [= <-].
Qed.

Lemma findCodeBlockAtLine_line (sourceFile : Ast.SourceFile) (lineNumber : nat)
    (b : Diff.CodeBlock) :
  Diff.findCodeBlockAtLine sourceFile lineNumber = Ok (Some b) ->
  Diff.changedLineNumbers b = [lineNumber].
Proof.
  unfold Diff.findCodeBlockAtLine. destruct (Ast.containsPos _ _); [|done].
  apply walkUp_line.
Qed.

Lemma key_listed (k : string) (l : list Diff.CodeBlock) :
  (exists b, b ∈ l /\ Diff.blockKey b = k) <-> k ∈ map Diff.blockKey l.
Proof.
  change map with (@fmap list _). rewrite list_elem_of_fmap.
  split; intros (b & ? & ?); exists b; done.
Qed.

Lemma sameBlock_pushLine (n : nat) (a b : Diff.CodeBlock) :
  Diff.sameBlock a b -> Diff.sameBlock a (Diff.pushLine n b).
Proof. done. Qed.

Lemma blockKey_pushLine (n : nat) (b : Diff.CodeBlock) :
  Diff.blockKey (Diff.pushLine n b) = Diff.blockKey b.
Proof. done. Qed.

Lemma consistent_distinct (st : list Diff.CodeBlock * gset string) :
  Mapped.consistent st -> Mapped.distinctBlocks (fst st).
Proof.
  intros [_ Hnd] i j bi bj Hi Hj Hsame%blockKey_sameBlock.
  eapply NoDup_lookup; [exact Hnd | ..].
  - rewrite list_lookup_fmap, Hi. reflexivity.
  - rewrite list_lookup_fmap, Hj. simpl. by rewrite Hsame.
Qed.

Lemma covers_mono_app (blocks : list Diff.CodeBlock) (b' : Diff.CodeBlock)
    (line : nat) (block : Diff.CodeBlock) :
  Mapped.covers blocks line block -> Mapped.covers (blocks ++ [b']) line block.
Proof. intros (b & ? & ? & ?). exists b. split; [apply elem_of_app; by left | done]. Qed.

Lemma covers_mono_push (blocks : list Diff.CodeBlock) (i n : nat)
    (existing : Diff.CodeBlock) (line : nat) (block : Diff.CodeBlock) :
  blocks !! i = Some existing ->
  Mapped.covers blocks line block ->
  Mapped.covers (<[i := Diff.pushLine n existing]> blocks) line block.
Proof.
  intros Hi (b & [j Hj]%list_elem_of_lookup & Hsame & Hline).
  destruct (decide (i = j)) as [<-|Hne].
  - assert (b = existing) as -> by congruence.
    exists (Diff.pushLine n existing). split; [|split].
    + apply list_elem_of_lookup. exists i. apply list_lookup_insert_eq.
      by eapply lookup_lt_Some.
    + by apply sameBlock_pushLine.
    + simpl. apply elem_of_app. by left.
  - exists b. split; [|done]. apply list_elem_of_lookup. exists j.
    by rewrite list_lookup_insert_ne.
Qed.

(** One iteration keeps the state consistent, keeps what was covered, and
    covers the line it handles. *)
Lemma blockStep_spec (sourceFile : Ast.SourceFile) (st st' : list Diff.CodeBlock * gset string)
    (changedLine : Diff.ChangedLine) :
  Mapped.consistent st ->
  Diff.blockStep sourceFile st changedLine = Ok st' ->
  Mapped.consistent st'
  /\ (forall line block, Mapped.covers (fst st) line block -> Mapped.covers (fst st') line block)
  /\ (forall block,
        Diff.findCodeBlockAtLine sourceFile (Diff.lineNumber changedLine) = Ok (Some block) ->
        Mapped.covers (fst st') (Diff.lineNumber changedLine) block).
Proof.
  destruct st as [blocks processedBlocks]. intros [Hkeys Hnd]. unfold Diff.blockStep.
  destruct (Diff.findCodeBlockAtLine sourceFile _) as [[block|]|] eqn:Hfound; simpl; [| |done].
  2:{ intros [= <-]. split; [done|]. split; [done|]. done. }
  apply findCodeBlockAtLine_line in Hfound.
  case_decide as Hseen.
  - (* the key is known: the block is in the list *)
    apply Hkeys in Hseen as (b & Hb & Hkey). simpl in *.
    apply blockKey_sameBlock, sameBlock_sym in Hkey.
    destruct (list_find (Diff.sameBlock block) blocks) as [[i existingBlock]|] eqn:Hfind.
    2:{ apply list_find_None in Hfind. rewrite Forall_forall in Hfind.
        destruct (Hfind b Hb Hkey). }
    apply list_find_Some in Hfind as (Hi & Hsame & _).
    case_decide as Hlisted.
    + intros [= <-]. split; [done|]. split; [done|]. intros ? [= <-].
      exists existingBlock. split; [|done]. apply list_elem_of_lookup. eauto.
    + intros [= <-]. simpl. split; [|split].
      * assert (map Diff.blockKey
                  (<[i := Diff.pushLine (Diff.lineNumber changedLine) existingBlock]> blocks)
                = map Diff.blockKey blocks) as Hmap.
        { change map with (@fmap list _). rewrite list_fmap_insert, blockKey_pushLine.
          apply list_insert_id. by rewrite list_lookup_fmap, Hi. }
        split; simpl; [|by rewrite Hmap].
        intros k. by rewrite Hkeys, !key_listed, Hmap.
      * intros line b0. by apply covers_mono_push.
      * intros ? [= <-]. exists (Diff.pushLine (Diff.lineNumber changedLine) existingBlock).
        split; [|split].
        -- apply list_elem_of_lookup. exists i. apply list_lookup_insert_eq.
           by eapply lookup_lt_Some.
        -- by apply sameBlock_pushLine.
        -- simpl. apply elem_of_app. right. by apply list_elem_of_singleton.
  - (* a new key: the block is appended *)
    intros [= <-]. simpl in *. split; [|split].
    + split; simpl.
      * intros k. rewrite elem_of_union, elem_of_singleton, Hkeys. split.
        -- intros [->|(b & ? & ?)].
           ++ exists block. split; [apply elem_of_app; right; by apply list_elem_of_singleton|done].
           ++ exists b. split; [apply elem_of_app; by left | done].
        -- intros (b & [?|Hnew%list_elem_of_singleton]%elem_of_app & Hk).
           ++ right. eauto.
           ++ left. by subst.
      * rewrite map_app. simpl. apply NoDup_app. split; [done|]. split.
        -- intros k Hk [->|[]%elem_of_nil]%elem_of_cons. by apply Hseen, Hkeys, key_listed.
        -- apply NoDup_singleton.
    + intros line b0. apply covers_mono_app.
    + intros ? [= <-]. exists block. split; [|split].
      * apply elem_of_app. right. by apply list_elem_of_singleton.
      * done.
      * rewrite Hfound. by apply list_elem_of_singleton.
Qed.

Lemma blockLoop_spec (sourceFile : Ast.SourceFile) (lines : list Diff.ChangedLine)
    (st st' : list Diff.CodeBlock * gset string) :
  Mapped.consistent st ->
  Diff.blockLoop sourceFile lines st = Ok st' ->
  Mapped.consistent st'
  /\ (forall line block, Mapped.covers (fst st) line block -> Mapped.covers (fst st') line block)
  /\ (forall cl block,
        cl ∈ lines ->
        Diff.findCodeBlockAtLine sourceFile (Diff.lineNumber cl) = Ok (Some block) ->
        Mapped.covers (fst st') (Diff.lineNumber cl) block).
Proof.
  revert st. induction lines as [|changedLine rest IH]; intros st Hst; simpl.
  - intros [= <-]. split; [done|]. split; [done|]. by intros cl block ?%elem_of_nil.
  - destruct (Diff.blockStep sourceFile st changedLine) as [st1|] eqn:Hstep; simpl; [|done].
    apply blockStep_spec in Hstep as (Hst1 & Hmono1 & Hcov1); [|done].
    intros Hloop. apply IH in Hloop as (Hst' & Hmono & Hcov); [|done].
    split; [done|]. split; [by auto|].
    intros cl block [->|Hin]%elem_of_cons Hfound; [by auto | by eauto].
Qed.

(** a loop that returns has found, for every line it was given, a block or
    nothing: no look-up has thrown *)
Lemma blockLoop_found (sourceFile : Ast.SourceFile) (lines : list Diff.ChangedLine)
    (st st' : list Diff.CodeBlock * gset string) (cl : Diff.ChangedLine) :
  Diff.blockLoop sourceFile lines st = Ok st' ->
  cl ∈ lines ->
  exists found, Diff.findCodeBlockAtLine sourceFile (Diff.lineNumber cl) = Ok found.
Proof.
  revert st. induction lines as [|changedLine rest IH]; intros st; [by intros _ ?%elem_of_nil|].
  simpl. destruct (Diff.blockStep sourceFile st changedLine) as [st1|] eqn:Hstep; simpl; [|done].
  intros Hloop [->|Hin]%elem_of_cons; [|by eapply IH].
  destruct st as [blocks processedBlocks]. unfold Diff.blockStep in Hstep.
  destruct (Diff.findCodeBlockAtLine sourceFile _) as [found|]; [by exists found | done].
Qed.

(** inside a declaration the look-up does not answer "nothing" *)
Lemma enclosed_found (sourceFile : Ast.SourceFile) (lineNumber pos : nat) :
  Enclosing.startsLine (Ast.getFullText sourceFile) lineNumber pos = true ->
  Enclosing.enclosed sourceFile pos = true ->
  Diff.findCodeBlockAtLine sourceFile lineNumber <> Ok None.
Proof.
  intros Hpos%startsLine_linePos [Hroot Hdecl%bool_decide_eq_true]%andb_true_iff.
  unfold Diff.findCodeBlockAtLine. rewrite Hpos, Hroot.
  pose proof (walkUp_stops (Ast.getFullText sourceFile) lineNumber
                (Ast.chainAt pos (Ast.root sourceFile))) as Hstop.
  intros Hnone. rewrite Hnone in Hstop. apply located_None in Hstop.
  rewrite Hstop in Hdecl. by destruct Hdecl.
Qed.

End DedupFacts.

(** C6 (as the code has it). Take two distinct added (or modified) lines of
    a file, each of which begins inside a declaration (a function, method,
    class or interface declaration or an arrow-function variable around the
    offset at which the line begins). The mapper finds a block for each of
    them and the affected-blocks list has an entry for the declaration of
    each that lists the line. When the two blocks are for the same
    declaration (same kind, name and start line), exactly one entry of the
    list is for that declaration and it lists both line numbers. No two
    entries of the list are for the same declaration. *)
Theorem same_declaration_one_block (w : World) (filePath : string)
    (sourceFile : Ast.SourceFile) (changedLines : list Diff.ChangedLine)
    (blocks : list Diff.CodeBlock) (l1 l2 pos1 pos2 : nat) :
  fs w !! filePath = Some (FsFile sourceFile) ->
  Diff.locateAffectedBlocks w filePath changedLines = Ok blocks ->
  Mapped.isChangedLine changedLines l1 ->
  Mapped.isChangedLine changedLines l2 ->
  l1 <> l2 ->
  Enclosing.startsLine (Ast.getFullText sourceFile) l1 pos1 = true ->
  Enclosing.startsLine (Ast.getFullText sourceFile) l2 pos2 = true ->
  Enclosing.enclosed sourceFile pos1 = true ->
  Enclosing.enclosed sourceFile pos2 = true ->
  exists b1 b2,
    Diff.findCodeBlockAtLine sourceFile l1 = Ok (Some b1)
    /\ Diff.findCodeBlockAtLine sourceFile l2 = Ok (Some b2)
    /\ Mapped.covers blocks l1 b1
    /\ Mapped.covers blocks l2 b2
    /\ (Diff.sameBlock b1 b2 ->
        exists i b,
          blocks !! i = Some b /\ Diff.sameBlock b1 b
          /\ l1 ∈ Diff.changedLineNumbers b /\ l2 ∈ Diff.changedLineNumbers b
          /\ forall j b', blocks !! j = Some b' -> Diff.sameBlock b1 b' -> j = i)
    /\ Mapped.distinctBlocks blocks.
Proof.
  intros Hfile Hloc (cl1 & Hin1 & Hrel1 & <-) (cl2 & Hin2 & Hrel2 & <-) _
    Hpos1 Hpos2 Hdecl1 Hdecl2.
  unfold Diff.locateAffectedBlocks, existsSync, addSourceFileAtPath in Hloc.
  rewrite Hfile in Hloc. rewrite bool_decide_eq_true_2 in Hloc by eauto. simpl in Hloc.
  destruct (Diff.blockLoop sourceFile _ _) as [st'|] eqn:Hloop; simpl in Hloc; [|done].
  injection Hloc as <-.
  assert (cl1 ∈ filter (fun l => Diff.isRelevant l = true) changedLines) as Hcl1
    by (by apply list_elem_of_filter).
  assert (cl2 ∈ filter (fun l => Diff.isRelevant l = true) changedLines) as Hcl2
    by (by apply list_elem_of_filter).
  destruct (blockLoop_found _ _ _ _ cl1 Hloop Hcl1) as [[b1|] Hb1];
    [|by destruct (enclosed_found sourceFile _ pos1 Hpos1 Hdecl1)].
  destruct (blockLoop_found _ _ _ _ cl2 Hloop Hcl2) as [[b2|] Hb2];
    [|by destruct (enclosed_found sourceFile _ pos2 Hpos2 Hdecl2)].
  apply blockLoop_spec in Hloop as (Hst' & _ & Hcov).
  2:{ split; simpl; [|constructor]. intros k. split; [by intros ?%elem_of_empty|].
      by intros (b & ?%elem_of_nil & _). }
  pose proof (consistent_distinct _ Hst') as Hdistinct.
  pose proof (Hcov cl1 b1 Hcl1 Hb1) as Hcov1. pose proof (Hcov cl2 b2 Hcl2 Hb2) as Hcov2.
  exists b1, b2. repeat (split; [done|]). split; [|done]. intros Hsame.
  destruct Hcov1 as (b & [i Hi]%list_elem_of_lookup & Hsb & Hl1).
  destruct Hcov2 as (b' & [j Hj]%list_elem_of_lookup & Hsb' & Hl2).
  assert (i = j) as <-.
  { apply (Hdistinct i j b b' Hi Hj).
    eapply sameBlock_trans; [apply sameBlock_sym, Hsb|].
    eapply sameBlock_trans; [exact Hsame | exact Hsb']. }
  assert (b' = b) as -> by congruence.
  exists i, b. repeat (split; [done|]).
  intros k b0 Hk Hs. symmetry. apply (Hdistinct i k b b0 Hi Hk).
  eapply sameBlock_trans; [apply sameBlock_sym, Hsb | exact Hs].
Qed.

Lemma same_declaration_one_block_witness :
  let changedLines := Diff.getChangedLines Sample.staged2 "src/widget.ts" in
  let entry := Diff.mkCodeBlock Diff.KComponent "f" 1 4 "function f(): number"
                 (JS.substring 0 49 Sample.widgetText) in
  fs Sample.staged2 !! "/p/src/widget.ts" = Some (FsFile Sample.widget)
  /\ Diff.locateAffectedBlocks Sample.staged2 "/p/src/widget.ts" changedLines
     = Ok [entry [2; 3]]
  /\ Mapped.isChangedLine changedLines 2
  /\ Mapped.isChangedLine changedLines 3
  /\ 2 <> 3
  /\ Enclosing.startsLine Sample.widgetText 2 15 = true
  /\ Enclosing.startsLine Sample.widgetText 3 36 = true
  /\ Enclosing.enclosed Sample.widget 15 = true
  /\ Enclosing.enclosed Sample.widget 36 = true
  /\ exists b1 b2,
       Diff.findCodeBlockAtLine Sample.widget 2 = Ok (Some b1)
       /\ Diff.findCodeBlockAtLine Sample.widget 3 = Ok (Some b2)
       /\ Mapped.covers [entry [2; 3]] 2 b1
       /\ Mapped.covers [entry [2; 3]] 3 b2
       /\ (Diff.sameBlock b1 b2 ->
           exists i b,
             [entry [2; 3]] !! i = Some b /\ Diff.sameBlock b1 b
             /\ 2 ∈ Diff.changedLineNumbers b /\ 3 ∈ Diff.changedLineNumbers b
             /\ forall j b', [entry [2; 3]] !! j = Some b' -> Diff.sameBlock b1 b' -> j = i)
       /\ Mapped.distinctBlocks [entry [2; 3]].
Proof.
  intros changedLines entry.
  assert (fs Sample.staged2 !! "/p/src/widget.ts" = Some (FsFile Sample.widget)) as Hfile
    by (vm_compute; reflexivity).
  assert (Diff.locateAffectedBlocks Sample.staged2 "/p/src/widget.ts" changedLines
          = Ok [entry [2; 3]]) as Hloc by (vm_compute; reflexivity).
  assert (Mapped.isChangedLine changedLines 2) as H2.
  { exists (Diff.mkChangedLine 2 Diff.Add "  // return (<div/>)").
    split; [|done]. vm_compute. left. }
  assert (Mapped.isChangedLine changedLines 3) as H3.
  { exists (Diff.mkChangedLine 3 Diff.Add "  return 1;").
    split; [|done]. vm_compute. right. left. }
  assert (2 <> 3) as Hne by lia.
  assert (Enclosing.startsLine Sample.widgetText 2 15 = true) as Hpos2
    by (vm_compute; reflexivity).
  assert (Enclosing.startsLine Sample.widgetText 3 36 = true) as Hpos3
    by (vm_compute; reflexivity).
  assert (Enclosing.enclosed Sample.widget 15 = true) as Hdecl2 by (vm_compute; reflexivity).
  assert (Enclosing.enclosed Sample.widget 36 = true) as Hdecl3 by (vm_compute; reflexivity).
  repeat (split; [assumption|]).
  exact (same_declaration_one_block Sample.staged2 "/p/src/widget.ts" Sample.widget
           changedLines [entry [2; 3]] 2 3 15 36
           Hfile Hloc H2 H3 Hne Hpos2 Hpos3 Hdecl2 Hdecl3).
Defined.

(** C6 as stated fails for deleted lines. The two changed lines of this
    diff are deletions with the numbers 2 and 3; both numbers lie in the
    function [f], for which the mapper finds one and the same declaration;
    yet the affected-blocks list is empty: deleted lines are filtered out
    before any line is mapped. *)
Lemma deleted_lines_of_one_declaration_give_no_block :
  let changedLines := Diff.getChangedLines MapperCases.removed "src/widget.ts" in
  let entry := Diff.mkCodeBlock Diff.KComponent "f" 1 4 "function f(): number"
                 (JS.substring 0 49 Sample.widgetText) in
  changedLines = [Diff.mkChangedLine 2 Diff.Delete "  log(1);";
                  Diff.mkChangedLine 3 Diff.Delete "  log(2);"]
  /\ fs MapperCases.removed !! "/p/src/widget.ts" = Some (FsFile Sample.widget)
  /\ Diff.findCodeBlockAtLine Sample.widget 2 = Ok (Some (entry [2]))
  /\ Diff.findCodeBlockAtLine Sample.widget 3 = Ok (Some (entry [3]))
  /\ Diff.sameBlock (entry [2]) (entry [3])
  /\ Diff.locateAffectedBlocks MapperCases.removed "/p/src/widget.ts" changedLines = Ok []
  /\ ~ (exists b, b ∈ ([] : list Diff.CodeBlock)
                  /\ 2 ∈ Diff.changedLineNumbers b /\ 3 ∈ Diff.changedLineNumbers b).
Proof.
  intros changedLines entry.
  split; [vm_compute; reflexivity|]. split; [vm_compute; reflexivity|].
  split; [vm_compute; reflexivity|]. split; [vm_compute; reflexivity|].
  split; [done|]. split; [vm_compute; reflexivity|].
  by intros (b & ?%elem_of_nil & _).
Qed.


(** * The dependency tracer *)

Section TraversalFacts.
Context `{NodePath}.

Lemma terminates_ret {A} (a : A) : Walk.terminates (Tracer.ret a).
Proof. intros st. by eexists. Qed.

Lemma terminates_lift {A} (r : result A) : Walk.terminates (Tracer.lift r).
Proof. intros st. by eexists. Qed.

Lemma terminates_bind {A B} (m : Tracer.Trav A) (k : A -> Tracer.Trav B) :
  Walk.terminates m -> (forall a, Walk.terminates (k a)) -> Walk.terminates (Tracer.bind m k).
Proof.
  intros Hm Hk st. unfold Tracer.bind. destruct (Hm st) as [[st' [a|e]] ->]; [apply Hk | by eexists].
Qed.

Lemma terminates_foldTrav {X B} (f : B -> X -> Tracer.Trav B) (l : list X) (b : B) :
  (forall b x, Walk.terminates (f b x)) -> Walk.terminates (Tracer.foldTrav f l b).
Proof.
  intros Hf. revert b. induction l as [|x l IH]; intros b; simpl.
  - apply terminates_ret.
  - apply terminates_bind; [apply Hf | apply IH].
Qed.

Lemma terminates_importStep (w : World)
    (recur : string -> Ast.SourceFile -> Tracer.Trav (list DependencyInfo.t))
    (filePath : string) (depth maxDepth : nat) (deps : list DependencyInfo.t)
    (importDecl : Ast.ImportDeclaration) :
  (depth < maxDepth -> forall p sf, Walk.terminates (recur p sf)) ->
  Walk.terminates (Tracer.importStep w recur filePath depth maxDepth deps importDecl).
Proof.
  intros Hrec. unfold Tracer.importStep.
  destruct (Tracer.localTarget w filePath importDecl); [|apply terminates_ret].
  apply terminates_bind; [apply terminates_lift|]. intros type.
  destruct (Nat.ltb_spec depth maxDepth); [|apply terminates_ret].
  apply terminates_bind; [apply terminates_lift|]. intros sf.
  apply terminates_bind; [by apply Hrec|]. intros subDeps. apply terminates_ret.
Qed.

(** Fuel beyond the depth still to go is never used up. *)
Lemma analyzeDependencies_terminates (fuel : nat) (w : World) (filePath : string)
    (sourceFile : Ast.SourceFile) (depth maxDepth : nat) :
  0 < fuel -> maxDepth < depth + fuel ->
  Walk.terminates (Tracer.analyzeDependencies fuel w filePath sourceFile depth maxDepth).
Proof.
  revert filePath sourceFile depth.
  induction fuel as [|fuel IH]; intros filePath sourceFile depth Hpos Hfuel; [lia|].
  simpl. apply terminates_bind; [intros st; by eexists|]. intros _.
  destruct (Nat.ltb_spec maxDepth depth); [apply terminates_ret|].
  apply terminates_bind; [intros st; by eexists|]. intros [|]; [apply terminates_ret|].
  apply terminates_bind; [intros st; by eexists|]. intros _.
  apply terminates_foldTrav. intros deps importDecl.
  apply terminates_importStep. intros Hdepth p sf. apply IH; lia.
Qed.

Lemma preserves_ret (J : Tracer.TracerState -> Prop) {A} (a : A) :
  Walk.preserves J (Tracer.ret a).
Proof. by intros st st' r HJ [= <- _]. Qed.

Lemma preserves_lift (J : Tracer.TracerState -> Prop) {A} (x : result A) :
  Walk.preserves J (Tracer.lift x).
Proof. by intros st st' r HJ [= <- _]. Qed.

Lemma preserves_bind (J : Tracer.TracerState -> Prop) {A B}
    (m : Tracer.Trav A) (k : A -> Tracer.Trav B) :
  Walk.preserves J m -> (forall a, Walk.preserves J (k a)) ->
  Walk.preserves J (Tracer.bind m k).
Proof.
  intros Hm Hk st st' r HJ. unfold Tracer.bind.
  destruct (m st) as [[st1 [a|e]]|] eqn:Hmst; [| |done].
  - apply Hk. by eapply Hm.
  - intros [= <- _]. by eapply Hm.
Qed.

Lemma preserves_foldTrav (J : Tracer.TracerState -> Prop) {X B}
    (f : B -> X -> Tracer.Trav B) (l : list X) (b : B) :
  (forall b x, Walk.preserves J (f b x)) -> Walk.preserves J (Tracer.foldTrav f l b).
Proof.
  intros Hf. revert b. induction l as [|x l IH]; intros b; simpl.
  - apply preserves_ret.
  - apply preserves_bind; [apply Hf | apply IH].
Qed.

Lemma preserves_importStep (J : Tracer.TracerState -> Prop) (w : World)
    (recur : string -> Ast.SourceFile -> Tracer.Trav (list DependencyInfo.t))
    (filePath : string) (depth maxDepth : nat) (deps : list DependencyInfo.t)
    (importDecl : Ast.ImportDeclaration) :
  (depth < maxDepth -> forall p sf, Walk.preserves J (recur p sf)) ->
  Walk.preserves J (Tracer.importStep w recur filePath depth maxDepth deps importDecl).
Proof.
  intros Hrec. unfold Tracer.importStep.
  destruct (Tracer.localTarget w filePath importDecl); [|apply preserves_ret].
  apply preserves_bind; [apply preserves_lift|]. intros type.
  destruct (Nat.ltb_spec depth maxDepth); [|apply preserves_ret].
  apply preserves_bind; [apply preserves_lift|]. intros sf.
  apply preserves_bind; [by apply Hrec|]. intros subDeps. apply preserves_ret.
Qed.

(** An invocation at a depth within the bound keeps the traversal bounded. *)
Lemma analyzeDependencies_bounded (fuel : nat) (w : World) (filePath : string)
    (sourceFile : Ast.SourceFile) (depth maxDepth : nat) :
  depth <= maxDepth ->
  Walk.preserves (Walk.bounded maxDepth)
    (Tracer.analyzeDependencies fuel w filePath sourceFile depth maxDepth).
Proof.
  revert filePath sourceFile depth.
  induction fuel as [|fuel IH]; intros filePath sourceFile depth Hdepth; [done|].
  simpl. apply preserves_bind.
  { intros st st' r (Hnd & Hvis & Hcalls) [= <- _]. split; [done|]. split; [done|].
    simpl. apply Forall_app. split; [done|]. by repeat constructor. }
  intros _. destruct (Nat.ltb_spec maxDepth depth); [apply preserves_ret|].
  intros st st' r HJ. unfold Tracer.bind at 1, Tracer.visitedHas.
  case_bool_decide as Hseen; [by intros [= <- _]|].
  unfold Tracer.bind at 1, Tracer.visitedAdd. intros Hrun.
  eapply (preserves_foldTrav (Walk.bounded maxDepth)); [| |exact Hrun].
  - intros deps importDecl. apply preserves_importStep. intros Hlt p sf. apply IH. lia.
  - destruct HJ as (Hnd & Hvis & Hcalls). split; [|split]; simpl; [| |done].
    + rewrite map_app. apply NoDup_app. split; [done|]. split; [|apply NoDup_singleton].
      intros f Hf Hin. apply list_elem_of_singleton in Hin. subst f. by apply Hseen, Hvis.
    + intros f. rewrite map_app, elem_of_app, elem_of_union, elem_of_singleton.
      intros [Hf|Hf]; [right; by apply Hvis | left]. by apply list_elem_of_singleton in Hf.
Qed.

Lemma bounded_cleared (maxDepth : nat) : Walk.bounded maxDepth Tracer.cleared.
Proof.
  split; [constructor|]. split; [|constructor]. by intros f ?%elem_of_nil.
Qed.

(** the first scan stays first *)
Lemma analyzeDependencies_keeps_head (fuel : nat) (w : World) (filePath : string)
    (sourceFile : Ast.SourceFile) (depth maxDepth : nat) (c : string * nat) :
  Walk.preserves (fun st => head (Tracer.scans st) = Some c)
    (Tracer.analyzeDependencies fuel w filePath sourceFile depth maxDepth).
Proof.
  revert filePath sourceFile depth.
  induction fuel as [|fuel IH]; intros filePath sourceFile depth; [done|].
  simpl. apply preserves_bind; [by intros st st' r Hst [= <- _]|].
  intros _. destruct (Nat.ltb_spec maxDepth depth); [apply preserves_ret|].
  apply preserves_bind; [by intros st st' r Hst [= <- _]|].
  intros [|]; [apply preserves_ret|].
  apply preserves_bind.
  { intros st st' r Hst [= <- _]. simpl. by destruct (Tracer.scans st). }
  intros _. apply preserves_foldTrav. intros deps importDecl.
  apply preserves_importStep. intros _ p sf. apply IH.
Qed.

Lemma extends_refl {A} (m : Tracer.Trav A) : Walk.extends m m.
Proof. by intros st out. Qed.

Lemma extends_bind {A B} (m m' : Tracer.Trav A) (k k' : A -> Tracer.Trav B) :
  Walk.extends m m' -> (forall a, Walk.extends (k a) (k' a)) ->
  Walk.extends (Tracer.bind m k) (Tracer.bind m' k').
Proof.
  intros Hm Hk st out. unfold Tracer.bind.
  destruct (m st) as [[st1 [a|e]]|] eqn:Hmst; [| |done]; rewrite (Hm _ _ Hmst); [apply Hk | done].
Qed.

Lemma extends_foldTrav {X B} (f f' : B -> X -> Tracer.Trav B) (l : list X) (b : B) :
  (forall b x, Walk.extends (f b x) (f' b x)) ->
  Walk.extends (Tracer.foldTrav f l b) (Tracer.foldTrav f' l b).
Proof.
  intros Hf. revert b. induction l as [|x l IH]; intros b; simpl.
  - apply extends_refl.
  - apply extends_bind; [apply Hf | apply IH].
Qed.

Lemma extends_importStep (w : World)
    (recur recur' : string -> Ast.SourceFile -> Tracer.Trav (list DependencyInfo.t))
    (filePath : string) (depth maxDepth : nat) (deps : list DependencyInfo.t)
    (importDecl : Ast.ImportDeclaration) :
  (forall p sf, Walk.extends (recur p sf) (recur' p sf)) ->
  Walk.extends (Tracer.importStep w recur filePath depth maxDepth deps importDecl)
               (Tracer.importStep w recur' filePath depth maxDepth deps importDecl).
Proof.
  intros Hrec. unfold Tracer.importStep.
  destruct (Tracer.localTarget w filePath importDecl); [|apply extends_refl].
  apply extends_bind; [apply extends_refl|]. intros type.
  destruct (depth <? maxDepth); [|apply extends_refl].
  apply extends_bind; [apply extends_refl|]. intros sf.
  apply extends_bind; [apply Hrec|]. intros subDeps. apply extends_refl.
Qed.

(** More fuel does not change a traversal that had enough. *)
Lemma analyzeDependencies_more_fuel (fuel extra : nat) (w : World) (filePath : string)
    (sourceFile : Ast.SourceFile) (depth maxDepth : nat) :
  Walk.extends (Tracer.analyzeDependencies fuel w filePath sourceFile depth maxDepth)
               (Tracer.analyzeDependencies (fuel + extra) w filePath sourceFile depth maxDepth).
Proof.
  revert filePath sourceFile depth.
  induction fuel as [|fuel IH]; intros filePath sourceFile depth; [done|].
  simpl. apply extends_bind; [apply extends_refl|]. intros _.
  destruct (maxDepth <? depth); [apply extends_refl|].
  apply extends_bind; [apply extends_refl|]. intros [|]; [apply extends_refl|].
  apply extends_bind; [apply extends_refl|]. intros _.
  apply extends_foldTrav. intros deps importDecl.
  apply extends_importStep. intros p sf. apply IH.
Qed.

Lemma forwardTraversal_first_scan (fuel : nat) (w : World) (absolutePath : string)
    (sourceFile : Ast.SourceFile) (st : Tracer.TracerState)
    (outcome : result (list DependencyInfo.t)) :
  Tracer.forwardTraversal (S fuel) w absolutePath sourceFile = Some (st, outcome) ->
  head (Tracer.scans st) = Some (absolutePath, 0).
Proof.
  unfold Tracer.forwardTraversal. cbn [Tracer.analyzeDependencies Nat.ltb Nat.leb].
  unfold Tracer.bind at 1, Tracer.logCall.
  unfold Tracer.bind at 1, Tracer.visitedHas. cbn [Tracer.visited Tracer.cleared].
  rewrite bool_decide_eq_false_2 by apply not_elem_of_empty.
  unfold Tracer.bind at 1, Tracer.visitedAdd.
  apply (preserves_foldTrav (fun st => head (Tracer.scans st) = Some (absolutePath, 0)));
    [|done].
  intros deps importDecl. apply preserves_importStep. intros _ p sf.
  apply analyzeDependencies_keeps_head.
Qed.

(** *** Direct imports, forwards *)




(** *** Direct imports, backwards *)

Lemma namedImports_fold (names : list string) (st : list string * nat) :
  fold_left (fun acc named => (fst acc ++ [named], S (snd acc))) names st
  = (fst st ++ names, snd st + length names).
Proof.
  revert st. induction names as [|n names IH]; intros [items count]; simpl.
  - by rewrite app_nil_r, Nat.add_0_r.
  - rewrite IH. simpl. rewrite <- (assoc_L (++)). f_equal. lia.
Qed.

Lemma countImport_spec (w : World) (file targetPath : string) (st : list string * nat)
    (importDecl : Ast.ImportDeclaration) :
  Tracer.countImport w file targetPath st importDecl
  = (fst st ++ Walk.importsFrom w file targetPath importDecl,
     snd st + length (Walk.importsFrom w file targetPath importDecl)).
Proof.
  unfold Tracer.countImport, Walk.importsFrom, Tracer.importedNames.
  destruct st as [items count].
  destruct (Tracer.resolveImportPath w _ _) as [resolvedPath|].
  2:{ case_decide; [done|]. simpl. by rewrite app_nil_r, Nat.add_0_r. }
  destruct (decide (resolvedPath = targetPath)) as [->|Hne].
  - rewrite decide_True by done. rewrite namedImports_fold.
    destruct (Ast.getDefaultImport importDecl); simpl.
    + rewrite <- (assoc_L (++)). f_equal. lia.
    + done.
  - rewrite decide_False by congruence. simpl. by rewrite app_nil_r, Nat.add_0_r.
Qed.

Lemma countImport_fold (w : World) (file targetPath : string)
    (decls : list Ast.ImportDeclaration) (st : list string * nat) :
  fold_left (Tracer.countImport w file targetPath) decls st
  = (fst st ++ flat_map (Walk.importsFrom w file targetPath) decls,
     snd st + length (flat_map (Walk.importsFrom w file targetPath) decls)).
Proof.
  revert st. induction decls as [|d decls IH]; intros [items count]; simpl.
  - by rewrite app_nil_r, Nat.add_0_r.
  - rewrite countImport_spec, IH. simpl. rewrite <- (assoc_L (++)), length_app. f_equal. lia.
Qed.

(** The reverse scan adds, for every listed file other than the target that
    imports a name from it, exactly the record of that file. *)
Lemma dependentsLoop_spec (w : World) (targetPath : string) (files : list string)
    (acc out : list DependentInfo.t) :
  Tracer.dependentsLoop w targetPath files acc = Ok out ->
  forall d,
    d ∈ out
    <-> d ∈ acc
        \/ exists file sf,
             file ∈ files /\ file <> targetPath /\ fs w !! file = Some (FsFile sf)
             /\ Walk.namesFrom w file targetPath sf <> []
             /\ d = Walk.dependentRecord w file targetPath sf.
Proof.
  revert acc. induction files as [|file files IH]; intros acc; simpl.
  - intros [= <-] d. split; [by left|]. intros [?|(? & ? & ?%elem_of_nil & _)]; done.
  - case_decide as Htarget.
    + intros Hloop d. rewrite (IH _ Hloop). split.
      * intros [?|(f & sf & ? & ?)]; [by left|]. right. exists f, sf. split; [by right|done].
      * intros [?|(f & sf & [->|?]%elem_of_cons & ? & ?)]; [by left|done|]. right. eauto.
    + unfold addSourceFileAtPath.
      destruct (fs w !! file) as [[sf|]|] eqn:Hfile; simpl; [|done..].
      rewrite countImport_fold. simpl.
      fold (Walk.namesFrom w file targetPath sf).
      destruct (Walk.namesFrom w file targetPath sf) as [|n names] eqn:Hnames.
      * intros Hloop d. rewrite (IH _ Hloop). split.
        -- intros [?|(f & sf' & ? & ?)]; [by left|]. right. exists f, sf'. split; [by right|done].
        -- intros [?|(f & sf' & [->|?]%elem_of_cons & Hne & Hf & Hn & ?)]; [by left| |right; eauto 10].
           rewrite Hfile in Hf. injection Hf as <-. by rewrite Hnames in Hn.
      * intros Hloop d. rewrite (IH _ Hloop), elem_of_app, list_elem_of_singleton. split.
        -- intros [[?|Hd]|(f & sf' & ? & ?)].
           ++ by left.
           ++ subst d. right. exists file, sf. split; [left|]. split; [done|]. split; [done|].
              unfold Walk.dependentRecord. rewrite Hnames. done.
           ++ right. exists f, sf'. split; [by right|done].
        -- intros [?|(f & sf' & [->|?]%elem_of_cons & Hne & Hf & Hn & ->)].
           ++ left. by left.
           ++ left. right. rewrite Hfile in Hf. injection Hf as <-.
              unfold Walk.dependentRecord. by rewrite Hnames.
           ++ right. eauto 10.
Qed.

(** what a successful query is made of *)
Lemma analyzeImpact_Ok (fuel : nat) (w : World) (filePath : string)
    (impact : ImpactAnalysis.t) :
  Tracer.analyzeImpact fuel w filePath = Some (Ok impact) ->
  exists sourceFile st,
    fs w !! ImpactAnalysis.targetFile impact = Some (FsFile sourceFile)
    /\ ImpactAnalysis.exports impact = Tracer.extractExports sourceFile
    /\ Tracer.forwardTraversal fuel w (ImpactAnalysis.targetFile impact) sourceFile
       = Some (st, Ok (ImpactAnalysis.dependencies impact))
    /\ Tracer.analyzeDependents w (ImpactAnalysis.targetFile impact)
       = Ok (ImpactAnalysis.dependents impact).
Proof.
  unfold Tracer.analyzeImpact, addSourceFileAtPath.
  destruct (negb _); [done|].
  destruct (fs w !! _) as [[sf|]|] eqn:Hfile; [|done..].
  destruct (Tracer.forwardTraversal fuel w _ sf) as [[st [deps|]]|] eqn:Hfwd; [|done..].
  destruct (Tracer.analyzeDependents w _) as [dependents|] eqn:Hrev; [|done].
  intros [= <-]. simpl. by exists sf, st.
Qed.

Lemma exportsOf_unused {N} (nameOf : N -> string) (kind : ExportedItem.Kind)
    (decls : list (N * bool)) (e : ExportedItem.t) :
  e ∈ Tracer.exportsOf nameOf kind decls -> ExportedItem.isUsedExternally e = false.
Proof.
  unfold Tracer.exportsOf. rewrite list_elem_of_In, in_flat_map.
  intros ([n [|]] & _ & Hin); simpl in Hin; [|done]. by destruct Hin as [<-|[]].
Qed.

(** every export leaves [extractExports] marked as unused *)
Lemma extractExports_unused (sourceFile : Ast.SourceFile) (e : ExportedItem.t) :
  e ∈ Tracer.extractExports sourceFile -> ExportedItem.isUsedExternally e = false.
Proof.
  unfold Tracer.extractExports. rewrite !elem_of_app.
  intros [?|[?|[?|[?|[Hvar|Hdef]]]]]; try by eapply exportsOf_unused.
  - apply list_elem_of_In, in_flat_map in Hvar as ([[|] names] & _ & Hin); simpl in Hin; [|done].
    apply in_map_iff in Hin as (n & <- & _). done.
  - destruct (Ast.getDefaultExportSymbol sourceFile).
    + by apply list_elem_of_singleton in Hdef as ->.
    + by apply elem_of_nil in Hdef.
Qed.

Lemma distinctNames_le (names : list string) : Walk.distinctNames names <= length names.
Proof.
  unfold Walk.distinctNames. induction names as [|n names IH].
  - done.
  - cbn [list_to_set length]. rewrite size_union_alt, size_singleton.
    pose proof (subseteq_size (list_to_set names ∖ {[n]}) (list_to_set names : gset string))
      as Hle.
    assert (list_to_set names ∖ {[n]} ⊆ (list_to_set names : gset string)) as Hsub
      by apply subseteq_difference_l, reflexivity.
    specialize (Hle Hsub). lia.
Qed.

End TraversalFacts.

(** C3. Whatever the project (import cycles included), the forward
    traversal of one query returns: with fuel for four levels or more it
    yields the same final state and outcome; in that traversal no file is
    scanned twice, the first file scanned is the target, and no invocation of
    [analyzeDependencies] happens at a depth beyond 3. The whole query
    returns as well. *)
Theorem forward_traversal_terminates `{NodePath} (w : World) (absolutePath : string)
    (sourceFile : Ast.SourceFile) (extra : nat) :
  (exists st outcome,
      Tracer.forwardTraversal 4 w absolutePath sourceFile = Some (st, outcome)
      /\ Tracer.forwardTraversal (4 + extra) w absolutePath sourceFile = Some (st, outcome)
      /\ NoDup (map fst (Tracer.scans st))
      /\ head (Tracer.scans st) = Some (absolutePath, 0)
      /\ Forall (fun c => snd c <= 3) (Tracer.calls st))
  /\ (forall filePath, is_Some (Tracer.analyzeImpact (4 + extra) w filePath)).
Proof.
  assert (forall k p sf, is_Some (Tracer.forwardTraversal (4 + k) w p sf)) as Hterm.
  { intros k p sf.
    exact (analyzeDependencies_terminates (4 + k) w p sf 0 3
             (Nat.lt_0_succ _) (le_n_S _ _ (Nat.le_add_r 3 k)) Tracer.cleared). }
  split.
  - destruct (Hterm 0 absolutePath sourceFile) as [[st outcome] Hrun].
    exists st, outcome. split; [exact Hrun|]. split.
    { exact (analyzeDependencies_more_fuel 4 extra w absolutePath sourceFile 0 3
               Tracer.cleared (st, outcome) Hrun). }
    pose proof (analyzeDependencies_bounded _ _ _ _ 0 3 (Nat.le_0_l 3) _ _ _
                  (bounded_cleared 3) Hrun) as (Hnd & _ & Hcalls).
    split; [done|]. split; [|done]. by eapply forwardTraversal_first_scan.
  - intros filePath. unfold Tracer.analyzeImpact.
    destruct (negb _); [by eexists|].
    destruct (addSourceFileAtPath w _) as [sf|e]; [|by eexists].
    destruct (Hterm extra (if path_isAbsolute filePath then filePath
                           else path_join (rootPath w) filePath) sf) as [[st [deps|e]] ->];
      [|by eexists].
    destruct (Tracer.analyzeDependents w _); by eexists.
Qed.

(** The cycle of [Sample.cycle], traversed from [a.ts]: both files are
    scanned once, and the third invocation, on [a.ts] again, stops at the
    [visited] test. *)
Lemma cycle_is_traversed_once :
  exists st deps,
    @Tracer.forwardTraversal Posix.ops 4 Sample.cycle "/p/src/a.ts"
      (Sample.moduleFile [Sample.named "./b" ["b"]] ["a"]) = Some (st, Ok deps)
    /\ Tracer.scans st = [("/p/src/a.ts", 0); ("/p/src/b.ts", 1)]
    /\ Tracer.calls st = [("/p/src/a.ts", 0); ("/p/src/b.ts", 1); ("/p/src/a.ts", 2)]
    /\ map DependencyInfo.filePath deps = ["/p/src/b.ts"; "/p/src/a.ts"].
Proof. eexists _, _. split; [vm_compute; reflexivity|]. done. Qed.


(** C1. The code does not do what the specification says. In
    [Sample.usedExport], [a.ts] imports [foo] from [t.ts]; the analysis of
    [t.ts] lists that dependent with [foo] among its imported items, and
    still reports the export [foo] with [isUsedExternally] false. *)
Theorem used_export_reported_unused :
  exists impact dependent,
    @Tracer.analyzeImpact Posix.ops 4 Sample.usedExport "src/t.ts" = Some (Ok impact)
    /\ ImpactAnalysis.exports impact
       = [ExportedItem.mk "foo" ExportedItem.function false]
    /\ dependent ∈ ImpactAnalysis.dependents impact
    /\ DependentInfo.filePath dependent = "/p/src/a.ts"
    /\ "foo" ∈ DependentInfo.importedItems dependent.
Proof.
  eexists _, _. split; [vm_compute; reflexivity|]. split; [reflexivity|].
  split; [left|]. split; [reflexivity|]. simpl. left.
Qed.

(** In no analysis is an export marked as used: nothing updates the flag
    that [extractExports] sets to false. *)
Lemma exports_never_marked_used `{NodePath} (fuel : nat) (w : World) (filePath : string)
    (impact : ImpactAnalysis.t) (e : ExportedItem.t) :
  Tracer.analyzeImpact fuel w filePath = Some (Ok impact) ->
  e ∈ ImpactAnalysis.exports impact ->
  ExportedItem.isUsedExternally e = false.
Proof.
  intros (sf & st & _ & -> & _)%analyzeImpact_Ok. apply extractExports_unused.
Qed.




(** C8 (as the code has it). The usage count of a dependent record is the
    number of entries of its imported items: one for the default import and
    one for each named import of every import declaration of the dependent
    that resolves to the target, a name counted as often as it is imported.
    It is at least the number of distinct names, and equal to it when no name
    is imported twice. *)
Theorem usage_count_counts_imports `{NodePath} (fuel : nat) (w : World) (filePath : string)
    (impact : ImpactAnalysis.t) (d : DependentInfo.t) :
  Tracer.analyzeImpact fuel w filePath = Some (Ok impact) ->
  d ∈ ImpactAnalysis.dependents impact ->
  DependentInfo.usageCount d = length (DependentInfo.importedItems d)
  /\ (exists sourceFile,
        fs w !! DependentInfo.filePath d = Some (FsFile sourceFile)
        /\ DependentInfo.importedItems d
           = Walk.namesFrom w (DependentInfo.filePath d)
                            (ImpactAnalysis.targetFile impact) sourceFile)
  /\ Walk.distinctNames (DependentInfo.importedItems d) <= DependentInfo.usageCount d
  /\ (NoDup (DependentInfo.importedItems d) ->
      DependentInfo.usageCount d = Walk.distinctNames (DependentInfo.importedItems d)).
Proof.
  intros (sf & st & _ & _ & _ & Hrev)%analyzeImpact_Ok Hd.
  apply (dependentsLoop_spec w _ _ _ _ Hrev) in Hd
    as [?%elem_of_nil|(file & sfd & _ & _ & Hfile & _ & ->)]; [done|].
  simpl. split; [done|]. split; [by exists sfd|]. split; [apply distinctNames_le|].
  intros Hnd. unfold Walk.distinctNames. by rewrite size_list_to_set.
Qed.

Lemma usage_count_counts_imports_witness :
  exists impact d,
    @Tracer.analyzeImpact Posix.ops 4 Sample.repeatedName "src/t.ts" = Some (Ok impact)
    /\ d ∈ ImpactAnalysis.dependents impact
    /\ DependentInfo.importedItems d = ["a"; "a"]
    /\ DependentInfo.usageCount d = length (DependentInfo.importedItems d).
Proof.
  eexists _, _.
  assert (@Tracer.analyzeImpact Posix.ops 4 Sample.repeatedName "src/t.ts"
          = Some (Ok (ImpactAnalysis.mk "/p/src/t.ts" "src/t.ts"
                        [ExportedItem.mk "a" ExportedItem.function false] []
                        [DependentInfo.mk "/p/src/u.ts" "src/u.ts" ["a"; "a"] 2]))) as Hrun
    by (vm_compute; reflexivity).
  split; [exact Hrun|].
  assert (DependentInfo.mk "/p/src/u.ts" "src/u.ts" ["a"; "a"] 2
          ∈ ImpactAnalysis.dependents
              (ImpactAnalysis.mk "/p/src/t.ts" "src/t.ts"
                 [ExportedItem.mk "a" ExportedItem.function false] []
                 [DependentInfo.mk "/p/src/u.ts" "src/u.ts" ["a"; "a"] 2])) as Hd by left.
  split; [exact Hd|]. split; [reflexivity|].
  exact (proj1 (@usage_count_counts_imports Posix.ops 4 Sample.repeatedName "src/t.ts" _ _
                  Hrun Hd)).
Defined.

(** C8 as stated fails when a name is imported twice: in
    [Sample.repeatedName] the dependent [u.ts] imports the one name [a] from
    the target in two declarations, and its usage count is 2. *)
Lemma repeated_name_counted_twice :
  exists impact d,
    @Tracer.analyzeImpact Posix.ops 4 Sample.repeatedName "src/t.ts" = Some (Ok impact)
    /\ ImpactAnalysis.dependents impact = [d]
    /\ DependentInfo.importedItems d = ["a"; "a"]
    /\ Walk.distinctNames (DependentInfo.importedItems d) = 1
    /\ DependentInfo.usageCount d = 2
    /\ DependentInfo.usageCount d <> Walk.distinctNames (DependentInfo.importedItems d).
Proof.
  eexists _, _. split; [vm_compute; reflexivity|]. split; [reflexivity|].
  split; [reflexivity|]. split; [vm_compute; reflexivity|]. split; [reflexivity|].
  vm_compute. lia.
Qed.

(** * The declaration after a task marker *)

Section MarkerFacts.

Lemma classify_accepted (n parent : Ast.Node) :
  Marker.accepted n = true <-> is_Some (Hydrator.classify n parent).
Proof.
  unfold Marker.accepted, Hydrator.classify.
  destruct (Ast.getKind n); split; (done || by intros [? [=]] || by eexists).
Qed.

(** One more node visited: what the search has established extends to it. *)
Lemma visit_nearest (sourceFile : Ast.SourceFile) (line : nat)
    (seen : list (Ast.Node * Ast.Node)) (st : option Hydrator.FoundBlock * option nat)
    (np : Ast.Node * Ast.Node) :
  Marker.nearest sourceFile line seen st ->
  Marker.nearest sourceFile line (seen ++ [np])
                 (Hydrator.visit (Ast.getFullText sourceFile) line st np).
Proof.
  destruct np as [n parent]. destruct st as [found minDistance].
  unfold Hydrator.visit, Marker.nearest. cbn [fst snd].
  fold (Marker.startLineOf sourceFile n).
  set (sl := Marker.startLineOf sourceFile n).
  intros Hst.
  assert (forall m p, (m, p) ∈ seen ++ [(n, parent)] -> (m, p) ∈ seen \/ m = n) as Hsplit.
  { intros m p [?|Heq%list_elem_of_singleton]%elem_of_app; [by left|]. right. congruence. }
  destruct (Nat.ltb_spec line sl) as [Hafter|Hbefore]; cbn [andb].
  2:{ (* the node does not start after the marker *)
      cbn [fst snd]; destruct found as [b|].
      - destruct Hst as (Hmin & [p Hp] & Hsl & Hfol & Hleast).
        split; [done|]. split; [exists p; apply elem_of_app; by left|].
        split; [done|]. split; [done|].
        intros m p' [?|Hm']%Hsplit Hfol'; [by eauto|].
        subst m. destruct Hfol' as [_ Hm]. unfold sl in *. lia.
      - destruct Hst as [Hmin Hnone]. split; [done|].
        intros m p' [?| ->]%Hsplit Hfol'; [by eapply Hnone|].
        destruct Hfol' as [_ Hm]. unfold sl in *. lia. }
  destruct (Hydrator.closer (sl - line) minDistance) eqn:Hcloser.
  - (* nearer than what was found so far *)
    destruct (Hydrator.classify n parent) as [[blockType blockName]|] eqn:Hclass.
    + cbn [fst snd Hydrator.startLine Hydrator.node].
      split; [done|]. split; [exists parent; apply elem_of_app; right; by left|].
      split; [done|].
      assert (Marker.accepted n = true) as Hacc by (apply (classify_accepted n parent); eauto).
      split; [done|].
      intros m p' [Hm| ->]%Hsplit Hfol; [|done].
      cbn [fst snd]; destruct found as [b|].
      * destruct Hst as (Hmin & _ & _ & [_ Hb] & Hleast). cbn [snd] in Hmin. subst minDistance.
        simpl in Hcloser. apply Nat.ltb_lt in Hcloser.
        specialize (Hleast m p' Hm Hfol). lia.
      * destruct Hst as [_ Hnone]. destruct (Hnone m p' Hm Hfol).
    + assert (Marker.accepted n <> true) as Hacc.
      { intros Hacc%(classify_accepted n parent). rewrite Hclass in Hacc. by destruct Hacc. }
      cbn [fst snd]; destruct found as [b|].
      * destruct Hst as (Hmin & [p Hp] & Hsl & Hfol & Hleast).
        split; [done|]. split; [exists p; apply elem_of_app; by left|].
        split; [done|]. split; [done|].
        intros m p' [?| ->]%Hsplit Hfol'; [by eauto|]. by destruct Hfol' as [Hm _].
      * destruct Hst as [Hmin Hnone]. split; [done|].
        intros m p' [?| ->]%Hsplit Hfol'; [by eapply Hnone|]. by destruct Hfol' as [Hm _].
  - (* not nearer: something as near has been found *)
    cbn [fst snd]; destruct found as [b|].
    + destruct Hst as (Hmin & [p Hp] & Hsl & [Hb Hbl] & Hleast). cbn [snd] in Hmin.
      subst minDistance. simpl in Hcloser. apply Nat.ltb_ge in Hcloser.
      split; [done|]. split; [exists p; apply elem_of_app; by left|].
      split; [done|]. split; [done|].
      intros m p' [?| ->]%Hsplit Hfol; [by eauto|].
      rewrite <- Hsl in Hbl. unfold sl in *. lia.
    + destruct Hst as [Hmin _]. cbn [snd] in Hmin. subst minDistance. done.
Qed.

Lemma fold_visit_nearest (sourceFile : Ast.SourceFile) (line : nat)
    (todo seen : list (Ast.Node * Ast.Node)) (st : option Hydrator.FoundBlock * option nat) :
  Marker.nearest sourceFile line seen st ->
  Marker.nearest sourceFile line (seen ++ todo)
                 (fold_left (Hydrator.visit (Ast.getFullText sourceFile) line) todo st).
Proof.
  revert seen st. induction todo as [|np todo IH]; intros seen st Hst; simpl.
  - by rewrite app_nil_r.
  - rewrite cons_middle, (assoc_L (++) seen [np] todo). apply IH. by apply visit_nearest.
Qed.

End MarkerFacts.

(** C7 (as the code has it). For a marker at line L the search returns, among
    all function declarations, method declarations, arrow functions (bound
    to a variable or not) and class declarations anywhere in the file that
    start on a line after L, one whose start line is nearest to L; it never
    returns a node that starts at or before L, and it returns nothing exactly
    when no such node starts after L. *)
Theorem following_block_is_nearest (sourceFile : Ast.SourceFile) (line : nat) :
  let nodes := Ast.descendants (Ast.root sourceFile) in
  match Hydrator.findFollowingCodeBlock sourceFile line with
  | Some b =>
      (exists parent, (Hydrator.node b, parent) ∈ nodes)
      /\ Marker.accepted (Hydrator.node b) = true
      /\ Hydrator.startLine b = Marker.startLineOf sourceFile (Hydrator.node b)
      /\ line < Hydrator.startLine b
      /\ (forall n parent,
            (n, parent) ∈ nodes -> Marker.accepted n = true ->
            line < Marker.startLineOf sourceFile n ->
            Hydrator.startLine b <= Marker.startLineOf sourceFile n)
  | None =>
      forall n parent,
        (n, parent) ∈ nodes -> Marker.accepted n = true ->
        ~ line < Marker.startLineOf sourceFile n
  end.
Proof.
  intros nodes. unfold Hydrator.findFollowingCodeBlock. fold nodes.
  pose proof (fold_visit_nearest sourceFile line nodes [] (None, None)) as Hfold.
  rewrite app_nil_l in Hfold. unfold Marker.nearest in Hfold at 2.
  destruct (fold_left _ nodes (None, None)) as [[b|] minDistance]; cbn [fst snd] in *.
  - destruct Hfold as (_ & Hin & Hsl & [Hacc Hafter] & Hleast).
    { split; [done|]. by intros n parent ?%elem_of_nil. }
    split; [done|]. split; [done|]. split; [done|]. split; [by rewrite Hsl|].
    intros n parent Hn Hacc' Hafter'. by apply (Hleast n parent).
  - destruct Hfold as [_ Hnone].
    { split; [done|]. by intros n parent ?%elem_of_nil. }
    intros n parent Hn Hacc Hafter. by apply (Hnone n parent).
Qed.

(** An arrow function bound to a variable is found under the variable's
    name. *)
Lemma card_follows_marker :
  exists b,
    Hydrator.findFollowingCodeBlock Sample.card 0 = Some b
    /\ Hydrator.type b = Hydrator.arrow /\ Hydrator.name b = Some "Card"
    /\ Hydrator.startLine b = 1 /\ Hydrator.endLine b = 3.
Proof. eexists. split; [vm_compute; reflexivity|]. done. Qed.

(** C7 as stated fails on the kinds: in [Sample.callbackFile] the marker is
    on line 1, a callback arrow function that is not bound to a variable
    starts on line 2, and the function [foo], the only declaration of the
    kinds the specification lists, starts on line 3. The search returns the
    callback. *)
Lemma marker_attached_to_callback :
  exists b,
    Hydrator.findFollowingCodeBlock Sample.callbackFile 1 = Some b
    /\ Hydrator.node b = Sample.callbackArrow
    /\ Hydrator.type b = Hydrator.arrow /\ Hydrator.name b = None
    /\ Hydrator.startLine b = 2
    /\ (Sample.callbackArrow, Sample.callbackCall)
       ∈ Ast.descendants (Ast.root Sample.callbackFile)
    /\ Marker.acceptedAsClaimed Sample.callbackArrow Sample.callbackCall = false
    /\ (forall n parent,
          (n, parent) ∈ Ast.descendants (Ast.root Sample.callbackFile) ->
          Marker.acceptedAsClaimed n parent = true ->
          n = Sample.callbackFoo /\ Marker.startLineOf Sample.callbackFile n = 3).
Proof.
  eexists. split; [vm_compute; reflexivity|].
  split; [reflexivity|]. split; [reflexivity|]. split; [reflexivity|]. split; [reflexivity|].
  split; [vm_compute; do 3 right; left|]. split; [reflexivity|].
  intros n parent Hin Hacc. vm_compute in Hin.
  repeat (apply elem_of_cons in Hin as [[= -> ->]|Hin];
          [first [discriminate Hacc | by split; vm_compute]|]).
  by apply elem_of_nil in Hin.
Qed.

(** * Relevance scoring *)

Section ScoreFacts.
Context `{NodePath}.

Lemma award_fold {X} (hit : X -> bool) (points : nat) (keyword : string) (l : list X)
    (st : nat * list string) :
  fst (fold_left (fun acc x => Finder.award (hit x) points keyword acc) l st)
  = fst st + points * Score.countHits hit l.
Proof.
  revert st. unfold Score.countHits.
  induction l as [|x l IH]; intros st; simpl; [lia|].
  rewrite IH, filter_cons. unfold Finder.award.
  destruct (hit x); simpl; lia.
Qed.

(** The points of one keyword are the sum of its tiers: 10 for the file
    name or else 5 for the path, and 8, 6 and 6 for every export, function
    and interface name that contains it. *)
Lemma keywordStep_score (file : Finder.FileAnalysis) (st : nat * list string)
    (keyword : string) :
  fst (Finder.keywordStep file st keyword) = fst st + Score.keywordPoints file keyword.
Proof.
  unfold Finder.keywordStep, Score.keywordPoints, Score.namePoints, Score.exportPoints,
    Score.functionPoints, Score.interfacePoints.
  rewrite !award_fold.
  destruct (JS.includes (JS.toLowerCase (path_basename _)) keyword); simpl; [lia|].
  destruct (JS.includes (JS.toLowerCase (Finder.relativePath file)) keyword); simpl; lia.
Qed.

Lemma keywords_fold_score (file : Finder.FileAnalysis) (keywords : list string)
    (st : nat * list string) :
  fst (fold_left (Finder.keywordStep file) keywords st)
  = fst st + sum_list (map (Score.keywordPoints file) keywords).
Proof.
  revert st. induction keywords as [|k keywords IH]; intros st; simpl; [lia|].
  rewrite IH, keywordStep_score. lia.
Qed.

(** the total score is the sum over the keywords *)
Lemma calculateMatchScore_sum (file : Finder.FileAnalysis) (keywords : list string) :
  fst (Finder.calculateMatchScore file keywords)
  = sum_list (map (Score.keywordPoints file) keywords).
Proof.
  unfold Finder.calculateMatchScore.
  pose proof (keywords_fold_score file keywords (0, [])) as Hsum.
  destruct (fold_left _ keywords (0, [])); simpl in *. lia.
Qed.

End ScoreFacts.

(** * Relevance scoring, whatever the lower-casing *)

Section CasedFacts.
Context `{NodePath}.
Variable toLowerCase : string -> string.

(** [Finder] is the scorer with the lower-casing of A to Z *)
Lemma calculateMatchScore_ascii (file : Finder.FileAnalysis) (keywords : list string) :
  Finder.calculateMatchScore file keywords
  = Cased.calculateMatchScore JS.toLowerCase file keywords.
Proof. reflexivity. Qed.

Lemma cased_keywordStep_score (file : Finder.FileAnalysis) (st : nat * list string)
    (keyword : string) :
  fst (Cased.keywordStep toLowerCase file st keyword)
  = fst st + Cased.keywordPoints toLowerCase file keyword.
Proof.
  unfold Cased.keywordStep, Cased.keywordPoints, Cased.namePoints, Cased.exportPoints,
    Cased.functionPoints, Cased.interfacePoints.
  rewrite !award_fold.
  destruct (JS.includes (toLowerCase (path_basename _)) keyword); simpl; [lia|].
  destruct (JS.includes (toLowerCase (Finder.relativePath file)) keyword); simpl; lia.
Qed.

Lemma cased_keywords_fold_score (file : Finder.FileAnalysis) (keywords : list string)
    (st : nat * list string) :
  fst (fold_left (Cased.keywordStep toLowerCase file) keywords st)
  = fst st + sum_list (map (Cased.keywordPoints toLowerCase file) keywords).
Proof.
  revert st. induction keywords as [|k keywords IH]; intros st; simpl; [lia|].
  rewrite IH, cased_keywordStep_score. lia.
Qed.

(** the total score is the sum over the keywords *)
Lemma cased_calculateMatchScore_sum (file : Finder.FileAnalysis) (keywords : list string) :
  fst (Cased.calculateMatchScore toLowerCase file keywords)
  = sum_list (map (Cased.keywordPoints toLowerCase file) keywords).
Proof.
  unfold Cased.calculateMatchScore.
  pose proof (cased_keywords_fold_score file keywords (0, [])) as Hsum.
  destruct (fold_left _ keywords (0, [])); simpl in *. lia.
Qed.

End CasedFacts.

(** C9 (as the code has it), for the lower-casing of the platform, whatever
    it does to letters outside A to Z. The score of a file is the sum, over
    the keywords, of the points of every tier: 10 when the keyword occurs in
    the lower-cased base name, otherwise 5 when it occurs in the lower-cased
    relative path, and on top of either 8, 6 and 6 for every export, function
    and interface name whose lower-cased form contains it. A keyword in lower
    case (one that lower-casing leaves as it is) that occurs in the base name
    when letter case is ignored (its lower-cased form occurs in the
    lower-cased name) therefore contributes 10 points, the other tiers are
    added to them, and a file scored against a list that holds such a keyword
    scores at least 10. *)
Theorem name_tier_scores_ten `{NodePath} (toLowerCase : string -> string)
    (file : Finder.FileAnalysis) (keywords : list string) (keyword : string) :
  Cased.isLowerCase toLowerCase keyword ->
  Cased.occursIgnoringCase toLowerCase keyword (path_basename (Finder.filePath file)) = true ->
  keyword ∈ keywords ->
  Cased.namePoints toLowerCase file keyword = 10
  /\ fst (Cased.calculateMatchScore toLowerCase file keywords)
     = sum_list (map (Cased.keywordPoints toLowerCase file) keywords)
  /\ Cased.keywordPoints toLowerCase file keyword
     = 10 + Cased.exportPoints toLowerCase file keyword
       + Cased.functionPoints toLowerCase file keyword
       + Cased.interfacePoints toLowerCase file keyword
  /\ 10 <= fst (Cased.calculateMatchScore toLowerCase file keywords).
Proof.
  unfold Cased.isLowerCase, Cased.occursIgnoringCase. intros Hlower Hocc Hin.
  rewrite Hlower in Hocc.
  assert (Cased.namePoints toLowerCase file keyword = 10) as Hname
    by (unfold Cased.namePoints; by rewrite Hocc).
  split; [done|]. split; [apply cased_calculateMatchScore_sum|].
  assert (Cased.keywordPoints toLowerCase file keyword
          = 10 + Cased.exportPoints toLowerCase file keyword
            + Cased.functionPoints toLowerCase file keyword
            + Cased.interfacePoints toLowerCase file keyword) as Hpoints
    by (unfold Cased.keywordPoints; by rewrite Hname).
  split; [done|]. rewrite cased_calculateMatchScore_sum.
  apply list_elem_of_split in Hin as (before & after & ->).
  rewrite map_app, sum_list_with_app. simpl. lia.
Qed.

Lemma name_tier_scores_ten_witness :
  (* the example of the claim: on ASCII names lower-casing is [JS.toLowerCase] *)
  (Cased.isLowerCase JS.toLowerCase "user"
   /\ Cased.occursIgnoringCase JS.toLowerCase "user"
        (Posix.basename (Finder.filePath Sample.userProfile)) = true
   /\ "user" ∈ ["user"]
   /\ @Cased.calculateMatchScore Posix.ops JS.toLowerCase Sample.userProfile ["user"]
      = (10, ["user"])
   /\ 10 <= fst (@Cased.calculateMatchScore Posix.ops JS.toLowerCase Sample.userProfile ["user"]))
  (* a name with capital letters outside ASCII, and a keyword in lower case *)
  /\ (Cased.isLowerCase Cased.lowerLatin1 "école"
      /\ Cased.occursIgnoringCase Cased.lowerLatin1 "école"
           (Posix.basename (Finder.filePath Cased.ecole)) = true
      /\ "école" ∈ ["école"]
      /\ ~ Cased.isLowerCase Cased.lowerLatin1 "É"
      /\ 10 <= fst (@Cased.calculateMatchScore Posix.ops Cased.lowerLatin1 Cased.ecole ["école"])).
Proof.
  assert ("user" ∈ ["user"]) as Hin by left.
  assert ("école" ∈ ["école"]) as Hin' by left.
  split.
  - split; [reflexivity|]. split; [reflexivity|]. split; [exact Hin|].
    split; [vm_compute; reflexivity|].
    exact (proj2 (proj2 (proj2
             (@name_tier_scores_ten Posix.ops JS.toLowerCase Sample.userProfile ["user"] "user"
                eq_refl eq_refl Hin)))).
  - split; [reflexivity|]. split; [vm_compute; reflexivity|]. split; [exact Hin'|].
    split; [by vm_compute|].
    refine (proj2 (proj2 (proj2
              (@name_tier_scores_ten Posix.ops Cased.lowerLatin1 Cased.ecole ["école"] "école"
                 _ _ Hin')))).
    + reflexivity.
    + vm_compute. reflexivity.
Defined.

(** C9 as stated fails for a keyword with a capital letter. The keyword
    [UserProfile.tsx] occurs in the base name of
    [src/components/UserProfile.tsx] (it is the base name), and the file
    scores 0 against it: the name is put in lower case before the test and
    the keyword is not. (On these names, which are ASCII, lower-casing is
    [JS.toLowerCase].) *)
Lemma mixed_case_keyword_scores_nothing :
  Cased.occursIgnoringCase JS.toLowerCase "UserProfile.tsx"
    (Posix.basename (Finder.filePath Sample.profileFile)) = true
  /\ JS.includes (Posix.basename (Finder.filePath Sample.profileFile)) "UserProfile.tsx" = true
  /\ Posix.basename (Finder.filePath Sample.profileFile) = "UserProfile.tsx"
  /\ @Cased.calculateMatchScore Posix.ops JS.toLowerCase Sample.profileFile ["UserProfile.tsx"]
     = (0, [])
  /\ ~ 10 <= fst (@Cased.calculateMatchScore Posix.ops JS.toLowerCase Sample.profileFile
                    ["UserProfile.tsx"]).
Proof.
  split; [vm_compute; reflexivity|]. split; [vm_compute; reflexivity|].
  split; [vm_compute; reflexivity|].
  split; [vm_compute; reflexivity|]. vm_compute. lia.
Qed.

(** * Further facts about the diff parser *)

Section ParserEvents.

Lemma lineStep_types (P : Diff.ChangedLine -> Prop) (st : nat * list Diff.ChangedLine)
    (line : string) :
  (forall n c, P (Diff.mkChangedLine n Diff.Add c)) ->
  (forall n c, P (Diff.mkChangedLine n Diff.Delete c)) ->
  Forall P (snd st) -> Forall P (snd (Diff.lineStep st line)).
Proof.
  intros Hadd Hdel Hst. destruct st as [cur acc]. unfold Diff.lineStep.
  destruct (Diff.hunkMatch line); [done|].
  destruct (JS.startsWith line "+" && negb (JS.startsWith line "+++")).
  { simpl. apply Forall_app. split; [done|]. by apply Forall_singleton. }
  destruct (JS.startsWith line "-" && negb (JS.startsWith line "---")).
  { simpl. apply Forall_app. split; [done|]. by apply Forall_singleton. }
  by destruct (JS.startsWith line " ").
Qed.

Lemma run_types (P : Diff.ChangedLine -> Prop) (lines : list string)
    (st : nat * list Diff.ChangedLine) :
  (forall n c, P (Diff.mkChangedLine n Diff.Add c)) ->
  (forall n c, P (Diff.mkChangedLine n Diff.Delete c)) ->
  Forall P (snd st) -> Forall P (snd (Unified.run st lines)).
Proof.
  intros Hadd Hdel. revert st. unfold Unified.run.
  induction lines as [|line lines IH]; intros st Hst; [done|].
  simpl. apply IH. by apply lineStep_types.
Qed.

Lemma getChangedLines_types (P : Diff.ChangedLine -> Prop) (w : World) (relativePath : string) :
  (forall n c, P (Diff.mkChangedLine n Diff.Add c)) ->
  (forall n c, P (Diff.mkChangedLine n Diff.Delete c)) ->
  Forall P (Diff.getChangedLines w relativePath).
Proof.
  intros Hadd Hdel. unfold Diff.getChangedLines.
  destruct (gitDiff w relativePath); [|done].
  by apply (run_types P _ (0, [])).
Qed.

(** a deleted line with content [c] *)
Lemma lineStep_minus (cur : nat) (acc : list Diff.ChangedLine) (c : string) :
  JS.startsWith c "--" = false ->
  Diff.lineStep (cur, acc) ("-" +:+ c) = (cur, acc ++ [Diff.mkChangedLine cur Diff.Delete c]).
Proof. intros Hc. by rewrite lineStep_deleted. Qed.

Lemma run_deleted (cur : nat) (acc : list Diff.ChangedLine) (olds : list string) :
  Forall (fun c => JS.startsWith c "--" = false) olds ->
  Unified.run (cur, acc) (map (fun c => "-" +:+ c) olds)
  = (cur, acc ++ map (Diff.mkChangedLine cur Diff.Delete) olds).
Proof.
  revert acc. induction olds as [|c olds IH]; intros acc Hall.
  - simpl. by rewrite app_nil_r.
  - apply Forall_cons in Hall as [Hc Hall]. unfold Unified.run in *. cbn [map fold_left].
    rewrite lineStep_minus by done. rewrite IH by done.
    by rewrite <- (assoc_L (++)).
Qed.

Lemma run_added (cur : nat) (acc : list Diff.ChangedLine) (news : list string) :
  Forall (fun c => JS.startsWith c "++" = false) news ->
  Unified.run (cur, acc) (map (fun c => "+" +:+ c) news)
  = (cur + length news,
     acc ++ imap (fun i c => Diff.mkChangedLine (cur + i) Diff.Add c) news).
Proof.
  revert cur acc. induction news as [|c news IH]; intros cur acc Hall.
  - simpl. by rewrite app_nil_r, Nat.add_0_r.
  - apply Forall_cons in Hall as [Hc Hall]. unfold Unified.run in *. cbn [map fold_left].
    rewrite lineStep_plus by done. rewrite IH by done.
    cbn [imap length]. rewrite <- (assoc_L (++)), Nat.add_0_r. f_equal; [lia|].
    do 2 f_equal. apply imap_ext. intros i x _. simpl. f_equal. lia.
Qed.

End ParserEvents.

(** X1. The parser never reports a line of type [modify]: every changed line it
    returns is an added or a deleted line, so the lines the block mapper keeps
    (added or modified) are exactly the added ones. *)
Theorem parser_reports_add_or_delete (w : World) (relativePath : string) :
  Forall (fun cl => Diff.type cl = Diff.Add \/ Diff.type cl = Diff.Delete)
         (Diff.getChangedLines w relativePath)
  /\ filter (fun cl => Diff.isRelevant cl = true) (Diff.getChangedLines w relativePath)
     = filter (fun cl => Diff.type cl = Diff.Add) (Diff.getChangedLines w relativePath).
Proof.
  assert (Forall (fun cl => Diff.type cl = Diff.Add \/ Diff.type cl = Diff.Delete)
                 (Diff.getChangedLines w relativePath)) as Hall.
  { apply getChangedLines_types; intros n c; [by left | by right]. }
  split; [done|].
  induction Hall as [|cl l Hcl _ IH]; [done|].
  rewrite !filter_cons, IH. unfold Diff.isRelevant.
  destruct Hcl as [-> | ->]; repeat case_decide; done.
Qed.

Section HunkFacts.

Lemma lacks_pretty (a : ascii) (n : nat) : JS.isDigit a = false -> lacks a (pretty n).
Proof. intros Ha. apply allDigits_lacks; [done | apply pretty_nat_digits]. Qed.

Lemma lacks_count (a : ascii) (c : option nat) :
  JS.isDigit a = false -> a <> ","%char -> lacks a (Unified.count c).
Proof.
  intros Ha Hc. destruct c as [k|]; [|by constructor]. unfold Unified.count.
  apply lacks_app. split; [|by apply lacks_pretty].
  apply lacks_cons. split; [congruence | by constructor].
Qed.

Lemma lacks_hunkHeader (old : nat) (oc : option nat) (new : nat) (nc : option nat)
    (section : string) :
  lacks "010"%char section ->
  lacks "010"%char (Unified.hunkHeader old oc new nc section).
Proof.
  intros Hs. unfold Unified.hunkHeader.
  repeat (apply lacks_app; split);
    try (by apply lacks_pretty); try (by apply lacks_count); try done;
    repeat (apply lacks_cons; split; [done|]); by constructor.
Qed.

Lemma lacks_minus (sep : ascii) (c : string) :
  sep <> "-"%char -> lacks sep c -> lacks sep ("-" +:+ c).
Proof. intros Hsep Hc. apply lacks_cons. split; [congruence | done]. Qed.

(** the parser's result on the lines [lines] of a diff *)
Lemma parseDiff_join (lines : list string) :
  Forall (lacks "010"%char) lines ->
  Diff.parseDiff (JS.join (String "010"%char EmptyString) lines)
  = snd (Unified.run (0, []) lines).
Proof.
  intros Hall. unfold Diff.parseDiff, Diff.parseLines.
  destruct lines as [|l lines]; [done|].
  by rewrite split_join.
Qed.

End HunkFacts.

(** X2. Line numbers inside a hunk. After a hunk header whose new-file start
    is [new], wherever the hunk stands in the diff, the deleted lines all carry
    the number [new] (the cursor does not move on a deletion), and the added
    lines that follow are numbered [new], [new + 1], ... in order; a replaced
    line is thus reported as a delete and an add with the same number. The
    cursor is then at [new] plus the number of added lines. *)
Theorem hunk_lines_are_numbered_from_start (pre post : list string)
    (old : nat) (oldCount : option nat) (new : nat) (newCount : option nat)
    (section : string) (olds news : list string) :
  Forall (lacks "010"%char) (pre ++ section :: olds ++ news ++ post) ->
  Forall (fun c => JS.startsWith c "--" = false) olds ->
  Forall (fun c => JS.startsWith c "++" = false) news ->
  Diff.parseDiff
    (JS.join (String "010"%char EmptyString)
       (pre ++ Unified.hunkHeader old oldCount new newCount section
            :: map (fun c => "-" +:+ c) olds ++ map (fun c => "+" +:+ c) news ++ post))
  = snd (Unified.run
           (new + length news,
            Diff.parseDiff (JS.join (String "010"%char EmptyString) pre)
            ++ map (Diff.mkChangedLine new Diff.Delete) olds
            ++ imap (fun i c => Diff.mkChangedLine (new + i) Diff.Add c) news)
           post).
Proof.
  intros Hall Holds Hnews.
  apply Forall_app in Hall as [Hpre Hall]. apply Forall_cons in Hall as [Hsec Hall].
  apply Forall_app in Hall as [Hlo Hall]. apply Forall_app in Hall as [Hln Hpost].
  rewrite !parseDiff_join; [|done|].
  - rewrite run_app.
    change (Unified.run ?st (?h :: ?l)) with (Unified.run (Diff.lineStep st h) l).
    rewrite lineStep_header, !run_app, run_deleted, run_added by done.
    by rewrite <- (assoc_L (++)).
  - apply Forall_app. split; [done|]. apply Forall_cons. split; [by apply lacks_hunkHeader|].
    apply Forall_app. split; [|apply Forall_app; split; [|done]].
    + apply Forall_map. eapply Forall_impl; [exact Hlo|]. intros c Hc. by apply lacks_minus.
    + apply Forall_map. eapply Forall_impl; [exact Hln|]. intros c Hc. by apply lacks_plus.
Qed.

Lemma hunk_lines_are_numbered_from_start_witness :
  let pre := ["diff --git a/src/a.ts b/src/a.ts"; "index 1111111..2222222 100644";
              "--- a/src/a.ts"; "+++ b/src/a.ts"] in
  Forall (lacks "010"%char)
         (pre ++ EmptyString :: ["  return 0;"] ++ ["  return 1;"; "  // done"] ++ [EmptyString])
  /\ Forall (fun c => JS.startsWith c "--" = false) ["  return 0;"]
  /\ Forall (fun c => JS.startsWith c "++" = false) ["  return 1;"; "  // done"]
  /\ Diff.parseDiff
       (JS.join Sample.lf
          (pre ++ ["@@ -3 +3,2 @@"; "-  return 0;"; "+  return 1;"; "+  // done"; EmptyString]))
     = [Diff.mkChangedLine 3 Diff.Delete "  return 0;";
        Diff.mkChangedLine 3 Diff.Add "  return 1;";
        Diff.mkChangedLine 4 Diff.Add "  // done"].
Proof.
  intros pre.
  assert (Forall (lacks "010"%char)
            (pre ++ EmptyString :: ["  return 0;"] ++ ["  return 1;"; "  // done"]
                 ++ [EmptyString])) as Hall
    by (repeat constructor; done).
  assert (Forall (fun c => JS.startsWith c "--" = false) ["  return 0;"]) as Holds
    by (repeat constructor).
  assert (Forall (fun c => JS.startsWith c "++" = false) ["  return 1;"; "  // done"]) as Hnews
    by (repeat constructor).
  split; [exact Hall|]. split; [exact Holds|]. split; [exact Hnews|].
  exact (hunk_lines_are_numbered_from_start pre [EmptyString] 3 None 3 (Some 2) EmptyString
           ["  return 0;"] ["  return 1;"; "  // done"] Hall Holds Hnews).
Defined.

(** * Further facts about the staged-change analysis *)

Section StagedChangeFacts.
Context `{NodePath}.

(** every file change of the loop was made by [analyzeFileChange] for a
    staged entry that passed [isSourceFile] *)
Lemma stagedLoop_made (w : World) (files : list Diff.StagedFile)
    (st st' : list Diff.FileChange * Diff.Summary) :
  Diff.stagedLoop w files st = Ok st' ->
  forall fc, fc ∈ fst st' ->
    fc ∈ fst st
    \/ exists f p, f ∈ files /\ Diff.path f = Some p /\ Diff.isSourceFile p = true
         /\ Diff.analyzeFileChange w p (Diff.status f) (path_join (rootPath w) p)
            = Ok (Some fc).
Proof.
  revert st. induction files as [|f files IH]; intros st; simpl.
  - intros [= <-] fc Hin. by left.
  - destruct (Diff.path f) as [p|] eqn:Hpath; [|done].
    destruct (Diff.isSourceFile p) eqn:Hsrc; simpl.
    + destruct (Diff.analyzeFileChange w p (Diff.status f) _) as [[fc|]|] eqn:Hfc;
        simpl; [| |done].
      * intros Hloop fc' Hin. destruct (IH _ Hloop fc' Hin) as [Hold|(f' & p' & ? & ?)].
        -- simpl in Hold.
           apply elem_of_app in Hold as [?|Hnew%list_elem_of_singleton]; [by left|].
           subst fc'. right. exists f, p. split; [left|done].
        -- right. exists f', p'. split; [by right|done].
      * intros Hloop fc' Hin. destruct (IH _ Hloop fc' Hin) as [?|(f' & p' & ? & ?)];
          [by left|]. right. exists f', p'. split; [by right|done].
    + intros Hloop fc' Hin. destruct (IH _ Hloop fc' Hin) as [?|(f' & p' & ? & ?)];
        [by left|]. right. exists f', p'. split; [by right|done].
Qed.

Lemma analyzeStagedChanges_made (w : World) (analysis : Diff.DiffAnalysis) :
  Diff.analyzeStagedChanges w = Ok analysis ->
  forall fc, fc ∈ Diff.fileChanges analysis ->
    exists status p, Diff.isSourceFile p = true
      /\ Diff.analyzeFileChange w p status (path_join (rootPath w) p) = Ok (Some fc).
Proof.
  unfold Diff.analyzeStagedChanges, Diff.analyzeEntries.
  destruct (Diff.getStagedFiles w) as [files|]; simpl; [|done].
  destruct files as [|f files]; [intros [= <-] fc Hin; by apply elem_of_nil in Hin|].
  destruct (Diff.stagedLoop w (f :: files) _) as [st'|] eqn:Hloop; simpl; [|done].
  intros [= <-] fc Hin. simpl in Hin.
  destruct (stagedLoop_made _ _ _ _ Hloop fc Hin) as [Hold|(f' & p & _ & _ & Hsrc & Hfc)].
  - by apply elem_of_nil in Hold.
  - by exists (Diff.status f'), p.
Qed.

Lemma analyzeStagedChanges_summary (w : World) (analysis : Diff.DiffAnalysis) :
  Diff.analyzeStagedChanges w = Ok analysis ->
  Diff.totalFiles analysis = length (Diff.fileChanges analysis)
  /\ Staged.summarises (Diff.summary analysis) (Diff.fileChanges analysis).
Proof.
  unfold Diff.analyzeStagedChanges, Diff.analyzeEntries.
  destruct (Diff.getStagedFiles w) as [files|]; simpl; [|done].
  destruct files as [|f files]; [by intros [= <-]|].
  destruct (Diff.stagedLoop w (f :: files) _) as [st'|] eqn:Hloop; simpl; [|done].
  intros [= <-]. split; [done|]. simpl.
  by apply (stagedLoop_spec _ _ _ _ Hloop).
Qed.

Lemma countStatus_total (changes : list Diff.FileChange) :
  Staged.countStatus Diff.Added changes + Staged.countStatus Diff.Modified changes
  + Staged.countStatus Diff.Deleted changes = length changes.
Proof.
  unfold Staged.countStatus. induction changes as [|fc changes IH]; [done|].
  rewrite !filter_cons. simpl.
  destruct (Diff.fileStatus fc); repeat case_decide; try done; simpl; lia.
Qed.

End StagedChangeFacts.

(** X3. The counts of an analysis add up: [totalFiles] is the number of file
    changes reported, each of the three summary counters is the number of
    reported changes with that status, and so [totalFiles] is the sum of
    [added], [modified] and [deleted]. Staged entries that were skipped (not a
    source file, or an empty diff) are counted nowhere. *)
Theorem total_is_sum_of_summary `{NodePath} (w : World) (analysis : Diff.DiffAnalysis) :
  Diff.analyzeStagedChanges w = Ok analysis ->
  Diff.totalFiles analysis = length (Diff.fileChanges analysis)
  /\ Diff.added (Diff.summary analysis)
     = Staged.countStatus Diff.Added (Diff.fileChanges analysis)
  /\ Diff.modified (Diff.summary analysis)
     = Staged.countStatus Diff.Modified (Diff.fileChanges analysis)
  /\ Diff.deleted (Diff.summary analysis)
     = Staged.countStatus Diff.Deleted (Diff.fileChanges analysis)
  /\ Diff.totalFiles analysis
     = Diff.added (Diff.summary analysis) + Diff.modified (Diff.summary analysis)
       + Diff.deleted (Diff.summary analysis).
Proof.
  intros Hrun. destruct (analyzeStagedChanges_summary w analysis Hrun) as (Htotal & Ha & Hm & Hd).
  repeat (split; [done|]).
  rewrite Htotal, Ha, Hm, Hd. symmetry. apply countStatus_total.
Qed.

Lemma total_is_sum_of_summary_witness :
  exists analysis,
    @Diff.analyzeStagedChanges Posix.ops Sample.staged = Ok analysis
    /\ Diff.totalFiles analysis = 1
    /\ Diff.summary analysis = Diff.mkSummary 0 1 0
    /\ Diff.totalFiles analysis
       = Diff.added (Diff.summary analysis) + Diff.modified (Diff.summary analysis)
         + Diff.deleted (Diff.summary analysis).
Proof.
  destruct (@Diff.analyzeStagedChanges Posix.ops Sample.staged) as [analysis|] eqn:Hrun;
    [|by vm_compute in Hrun].
  exists analysis. split; [done|].
  split; [by vm_compute in Hrun; injection Hrun as <-|].
  split; [by vm_compute in Hrun; injection Hrun as <-|].
  exact (proj2 (proj2 (proj2 (proj2
           (@total_is_sum_of_summary Posix.ops Sample.staged analysis Hrun))))).
Defined.

(** X4. Only source files are analysed: every file change of an analysis is
    for a staged path whose extension is [.ts], [.tsx], [.js] or [.jsx] and
    which contains neither [.test.] nor [.spec.]; its absolute path is the
    root joined with that path. Other staged files leave no trace in the
    result. *)
Theorem only_source_files_are_analysed `{NodePath} (w : World)
    (analysis : Diff.DiffAnalysis) (fc : Diff.FileChange) :
  Diff.analyzeStagedChanges w = Ok analysis ->
  fc ∈ Diff.fileChanges analysis ->
  path_extname (Diff.relativePath fc) ∈ [".ts"; ".tsx"; ".js"; ".jsx"]
  /\ JS.includes (Diff.relativePath fc) ".test." = false
  /\ JS.includes (Diff.relativePath fc) ".spec." = false
  /\ Diff.filePath fc = path_join (rootPath w) (Diff.relativePath fc).
Proof.
  intros Hrun Hin.
  destruct (analyzeStagedChanges_made w analysis Hrun fc Hin) as (status & p & Hsrc & Hfc).
  assert (Diff.relativePath fc = p /\ Diff.filePath fc = path_join (rootPath w) p) as [-> ->].
  { unfold Diff.analyzeFileChange in Hfc. case_decide.
    - by injection Hfc as <-.
    - destruct (Diff.getChangedLines w p); [done|].
      destruct (Diff.locateAffectedBlocks w _ _); simpl in Hfc; [|done].
      by injection Hfc as <-. }
  unfold Diff.isSourceFile in Hsrc.
  apply andb_true_iff in Hsrc as [Hsrc Hspec]. apply andb_true_iff in Hsrc as [Hext Htest].
  apply bool_decide_eq_true in Hext. apply negb_true_iff in Htest, Hspec. done.
Qed.

Lemma only_source_files_are_analysed_witness :
  exists analysis fc,
    @Diff.analyzeStagedChanges Posix.ops Sample.staged = Ok analysis
    /\ fc ∈ Diff.fileChanges analysis
    /\ Diff.relativePath fc = "src/widget.ts"
    /\ Posix.extname (Diff.relativePath fc) ∈ [".ts"; ".tsx"; ".js"; ".jsx"]
    /\ Diff.filePath fc = Posix.join (rootPath Sample.staged) (Diff.relativePath fc).
Proof.
  destruct (@Diff.analyzeStagedChanges Posix.ops Sample.staged) as [analysis|] eqn:Hrun;
    [|by vm_compute in Hrun].
  destruct (Diff.fileChanges analysis) as [|fc rest] eqn:Hchanges;
    [by vm_compute in Hrun; injection Hrun as <-|].
  assert (fc ∈ Diff.fileChanges analysis) as Hin by (rewrite Hchanges; left).
  exists analysis, fc. split; [done|]. split; [exact Hin|].
  split; [by vm_compute in Hrun; injection Hrun as <-; injection Hchanges as <- _|].
  pose proof (@only_source_files_are_analysed Posix.ops Sample.staged analysis fc Hrun Hin)
    as (Hext & _ & _ & Hpath).
  split; [exact Hext | exact Hpath].
Defined.

(** X5. What a file change holds depends on the status. A deleted file is
    reported with no changed lines and no affected blocks, and git is not
    asked for its diff. An added or modified file is reported only when its
    diff yields at least one changed line; its changed lines are those of
    [getChangedLines] and its blocks those of [locateAffectedBlocks] on them. *)
Theorem file_change_by_status `{NodePath} (w : World)
    (analysis : Diff.DiffAnalysis) (fc : Diff.FileChange) :
  Diff.analyzeStagedChanges w = Ok analysis ->
  fc ∈ Diff.fileChanges analysis ->
  (Diff.fileStatus fc = Diff.Deleted ->
     Diff.changedLines fc = [] /\ Diff.affectedBlocks fc = [])
  /\ (Diff.fileStatus fc <> Diff.Deleted ->
        Diff.changedLines fc = Diff.getChangedLines w (Diff.relativePath fc)
        /\ Diff.changedLines fc <> []
        /\ Diff.locateAffectedBlocks w (Diff.filePath fc) (Diff.changedLines fc)
           = Ok (Diff.affectedBlocks fc)).
Proof.
  intros Hrun Hin.
  destruct (analyzeStagedChanges_made w analysis Hrun fc Hin) as (status & p & _ & Hfc).
  unfold Diff.analyzeFileChange in Hfc. case_decide as Hst.
  - injection Hfc as <-. simpl. split; [done|]. by intros [].
  - destruct (Diff.getChangedLines w p) as [|cl cls] eqn:Hlines; [done|].
    destruct (Diff.locateAffectedBlocks w _ _) as [blocks|] eqn:Hblocks; simpl in Hfc; [|done].
    injection Hfc as <-. simpl. split; [done|]. intros _.
    by rewrite Hlines.
Qed.

Lemma file_change_by_status_witness :
  exists analysis fc,
    @Diff.analyzeStagedChanges Posix.ops Sample.staged = Ok analysis
    /\ fc ∈ Diff.fileChanges analysis
    /\ Diff.fileStatus fc <> Diff.Deleted
    /\ Diff.changedLines fc = Diff.getChangedLines Sample.staged (Diff.relativePath fc)
    /\ Diff.changedLines fc <> [].
Proof.
  destruct (@Diff.analyzeStagedChanges Posix.ops Sample.staged) as [analysis|] eqn:Hrun;
    [|by vm_compute in Hrun].
  destruct (Diff.fileChanges analysis) as [|fc rest] eqn:Hchanges;
    [by vm_compute in Hrun; injection Hrun as <-|].
  assert (fc ∈ Diff.fileChanges analysis) as Hin by (rewrite Hchanges; left).
  assert (Diff.fileStatus fc <> Diff.Deleted) as Hst
    by (by vm_compute in Hrun; injection Hrun as <-; injection Hchanges as <- _).
  exists analysis, fc. split; [done|]. split; [exact Hin|]. split; [exact Hst|].
  pose proof (proj2 (@file_change_by_status Posix.ops Sample.staged analysis fc Hrun Hin) Hst)
    as (Hlines & Hne & _).
  split; [exact Hlines | exact Hne].
Defined.

(** X6. When git cannot list the staged files the analysis fails and nothing
    else is run: with a message that contains [not a git repository] the
    error is the tool's own message, with any other message the error of git
    is passed on unchanged. *)
Theorem git_failure_is_reported `{NodePath} (w : World) (message : string) :
  gitNameStatus w = Throw message ->
  Diff.analyzeStagedChanges w
  = Throw (if JS.includes message "not a git repository"
           then "当前目录不是 Git 仓库" else message).
Proof.
  intros Hgit. unfold Diff.analyzeStagedChanges, Diff.getStagedFiles. rewrite Hgit.
  by destruct (JS.includes message "not a git repository").
Qed.

Lemma git_failure_is_reported_witness :
  gitNameStatus Sample.usedExport = Throw "fatal: not a git repository"
  /\ @Diff.analyzeStagedChanges Posix.ops Sample.usedExport = Throw "当前目录不是 Git 仓库".
Proof.
  split; [reflexivity|].
  exact (@git_failure_is_reported Posix.ops Sample.usedExport "fatal: not a git repository"
           eq_refl).
Defined.

(** * Further facts about the block mapper *)

Section LocatedFacts.

Lemma Node_induction (P : Ast.Node -> Prop) :
  (forall n, Forall P (Ast.forEachChild n) -> P n) -> forall n, P n.
Proof.
  intros Hstep. fix IH 1. intros [k nm p s e sig ini cs]. apply Hstep. simpl.
  revert cs. fix IHcs 1. intros [|c cs]; constructor; [apply IH | apply IHcs].
Qed.

(** the chain of [getDescendantAtPos] ends with the node the search started
    from, and every other node of it holds the position *)
Lemma chainAt_contains (pos : nat) (n : Ast.Node) :
  exists inner, Ast.chainAt pos n = inner ++ [n]
    /\ Forall (fun m => Ast.containsPos m pos = true) inner.
Proof.
  induction n as [n IH] using Node_induction.
  destruct n as [k nm p s e sig ini cs]. simpl in IH.
  simpl. generalize (Ast.mkNode k nm p s e sig ini cs) as n0.
  induction IH as [|c cs Hc _ IHcs]; intros n0.
  - by exists [].
  - destruct (Ast.containsPos c pos) eqn:Hpos; [|apply IHcs].
    destruct Hc as (inner & -> & Hinner). exists (inner ++ [c]). split; [done|].
    apply Forall_app. split; [done|]. by apply Forall_singleton.
Qed.

(** line feeds and line lengths add up to the length of the text *)
Lemma split_lengths (text : string) :
  sum_list (map (fun l => String.length l + 1) (JS.split "010"%char text))
  = String.length text + 1.
Proof.
  induction text as [|a text IH]; [done|]. simpl.
  destruct (Ascii.eqb a "010"); simpl; [lia|].
  destruct (JS.split "010"%char text) as [|h t]; simpl in *; lia.
Qed.

Lemma linePos_past_end (text : string) (lineNumber : nat) :
  length (JS.split "010"%char text) < lineNumber ->
  Diff.linePos text lineNumber = String.length text + 1.
Proof.
  intros Hlen. unfold Diff.linePos. rewrite take_ge by lia. apply split_lengths.
Qed.

Lemma listsOnly_more (sourceFile : Ast.SourceFile) (seen : list Diff.ChangedLine)
    (cl : Diff.ChangedLine) (b : Diff.CodeBlock) :
  Located.listsOnly sourceFile seen b -> Located.listsOnly sourceFile (seen ++ [cl]) b.
Proof.
  intros (Hne & Hnd & Hall). split; [done|]. split; [done|].
  intros n Hn. destruct (Hall n Hn) as (cl' & found & Hin & ?). exists cl', found.
  split; [apply elem_of_app; by left | done].
Qed.

Lemma blockStep_listsOnly (sourceFile : Ast.SourceFile) (seen : list Diff.ChangedLine)
    (st st' : list Diff.CodeBlock * gset string) (changedLine : Diff.ChangedLine) :
  Forall (Located.listsOnly sourceFile seen) (fst st) ->
  Diff.blockStep sourceFile st changedLine = Ok st' ->
  Forall (Located.listsOnly sourceFile (seen ++ [changedLine])) (fst st').
Proof.
  destruct st as [blocks processedBlocks]. simpl. intros Hall.
  assert (Forall (Located.listsOnly sourceFile (seen ++ [changedLine])) blocks) as Hall'.
  { eapply Forall_impl; [exact Hall|]. intros b. apply listsOnly_more. }
  assert (changedLine ∈ seen ++ [changedLine]) as Hlast.
  { apply elem_of_app. right. by apply list_elem_of_singleton. }
  unfold Diff.blockStep.
  destruct (Diff.findCodeBlockAtLine sourceFile _) as [[block|]|] eqn:Hfound; simpl; [| |done].
  2:{ by intros [= <-]. }
  pose proof (findCodeBlockAtLine_line _ _ _ Hfound) as Hline.
  case_decide as Hseen.
  - destruct (list_find (Diff.sameBlock block) blocks) as [[i existingBlock]|] eqn:Hfind.
    2:{ by intros [= <-]. }
    apply list_find_Some in Hfind as (Hi & Hsame & _).
    case_decide as Hlisted; intros [= <-]; simpl; [done|].
    apply Forall_insert; [done|].
    rewrite Forall_lookup in Hall'. destruct (Hall' i existingBlock Hi) as (Hne & Hnd & Hnums).
    split; [|split]; simpl.
    + by destruct (Diff.changedLineNumbers existingBlock).
    + apply NoDup_app. split; [done|]. split; [|apply NoDup_singleton].
      intros n Hn ->%list_elem_of_singleton. done.
    + intros n [Hn| ->%list_elem_of_singleton]%elem_of_app.
      * destruct (Hnums n Hn) as (cl & found & ? & ? & ? & ?). exists cl, found.
        repeat (split; [done|]). by apply sameBlock_pushLine.
      * exists changedLine, block. repeat (split; [done|]). by apply sameBlock_pushLine.
  - intros [= <-]. simpl. apply Forall_app. split; [done|]. apply Forall_singleton.
    unfold Located.listsOnly. rewrite Hline.
    split; [done|]. split; [apply NoDup_singleton|].
    intros n ->%list_elem_of_singleton. exists changedLine, block.
    repeat (split; [done|]). done.
Qed.

Lemma blockLoop_listsOnly (sourceFile : Ast.SourceFile) (lines seen : list Diff.ChangedLine)
    (st st' : list Diff.CodeBlock * gset string) :
  Forall (Located.listsOnly sourceFile seen) (fst st) ->
  Diff.blockLoop sourceFile lines st = Ok st' ->
  Forall (Located.listsOnly sourceFile (seen ++ lines)) (fst st').
Proof.
  revert seen st. induction lines as [|changedLine rest IH]; intros seen st Hst; simpl.
  - intros [= <-]. by rewrite app_nil_r.
  - destruct (Diff.blockStep sourceFile st changedLine) as [st1|] eqn:Hstep; simpl; [|done].
    apply (blockStep_listsOnly _ seen) in Hstep; [|done].
    intros Hloop. apply (IH (seen ++ [changedLine])) in Hloop; [|done].
    by rewrite <- (assoc_L (++)) in Hloop.
Qed.

End LocatedFacts.

(** X7. The key under which the mapper remembers a block,
    [type-name-startLine], identifies the declaration: two blocks have the
    same key exactly when they have the same type, name and start line, also
    when a name contains [-] or digits. The key test and the [find] that
    follows it therefore always agree. *)
Theorem block_key_identifies_declaration (b b' : Diff.CodeBlock) :
  Diff.blockKey b = Diff.blockKey b'
  <-> Diff.blockType b = Diff.blockType b' /\ Diff.name b = Diff.name b'
      /\ Diff.startLine b = Diff.startLine b'.
Proof.
  rewrite blockKey_sameBlock. unfold Diff.sameBlock. split.
  - by intros (-> & -> & ->).
  - by intros (-> & -> & ->).
Qed.

(** X8. Every entry of the affected-blocks list lists at least one line, lists
    no line twice, and lists only numbers of added (or modified) lines of the
    diff that the mapper places in that same declaration (same type, name and
    start line). *)
Theorem block_lists_its_changed_lines (w : World) (filePath : string)
    (sourceFile : Ast.SourceFile) (changedLines : list Diff.ChangedLine)
    (blocks : list Diff.CodeBlock) (b : Diff.CodeBlock) :
  fs w !! filePath = Some (FsFile sourceFile) ->
  Diff.locateAffectedBlocks w filePath changedLines = Ok blocks ->
  b ∈ blocks ->
  Diff.changedLineNumbers b <> []
  /\ NoDup (Diff.changedLineNumbers b)
  /\ forall n, n ∈ Diff.changedLineNumbers b ->
       Mapped.isChangedLine changedLines n
       /\ exists found,
            Diff.findCodeBlockAtLine sourceFile n = Ok (Some found)
            /\ Diff.sameBlock found b.
Proof.
  intros Hfile Hloc Hin.
  unfold Diff.locateAffectedBlocks, existsSync, addSourceFileAtPath in Hloc.
  rewrite Hfile in Hloc. rewrite bool_decide_eq_true_2 in Hloc by eauto. simpl in Hloc.
  destruct (Diff.blockLoop sourceFile _ _) as [st'|] eqn:Hloop; simpl in Hloc; [|done].
  injection Hloc as <-.
  apply (blockLoop_listsOnly _ _ []) in Hloop; [|by constructor]. simpl in Hloop.
  rewrite Forall_forall in Hloop. destruct (Hloop b Hin) as (Hne & Hnd & Hnums).
  split; [done|]. split; [done|]. intros n Hn.
  destruct (Hnums n Hn) as (cl & found & [Hcl Hrel]%list_elem_of_filter & Hnum & Hfound & Hsame).
  split; [by exists cl | by exists found].
Qed.

Lemma block_lists_its_changed_lines_witness :
  let changedLines := Diff.getChangedLines Sample.staged2 "src/widget.ts" in
  let b := Diff.mkCodeBlock Diff.KComponent "f" 1 4 "function f(): number"
             (JS.substring 0 49 Sample.widgetText) [2; 3] in
  fs Sample.staged2 !! "/p/src/widget.ts" = Some (FsFile Sample.widget)
  /\ Diff.locateAffectedBlocks Sample.staged2 "/p/src/widget.ts" changedLines = Ok [b]
  /\ b ∈ [b]
  /\ Diff.changedLineNumbers b <> []
  /\ NoDup (Diff.changedLineNumbers b)
  /\ forall n, n ∈ Diff.changedLineNumbers b ->
       Mapped.isChangedLine changedLines n
       /\ exists found,
            Diff.findCodeBlockAtLine Sample.widget n = Ok (Some found)
            /\ Diff.sameBlock found b.
Proof.
  intros changedLines b.
  assert (fs Sample.staged2 !! "/p/src/widget.ts" = Some (FsFile Sample.widget)) as Hfile
    by reflexivity.
  assert (Diff.locateAffectedBlocks Sample.staged2 "/p/src/widget.ts" changedLines = Ok [b])
    as Hloc by (vm_compute; reflexivity).
  assert (b ∈ [b]) as Hin by left.
  split; [exact Hfile|]. split; [exact Hloc|]. split; [exact Hin|].
  exact (block_lists_its_changed_lines Sample.staged2 "/p/src/widget.ts" Sample.widget
           changedLines [b] b Hfile Hloc Hin).
Defined.

(** X9. Deleted lines affect no block: when every changed line of a file is
    a deletion (and the path is not a directory), the affected-blocks list is
    empty, whether or not the file still exists. A declaration from which
    lines were only removed is never reported. *)
Theorem deleted_lines_affect_no_block (w : World) (filePath : string)
    (changedLines : list Diff.ChangedLine) :
  Forall (fun cl => Diff.type cl = Diff.Delete) changedLines ->
  fs w !! filePath <> Some FsDirectory ->
  Diff.locateAffectedBlocks w filePath changedLines = Ok [].
Proof.
  intros Hall Hdir. unfold Diff.locateAffectedBlocks, existsSync, addSourceFileAtPath.
  destruct (fs w !! filePath) as [[sf|]|] eqn:Hfile; [| done |].
  - rewrite bool_decide_eq_true_2 by eauto. simpl.
    assert (filter (fun l => Diff.isRelevant l = true) changedLines = []) as ->; [|done].
    induction Hall as [|cl l Hcl _ IH]; [done|].
    rewrite filter_cons, IH. unfold Diff.isRelevant. rewrite Hcl. by case_decide.
  - rewrite bool_decide_eq_false_2; [done|]. by intros [? ?].
Qed.

Lemma deleted_lines_affect_no_block_witness :
  let changedLines := [Diff.mkChangedLine 3 Diff.Delete "  return 0;"] in
  Forall (fun cl => Diff.type cl = Diff.Delete) changedLines
  /\ fs Sample.staged !! "/p/src/widget.ts" <> Some FsDirectory
  /\ Diff.findCodeBlockAtLine Sample.widget 3 <> Ok None
  /\ Diff.locateAffectedBlocks Sample.staged "/p/src/widget.ts" changedLines = Ok [].
Proof.
  intros changedLines.
  assert (Forall (fun cl => Diff.type cl = Diff.Delete) changedLines) as Hall
    by (repeat constructor).
  assert (fs Sample.staged !! "/p/src/widget.ts" <> Some FsDirectory) as Hdir
    by (vm_compute; discriminate).
  split; [exact Hall|]. split; [exact Hdir|]. split; [vm_compute; discriminate|].
  exact (deleted_lines_affect_no_block Sample.staged "/p/src/widget.ts" changedLines Hall Hdir).
Defined.

(** X10. The block found for a line is the innermost declaration around the
    place where the line begins. For a line of the file, the offset [pos] the
    search computes is the first offset of that line. The search returns
    nothing exactly when [pos] is outside the file or no node around [pos] is
    a declaration (a function, method, class or interface declaration or an
    arrow-function variable). A block it returns is made at the first
    declaration [n] on the way from the innermost node at [pos] outwards: no
    node inside [n] on the way is a declaration, the range of [n] (leading
    comments included) holds [pos], the block's start and end lines are those
    of [n], and the line lies between the line on which the range of [n]
    begins and the block's end line. When the search throws, a declaration is
    on the way. *)
Theorem block_is_innermost_declaration (sourceFile : Ast.SourceFile) (lineNumber : nat) :
  let text := Ast.getFullText sourceFile in
  let pos := Diff.linePos text lineNumber in
  let chain := Ast.chainAt pos (Ast.root sourceFile) in
  (1 <= lineNumber <= length (JS.split "010"%char text) ->
     Ast.lineAtPos text pos = lineNumber
     /\ forall p, p < pos -> Ast.lineAtPos text p < lineNumber)
  /\ (Diff.findCodeBlockAtLine sourceFile lineNumber = Ok None
      <-> Ast.containsPos (Ast.root sourceFile) pos = false
          \/ Forall (fun m => Located.declares m = false) chain)
  /\ (forall b,
        Diff.findCodeBlockAtLine sourceFile lineNumber = Ok (Some b) ->
        exists inner n outer,
          chain = inner ++ n :: outer
          /\ Forall (fun m => Located.declares m = false) inner
          /\ Located.declares n = true
          /\ Ast.containsPos n pos = true
          /\ Diff.startLine b = Ast.lineAtPos text (Ast.getStart n)
          /\ Diff.endLine b = Ast.lineAtPos text (Ast.getEnd n)
          /\ Diff.changedLineNumbers b = [lineNumber]
          /\ (1 <= lineNumber <= length (JS.split "010"%char text) ->
                Ast.lineAtPos text (Ast.getPos n) <= lineNumber <= Diff.endLine b))
  /\ (forall message,
        Diff.findCodeBlockAtLine sourceFile lineNumber = Throw message ->
        Ast.containsPos (Ast.root sourceFile) pos = true
        /\ exists n, n ∈ chain /\ Located.declares n = true).
Proof.
  intros text pos chain.
  assert (1 <= lineNumber <= length (JS.split "010"%char text) ->
          Ast.lineAtPos text pos = lineNumber
                    /\ forall p, p < pos -> Ast.lineAtPos text p < lineNumber) as Hpos.
  { intros Hline. by apply startsLine_spec, linePos_startsLine. }
  split; [exact Hpos|].
  pose proof (findCodeBlockAtLine_line sourceFile lineNumber) as Hline.
  unfold Diff.findCodeBlockAtLine in *. fold text pos chain in Hline |- *.
  destruct (Ast.containsPos (Ast.root sourceFile) pos) eqn:Hroot.
  2:{ split; [split; [by left | done]|]. split; [done|]. done. }
  assert (Forall (fun m => Ast.containsPos m pos = true) chain) as Hchain.
  { destruct (chainAt_contains pos (Ast.root sourceFile)) as (inner & Heq & Hinner).
    unfold chain. rewrite Heq. apply Forall_app. split; [done|]. by apply Forall_singleton. }
  pose proof (walkUp_stops text lineNumber chain) as Hstop.
  split; [|split].
  - split.
    + intros Hnone. rewrite Hnone in Hstop. by right.
    + intros [?|Hall]; [done|].
      rewrite <- (app_nil_r chain). by rewrite walkUp_skip.
  - intros b Hb. rewrite Hb in Hstop.
    destruct Hstop as (inner & n & outer & Heq & Hinner & Hn & Hs & He).
    assert (Ast.containsPos n pos = true) as Hin.
    { rewrite Forall_forall in Hchain. apply Hchain. rewrite Heq.
      apply elem_of_app. right. left. }
    exists inner, n, outer. repeat (split; [done|]). split; [by apply Hline|].
    intros [Hlineno _]%Hpos. unfold Ast.containsPos in Hin.
    apply andb_true_iff in Hin as [Hlo%Nat.leb_le Hhi%Nat.ltb_lt].
    rewrite He, <- Hlineno. split; apply lineAtPos_mono; lia.
  - intros message Hthrow. rewrite Hthrow in Hstop. done.
Qed.

(** X11. A line number beyond the last line of the file maps to no block:
    the offset computed for it lies past the end of the text. (The file read
    is the one on disk, the line numbers are those of the staged diff.) *)
Theorem line_past_end_has_no_block (sourceFile : Ast.SourceFile) (lineNumber : nat) :
  Ast.getEnd (Ast.root sourceFile) <= String.length (Ast.getFullText sourceFile) ->
  length (JS.split "010"%char (Ast.getFullText sourceFile)) < lineNumber ->
  Diff.findCodeBlockAtLine sourceFile lineNumber = Ok None.
Proof.
  intros Hend Hline. unfold Diff.findCodeBlockAtLine, Ast.containsPos.
  rewrite linePos_past_end by done.
  replace (_ <? Ast.getEnd _) with false; [by rewrite andb_false_r|].
  symmetry. apply Nat.ltb_ge. lia.
Qed.

Lemma line_past_end_has_no_block_witness :
  Ast.getEnd (Ast.root Sample.widget) <= String.length (Ast.getFullText Sample.widget)
  /\ length (JS.split "010"%char (Ast.getFullText Sample.widget)) < 6
  /\ Diff.findCodeBlockAtLine Sample.widget 4 <> Ok None
  /\ Diff.findCodeBlockAtLine Sample.widget 6 = Ok None.
Proof.
  assert (Ast.getEnd (Ast.root Sample.widget) <= String.length (Ast.getFullText Sample.widget))
    as Hend by (vm_compute; lia).
  assert (length (JS.split "010"%char (Ast.getFullText Sample.widget)) < 6) as Hline
    by (vm_compute; lia).
  split; [exact Hend|]. split; [exact Hline|]. split; [vm_compute; discriminate|].
  exact (line_past_end_has_no_block Sample.widget 6 Hend Hline).
Defined.

(** * Further facts about the dependency tracer *)

Section ResolveFacts.
Context `{NodePath}.

Lemma find_Some_split {A} (f : A -> bool) (l : list A) (x : A) :
  find f l = Some x
  <-> exists before after,
        l = before ++ x :: after /\ f x = true /\ Forall (fun y => f y = false) before.
Proof.
  split.
  - induction l as [|a l IH]; [done|]. simpl. destruct (f a) eqn:Ha.
    + intros [= <-]. by exists [], l.
    + intros (before & after & -> & Hx & Hbefore)%IH. exists (a :: before), after.
      split; [done|]. split; [done|]. by constructor.
  - intros (before & after & -> & Hx & Hbefore).
    induction Hbefore as [|y before Hy _ IH]; simpl; [by rewrite Hx | by rewrite Hy].
Qed.

Lemma find_none_iff {A} (f : A -> bool) (l : list A) :
  find f l = None <-> Forall (fun x => f x = false) l.
Proof.
  induction l as [|a l IH]; simpl; [split; [constructor|done]|].
  destruct (f a) eqn:Ha.
  - split; [done|]. intros [Hfa _]%Forall_cons. congruence.
  - rewrite IH. split; [by constructor|]. by intros [_ ?]%Forall_cons.
Qed.

Lemma localTarget_Some (w : World) (filePath : string) (importDecl : Ast.ImportDeclaration)
    (target : string) :
  Tracer.localTarget w filePath importDecl = Some target ->
  Traced.isPathSpecifier importDecl = true
  /\ Tracer.resolveImportPath w (path_dirname filePath)
       (Ast.getModuleSpecifierValue importDecl) = Some target
  /\ JS.includes target (rootPath w) = true.
Proof.
  unfold Tracer.localTarget, Traced.isPathSpecifier.
  destruct (JS.startsWith _ "."), (JS.startsWith _ "/"); simpl; try done;
    (destruct (Tracer.resolveImportPath w _ _) as [p|]; [|done]);
    (destruct (JS.includes p (rootPath w)) eqn:Hroot; [|done]); by intros [= <-].
Qed.

End ResolveFacts.

(** X12. Import resolution. With [dir] the directory of the importing file
    and [specifier] the specifier as written (for an [@/] specifier: the root
    and the specifier with [@/] replaced by [src/]), the candidates are
    [specifier] resolved against [dir] with, in this order, nothing, [.ts],
    [.tsx], [.js], [.jsx], [/index.ts], [/index.tsx], [/index.js] and
    [/index.jsx] appended. The answer is the first candidate that exists, and
    "unresolved" (not an error) exactly when none exists. In particular a
    specifier whose own path exists resolves to that path, be it a file or a
    directory, and a [.ts] file is preferred to every other extension and to
    an index file. *)
Theorem import_resolves_to_first_existing_candidate `{NodePath} (w : World)
    (currentDir moduleSpecifier : string) :
  let aliased := JS.startsWith moduleSpecifier "@/" in
  let dir := if aliased then rootPath w else currentDir in
  let specifier :=
    if aliased then "src/" +:+ JS.substringFrom 2 moduleSpecifier else moduleSpecifier in
  let candidate ext := path_resolve dir (specifier +:+ ext) in
  let extensions :=
    [EmptyString; ".ts"; ".tsx"; ".js"; ".jsx";
     "/index.ts"; "/index.tsx"; "/index.js"; "/index.jsx"] in
  (forall resolved,
     Tracer.resolveImportPath w currentDir moduleSpecifier = Some resolved
     <-> exists before ext after,
           extensions = before ++ ext :: after
           /\ resolved = candidate ext
           /\ existsSync w resolved = true
           /\ Forall (fun earlier => existsSync w (candidate earlier) = false) before)
  /\ (Tracer.resolveImportPath w currentDir moduleSpecifier = None
      <-> Forall (fun ext => existsSync w (candidate ext) = false) extensions)
  /\ (existsSync w (path_resolve dir specifier) = true ->
      Tracer.resolveImportPath w currentDir moduleSpecifier = Some (path_resolve dir specifier))
  /\ (existsSync w (path_resolve dir specifier) = false ->
      existsSync w (candidate ".ts") = true ->
      Tracer.resolveImportPath w currentDir moduleSpecifier = Some (candidate ".ts")).
Proof.
  intros aliased dir specifier candidate extensions.
  assert (Tracer.resolveImportPath w currentDir moduleSpecifier
          = find (existsSync w) (map candidate extensions)) as -> by done.
  assert (candidate EmptyString = path_resolve dir specifier) as Hexact
    by (unfold candidate; by rewrite app_empty_r).
  split; [|split; [|split]].
  - intros resolved. rewrite find_Some_split. split.
    + intros (before & after & Hmap & Hex & Hbefore).
      change map with (@fmap list _) in Hmap.
      apply fmap_app_inv in Hmap as (before' & rest & -> & Hrest & Hext).
      symmetry in Hrest. apply fmap_cons_inv in Hrest as (ext & after' & -> & -> & ->).
      exists before', ext, after'. split; [done|]. split; [done|]. split; [done|].
      by apply Forall_fmap in Hbefore.
    + intros (before & ext & after & Hext & -> & Hex & Hbefore).
      exists (map candidate before), (map candidate after). rewrite Hext, map_app.
      split; [done|]. split; [done|]. change map with (@fmap list _). by apply Forall_fmap.
  - rewrite find_none_iff. change map with (@fmap list _). by rewrite Forall_fmap.
  - intros Hex. cbn [map extensions find]. by rewrite Hexact, Hex.
  - intros Hno Hts. cbn [map extensions find]. by rewrite Hexact, Hno, Hts.
Qed.

Lemma import_resolves_to_first_existing_candidate_witness :
  (* [./ui] is a directory with an [index.ts]: the directory wins *)
  existsSync Cases.directoryImport "/p/src/ui/index.ts" = true
  /\ @Tracer.resolveImportPath Posix.ops Cases.directoryImport "/p/src" "./ui"
     = Some "/p/src/ui"
  (* [./b] is not there, [b.ts] is *)
  /\ @Tracer.resolveImportPath Posix.ops Sample.chain "/p/src" "./b" = Some "/p/src/b.ts".
Proof.
  split; [vm_compute; reflexivity|]. split.
  - apply (proj1 (proj2 (proj2 (@import_resolves_to_first_existing_candidate Posix.ops
                                  Cases.directoryImport "/p/src" "./ui")))).
    vm_compute. reflexivity.
  - apply (proj2 (proj2 (proj2 (@import_resolves_to_first_existing_candidate Posix.ops
                                  Sample.chain "/p/src" "./b")))).
    + vm_compute. reflexivity.
    + vm_compute. reflexivity.
Defined.

Section DependencyFacts.
Context `{NodePath}.

Lemma recordedFor_more (w : World) (scanned scanned' : list string) (d : DependencyInfo.t) :
  scanned `prefix_of` scanned' ->
  Traced.recordedFor w scanned d -> Traced.recordedFor w scanned' d.
Proof.
  intros [extra ->] (importer & importerSource & importDecl & Hin & Hrest).
  exists importer, importerSource, importDecl. split; [|done]. apply elem_of_app. by left.
Qed.

(** one import: the record it makes is for this file, those of the
    recursive call are for files scanned by then *)
Lemma importStep_scanning (w : World)
    (recur : string -> Ast.SourceFile -> Tracer.Trav (list DependencyInfo.t))
    (filePath : string) (sourceFile : Ast.SourceFile) (depth maxDepth : nat)
    (deps : list DependencyInfo.t) (importDecl : Ast.ImportDeclaration)
    (st st' : Tracer.TracerState) (deps' : list DependencyInfo.t) :
  (forall p sf, fs w !! p = Some (FsFile sf) ->
                Traced.scanning (fun scanned => Forall (Traced.recordedFor w scanned))
                                 (recur p sf)) ->
  fs w !! filePath = Some (FsFile sourceFile) ->
  importDecl ∈ Ast.getImportDeclarations sourceFile ->
  filePath ∈ map fst (Tracer.scans st) ->
  Forall (Traced.recordedFor w (map fst (Tracer.scans st))) deps ->
  Tracer.importStep w recur filePath depth maxDepth deps importDecl st = Some (st', Ok deps') ->
  (map fst (Tracer.scans st) `prefix_of` map fst (Tracer.scans st'))
  /\ Forall (Traced.recordedFor w (map fst (Tracer.scans st'))) deps'.
Proof.
  intros Hrec Hfile Hdecl Hscanned Hdeps. unfold Tracer.importStep.
  destruct (Tracer.localTarget w filePath importDecl) as [resolvedPath|] eqn:Htarget.
  2:{ intros [= <- <-]. by split. }
  unfold Tracer.bind at 1, Tracer.lift at 1.
  destruct (Tracer.determineFileType w resolvedPath) as [type|] eqn:Htype; [|done].
  assert (Forall (Traced.recordedFor w (map fst (Tracer.scans st)))
            (deps ++ [DependencyInfo.mk resolvedPath
                        (path_relative (rootPath w) resolvedPath) type
                        (Tracer.importedNames importDecl)])) as Hmore.
  { apply Forall_app. split; [done|]. apply Forall_singleton.
    exists filePath, sourceFile, importDecl. by repeat split. }
  destruct (depth <? maxDepth).
  2:{ intros [= <- <-]. by split. }
  unfold Tracer.bind at 1, Tracer.lift at 1, addSourceFileAtPath.
  destruct (fs w !! resolvedPath) as [[depSourceFile|]|] eqn:Hdep; [|done..].
  unfold Tracer.bind.
  destruct (recur resolvedPath depSourceFile st) as [[st1 [subDeps|e]]|] eqn:Hrun; [|done..].
  intros [= <- <-]. destruct (Hrec _ _ Hdep _ _ _ Hrun) as [Hprefix Hsub].
  split; [done|]. apply Forall_app. split; [|done].
  eapply Forall_impl; [exact Hmore|]. intros d. by apply recordedFor_more.
Qed.

Lemma foldTrav_scanning (w : World)
    (recur : string -> Ast.SourceFile -> Tracer.Trav (list DependencyInfo.t))
    (filePath : string) (sourceFile : Ast.SourceFile) (depth maxDepth : nat)
    (l : list Ast.ImportDeclaration) (deps : list DependencyInfo.t)
    (st st' : Tracer.TracerState) (deps' : list DependencyInfo.t) :
  (forall p sf, fs w !! p = Some (FsFile sf) ->
                Traced.scanning (fun scanned => Forall (Traced.recordedFor w scanned))
                                 (recur p sf)) ->
  fs w !! filePath = Some (FsFile sourceFile) ->
  (forall importDecl, importDecl ∈ l -> importDecl ∈ Ast.getImportDeclarations sourceFile) ->
  filePath ∈ map fst (Tracer.scans st) ->
  Forall (Traced.recordedFor w (map fst (Tracer.scans st))) deps ->
  Tracer.foldTrav (Tracer.importStep w recur filePath depth maxDepth) l deps st
  = Some (st', Ok deps') ->
  (map fst (Tracer.scans st) `prefix_of` map fst (Tracer.scans st'))
  /\ Forall (Traced.recordedFor w (map fst (Tracer.scans st'))) deps'.
Proof.
  intros Hrec Hfile. revert deps st.
  induction l as [|importDecl l IH]; intros deps st Hl Hscanned Hdeps; simpl.
  - intros [= <- <-]. by split.
  - unfold Tracer.bind.
    destruct (Tracer.importStep w recur filePath depth maxDepth deps importDecl st)
      as [[st1 [deps1|e]]|] eqn:Hstep; [|done..].
    destruct (importStep_scanning w recur filePath sourceFile depth maxDepth deps importDecl
                st st1 deps1 Hrec Hfile (Hl _ ltac:(left)) Hscanned Hdeps Hstep)
      as [Hprefix1 Hdeps1].
    intros Hrest. apply IH in Hrest as [Hprefix Hdeps']; [| |  |done].
    + split; [by etransitivity | done].
    + intros d Hd. apply Hl. by right.
    + destruct Hprefix1 as [extra ->]. apply elem_of_app. by left.
Qed.

Lemma analyzeDependencies_scanning (fuel : nat) (w : World) (filePath : string)
    (sourceFile : Ast.SourceFile) (depth maxDepth : nat) :
  fs w !! filePath = Some (FsFile sourceFile) ->
  Traced.scanning (fun scanned => Forall (Traced.recordedFor w scanned))
    (Tracer.analyzeDependencies fuel w filePath sourceFile depth maxDepth).
Proof.
  revert filePath sourceFile depth.
  induction fuel as [|fuel IH]; intros filePath sourceFile depth Hfile st st' deps; [done|].
  cbn [Tracer.analyzeDependencies]. unfold Tracer.bind at 1, Tracer.logCall at 1.
  destruct (maxDepth <? depth).
  { intros [= <- <-]. by split. }
  unfold Tracer.bind at 1, Tracer.visitedHas at 1. cbn [Tracer.visited].
  case_bool_decide.
  { intros [= <- <-]. by split. }
  unfold Tracer.bind at 1, Tracer.visitedAdd at 1. cbn [Tracer.visited Tracer.calls Tracer.scans].
  intros Hrun.
  eapply (foldTrav_scanning w _ filePath sourceFile) in Hrun; [| |done|done| |].
  - cbn [Tracer.scans] in Hrun. destruct Hrun as [Hprefix Hdeps]. split; [|done].
    etransitivity; [|exact Hprefix]. rewrite map_app. by apply prefix_app_r.
  - intros p sf Hp. by apply IH.
  - cbn [Tracer.scans]. rewrite map_app. apply elem_of_app. right. by left.
  - constructor.
Qed.

Lemma determineFileType_reads (w : World) (filePath : string) (type : DependencyInfo.FileType) :
  Tracer.determineFileType w filePath = Ok type ->
  exists sourceFile, fs w !! filePath = Some (FsFile sourceFile).
Proof.
  unfold Tracer.determineFileType, readFileSync.
  destruct (fs w !! filePath) as [[sf|]|]; [by eexists | done | done].
Qed.

(** lower-casing leaves no capital letter *)
Lemma lowerChar_not_upper (a : ascii) : JS.isUpper (JS.lowerChar a) = false.
Proof. by destruct a as [[] [] [] [] [] [] [] []]. Qed.

Lemma matchesUseUpper_lower (s : string) : Tracer.matchesUseUpper (JS.toLowerCase s) = false.
Proof.
  induction s as [|a s IH]; [done|].
  change (JS.toLowerCase (String a s)) with (String (JS.lowerChar a) (JS.toLowerCase s)).
  cbn [Tracer.matchesUseUpper]. rewrite IH, orb_false_r.
  destruct s as [|b [|c [|d s]]]; simpl; rewrite ?andb_false_r; try done.
  rewrite lowerChar_not_upper. by rewrite andb_false_r.
Qed.

Lemma determineFileType_not_hook (w : World) (filePath : string) :
  Tracer.determineFileType w filePath <> Ok DependencyInfo.hook.
Proof.
  unfold Tracer.determineFileType. destruct (readFileSync w filePath) as [content|]; [|done].
  simpl. rewrite matchesUseUpper_lower, andb_false_r.
  repeat match goal with |- context [if ?c then _ else _] => destruct c end; done.
Qed.

(** a traversal step that fails makes the whole loop fail *)
Lemma fails_foldTrav {X B} (f : B -> X -> Tracer.Trav B) (l : list X) (b : B) (x : X) :
  x ∈ l -> (forall b, Traced.fails (f b x)) -> Traced.fails (Tracer.foldTrav f l b).
Proof.
  intros Hin Hx. revert b. induction l as [|y l IH]; intros b; [by apply elem_of_nil in Hin|].
  simpl. intros st st' a. unfold Tracer.bind.
  destruct (f b y st) as [[st1 [b'|e]]|] eqn:Hstep; [|done..].
  apply elem_of_cons in Hin as [<-|Hin]; [by apply Hx in Hstep | by apply IH].
Qed.

Lemma importStep_directory (w : World)
    (recur : string -> Ast.SourceFile -> Tracer.Trav (list DependencyInfo.t))
    (filePath : string) (depth maxDepth : nat) (deps : list DependencyInfo.t)
    (importDecl : Ast.ImportDeclaration) (directory : string) :
  Tracer.localTarget w filePath importDecl = Some directory ->
  fs w !! directory = Some FsDirectory ->
  Traced.fails (Tracer.importStep w recur filePath depth maxDepth deps importDecl).
Proof.
  intros Htarget Hdir st st' a. unfold Tracer.importStep. rewrite Htarget.
  unfold Tracer.bind at 1, Tracer.lift at 1, Tracer.determineFileType, readFileSync.
  by rewrite Hdir.
Qed.

Lemma forwardTraversal_directory (fuel : nat) (w : World) (absolutePath directory : string)
    (sourceFile : Ast.SourceFile) (importDecl : Ast.ImportDeclaration)
    (st : Tracer.TracerState) (deps : list DependencyInfo.t) :
  importDecl ∈ Ast.getImportDeclarations sourceFile ->
  Tracer.localTarget w absolutePath importDecl = Some directory ->
  fs w !! directory = Some FsDirectory ->
  Tracer.forwardTraversal fuel w absolutePath sourceFile <> Some (st, Ok deps).
Proof.
  intros Hin Htarget Hdir. unfold Tracer.forwardTraversal.
  destruct fuel as [|fuel]; [done|].
  cbn [Tracer.analyzeDependencies Nat.ltb Nat.leb].
  unfold Tracer.bind at 1, Tracer.logCall at 1.
  unfold Tracer.bind at 1, Tracer.visitedHas at 1. simpl.
  unfold Tracer.bind at 1, Tracer.visitedAdd at 1.
  eapply fails_foldTrav; [exact Hin|]. intros b.
  by eapply importStep_directory.
Qed.

Lemma foldTrav_skips (w : World)
    (recur : string -> Ast.SourceFile -> Tracer.Trav (list DependencyInfo.t))
    (filePath : string) (depth maxDepth : nat) (l : list Ast.ImportDeclaration)
    (deps : list DependencyInfo.t) (st : Tracer.TracerState) :
  Forall (fun importDecl => Traced.isPathSpecifier importDecl = false) l ->
  Tracer.foldTrav (Tracer.importStep w recur filePath depth maxDepth) l deps st
  = Some (st, Ok deps).
Proof.
  induction 1 as [|importDecl l Hskip _ IH]; [done|]. simpl.
  unfold Tracer.bind, Tracer.importStep at 1, Tracer.localTarget.
  unfold Traced.isPathSpecifier in Hskip. apply orb_false_iff in Hskip as [-> ->]. simpl.
  exact IH.
Qed.

End DependencyFacts.

(** X13. Every record of the dependency list was made for an import
    declaration of a file the traversal scanned. For a traversal started at a
    file on disk: the record's path is what that declaration, whose specifier
    begins with [.] or [/], resolves to from the directory of the scanned
    file; it is an existing regular file whose path contains the root path;
    the record's names are the declaration's default and named imports, its
    relative path is taken from the root, and its type is what
    [determineFileType] answers for the path. Package imports and imports
    that do not resolve leave no record. *)
Theorem dependency_records_come_from_imports `{NodePath} (fuel : nat) (w : World)
    (absolutePath : string) (sourceFile : Ast.SourceFile) (st : Tracer.TracerState)
    (dependencies : list DependencyInfo.t) (d : DependencyInfo.t) :
  fs w !! absolutePath = Some (FsFile sourceFile) ->
  Tracer.forwardTraversal fuel w absolutePath sourceFile = Some (st, Ok dependencies) ->
  d ∈ dependencies ->
  (exists importer importerSource importDecl,
      importer ∈ map fst (Tracer.scans st)
      /\ fs w !! importer = Some (FsFile importerSource)
      /\ importDecl ∈ Ast.getImportDeclarations importerSource
      /\ Traced.isPathSpecifier importDecl = true
      /\ Tracer.resolveImportPath w (path_dirname importer)
           (Ast.getModuleSpecifierValue importDecl) = Some (DependencyInfo.filePath d)
      /\ DependencyInfo.imports d = Tracer.importedNames importDecl)
  /\ (exists depSourceFile, fs w !! DependencyInfo.filePath d = Some (FsFile depSourceFile))
  /\ JS.includes (DependencyInfo.filePath d) (rootPath w) = true
  /\ DependencyInfo.relativePath d = path_relative (rootPath w) (DependencyInfo.filePath d)
  /\ Tracer.determineFileType w (DependencyInfo.filePath d) = Ok (DependencyInfo.type d).
Proof.
  intros Hfile Hrun Hin.
  destruct (analyzeDependencies_scanning fuel w absolutePath sourceFile 0 3 Hfile _ _ _ Hrun)
    as [_ Hall].
  rewrite Forall_forall in Hall.
  destruct (Hall d Hin)
    as (importer & importerSource & importDecl & Hscanned & Hsrc & Hdecl & Htarget
        & Hnames & Hrel & Htype).
  destruct (localTarget_Some _ _ _ _ Htarget) as (Hpath & Hres & Hroot).
  split; [by exists importer, importerSource, importDecl|].
  split; [by eapply determineFileType_reads|]. done.
Qed.

Lemma dependency_records_come_from_imports_witness :
  exists st dependencies,
    fs Sample.chain !! "/p/src/a.ts"
    = Some (FsFile (Sample.moduleFile [Sample.named "./b" ["b"]] ["a"]))
    /\ @Tracer.forwardTraversal Posix.ops 4 Sample.chain "/p/src/a.ts"
         (Sample.moduleFile [Sample.named "./b" ["b"]] ["a"]) = Some (st, Ok dependencies)
    /\ map fst (Tracer.scans st) = ["/p/src/a.ts"; "/p/src/b.ts"; "/p/src/c.ts"]
    /\ map DependencyInfo.filePath dependencies = ["/p/src/b.ts"; "/p/src/c.ts"]
    /\ map DependencyInfo.imports dependencies = [["b"]; ["c"]]
    /\ forall d, d ∈ dependencies ->
         (exists importer importerSource importDecl,
             importer ∈ map fst (Tracer.scans st)
             /\ fs Sample.chain !! importer = Some (FsFile importerSource)
             /\ importDecl ∈ Ast.getImportDeclarations importerSource
             /\ Traced.isPathSpecifier importDecl = true
             /\ @Tracer.resolveImportPath Posix.ops Sample.chain (Posix.dirname importer)
                  (Ast.getModuleSpecifierValue importDecl) = Some (DependencyInfo.filePath d)
             /\ DependencyInfo.imports d = Tracer.importedNames importDecl)
         /\ (exists depSourceFile,
                fs Sample.chain !! DependencyInfo.filePath d = Some (FsFile depSourceFile))
         /\ JS.includes (DependencyInfo.filePath d) (rootPath Sample.chain) = true
         /\ DependencyInfo.relativePath d
            = Posix.relative (rootPath Sample.chain) (DependencyInfo.filePath d)
         /\ @Tracer.determineFileType Posix.ops Sample.chain (DependencyInfo.filePath d)
            = Ok (DependencyInfo.type d).
Proof.
  assert (fs Sample.chain !! "/p/src/a.ts"
          = Some (FsFile (Sample.moduleFile [Sample.named "./b" ["b"]] ["a"]))) as Hfile
    by (vm_compute; reflexivity).
  destruct (@Tracer.forwardTraversal Posix.ops 4 Sample.chain "/p/src/a.ts"
              (Sample.moduleFile [Sample.named "./b" ["b"]] ["a"]))
    as [[st [dependencies|]]|] eqn:Hrun; [| by vm_compute in Hrun | by vm_compute in Hrun].
  exists st, dependencies. split; [exact Hfile|]. split; [reflexivity|].
  split; [by vm_compute in Hrun; injection Hrun as <- <-|].
  split; [by vm_compute in Hrun; injection Hrun as <- <-|].
  split; [by vm_compute in Hrun; injection Hrun as <- <-|].
  intros d Hin.
  exact (@dependency_records_come_from_imports Posix.ops 4 Sample.chain "/p/src/a.ts"
           _ st dependencies d Hfile Hrun Hin).
Defined.

(** X14. No file is ever classified as a hook. The file name is put in lower
    case before it is tested against [/use[A-Z]/], which asks for a capital
    letter, so the first branch of [determineFileType] is never taken; files
    such as [useAuth.ts] fall through to the later branches. *)
Theorem hook_type_is_never_assigned `{NodePath} (w : World) (filePath : string) :
  Tracer.matchesUseUpper (JS.toLowerCase (path_basename filePath)) = false
  /\ Tracer.determineFileType w filePath <> Ok DependencyInfo.hook.
Proof. split; [apply matchesUseUpper_lower | apply determineFileType_not_hook]. Qed.

(** X15. An import that resolves to a directory fails the whole query. When
    a file imports [./ui] and [ui] is a directory (its exact path exists, so
    it wins over [ui/index.ts]), classifying the resolved path reads a
    directory and throws; nothing catches it, so the forward traversal and
    with it [analyzeImpact] end in an error, whatever the other imports are. *)
Theorem directory_import_fails_the_query `{NodePath} (extra : nat) (w : World)
    (absolutePath directory : string) (sourceFile : Ast.SourceFile)
    (importDecl : Ast.ImportDeclaration) :
  path_isAbsolute absolutePath = true ->
  fs w !! absolutePath = Some (FsFile sourceFile) ->
  importDecl ∈ Ast.getImportDeclarations sourceFile ->
  Tracer.localTarget w absolutePath importDecl = Some directory ->
  fs w !! directory = Some FsDirectory ->
  (exists st message,
      Tracer.forwardTraversal (4 + extra) w absolutePath sourceFile
      = Some (st, Throw message))
  /\ exists message, Tracer.analyzeImpact (4 + extra) w absolutePath = Some (Throw message).
Proof.
  intros Habs Hfile Hin Htarget Hdir.
  assert (exists st message,
             Tracer.forwardTraversal (4 + extra) w absolutePath sourceFile
             = Some (st, Throw message)) as Hthrow.
  { destruct (analyzeDependencies_terminates (4 + extra) w absolutePath sourceFile 0 3
                (Nat.lt_0_succ _) (le_n_S _ _ (Nat.le_add_r 3 extra)) Tracer.cleared)
      as [[st [deps|message]] Hrun].
    - by destruct (forwardTraversal_directory (4 + extra) w absolutePath directory sourceFile
                     importDecl st deps Hin Htarget Hdir).
    - by exists st, message. }
  split; [exact Hthrow|]. destruct Hthrow as (st & message & Hrun).
  exists message. unfold Tracer.analyzeImpact, existsSync, addSourceFileAtPath.
  rewrite Habs, Hfile. rewrite bool_decide_eq_true_2 by eauto. simpl negb. cbv iota.
  by rewrite Hrun.
Qed.

Lemma directory_import_fails_the_query_witness :
  let a := Sample.moduleFile [Sample.named "./ui" ["Button"]] [] in
  Posix.isAbsolute "/p/src/a.ts" = true
  /\ fs Cases.directoryImport !! "/p/src/a.ts" = Some (FsFile a)
  /\ Sample.named "./ui" ["Button"] ∈ Ast.getImportDeclarations a
  /\ @Tracer.localTarget Posix.ops Cases.directoryImport "/p/src/a.ts"
       (Sample.named "./ui" ["Button"]) = Some "/p/src/ui"
  /\ fs Cases.directoryImport !! "/p/src/ui" = Some FsDirectory
  /\ is_Some (fs Cases.directoryImport !! "/p/src/ui/index.ts")
  /\ exists message,
       @Tracer.analyzeImpact Posix.ops 4 Cases.directoryImport "/p/src/a.ts"
       = Some (Throw message).
Proof.
  intros a.
  assert (Sample.named "./ui" ["Button"] ∈ Ast.getImportDeclarations a) as Hin by left.
  split; [reflexivity|]. split; [reflexivity|]. split; [exact Hin|].
  split; [vm_compute; reflexivity|]. split; [reflexivity|]. split; [by eexists|].
  exact (proj2 (@directory_import_fails_the_query Posix.ops 0 Cases.directoryImport
                  "/p/src/a.ts" "/p/src/ui" a (Sample.named "./ui" ["Button"])
                  eq_refl eq_refl Hin eq_refl eq_refl)).
Defined.

(** X16. Imports of packages and aliases are not followed. When no import of
    the target begins with [.] or [/] (so also when they begin with [@/],
    which the resolver would map into [src]), the forward traversal scans the
    target alone and the dependency list is empty. *)
Theorem non_path_imports_are_not_followed `{NodePath} (fuel : nat) (w : World)
    (absolutePath : string) (sourceFile : Ast.SourceFile) :
  Forall (fun importDecl => Traced.isPathSpecifier importDecl = false)
         (Ast.getImportDeclarations sourceFile) ->
  exists st,
    Tracer.forwardTraversal (S fuel) w absolutePath sourceFile = Some (st, Ok [])
    /\ Tracer.scans st = [(absolutePath, 0)].
Proof.
  intros Hall. unfold Tracer.forwardTraversal.
  cbn [Tracer.analyzeDependencies Nat.ltb Nat.leb].
  unfold Tracer.bind at 1, Tracer.logCall at 1.
  unfold Tracer.bind at 1, Tracer.visitedHas at 1. simpl.
  unfold Tracer.bind at 1, Tracer.visitedAdd at 1.
  rewrite bool_decide_eq_false_2 by apply not_elem_of_empty. cbv beta iota.
  rewrite foldTrav_skips by done. by eexists.
Qed.

Lemma non_path_imports_are_not_followed_witness :
  let a := Sample.moduleFile
             [Sample.named "@/t" ["t"]; Ast.mkImport "react" (Some "React") []] [] in
  Forall (fun importDecl => Traced.isPathSpecifier importDecl = false)
         (Ast.getImportDeclarations a)
  /\ @Tracer.resolveImportPath Posix.ops Cases.aliasImport "/p/src" "@/t" = Some "/p/src/t.ts"
  /\ exists st,
       @Tracer.forwardTraversal Posix.ops 4 Cases.aliasImport "/p/src/a.ts" a
       = Some (st, Ok [])
       /\ Tracer.scans st = [("/p/src/a.ts", 0)].
Proof.
  intros a.
  assert (Forall (fun importDecl => Traced.isPathSpecifier importDecl = false)
                 (Ast.getImportDeclarations a)) as Hall by (repeat constructor).
  split; [exact Hall|]. split; [vm_compute; reflexivity|].
  exact (@non_path_imports_are_not_followed Posix.ops 3 Cases.aliasImport "/p/src/a.ts" a Hall).
Defined.

Section DependentFacts.
Context `{NodePath}.

(** the loop of the reverse scan goes through the listing once, in order *)
Lemma dependentsLoop_order (w : World) (targetPath : string) (files : list string)
    (acc out : list DependentInfo.t) :
  Tracer.dependentsLoop w targetPath files acc = Ok out ->
  exists more,
    out = acc ++ more
    /\ (map DependentInfo.filePath more `sublist_of` files)
    /\ Forall (fun d => DependentInfo.filePath d <> targetPath
                        /\ DependentInfo.importedItems d <> []
                        /\ 1 <= DependentInfo.usageCount d
                        /\ DependentInfo.relativePath d
                           = path_relative (rootPath w) (DependentInfo.filePath d)) more.
Proof.
  revert acc. induction files as [|file files IH]; intros acc; simpl.
  - intros [= <-]. exists []. by rewrite app_nil_r.
  - case_decide as Htarget.
    + intros Hloop. destruct (IH _ Hloop) as (more & -> & Hsub & Hall).
      exists more. split; [done|]. split; [by apply sublist_cons | done].
    + unfold addSourceFileAtPath.
      destruct (fs w !! file) as [[sf|]|] eqn:Hfile; simpl; [|done..].
      rewrite countImport_fold. simpl.
      destruct (flat_map (Walk.importsFrom w file targetPath) (Ast.getImportDeclarations sf))
        as [|n names] eqn:Hnames.
      * intros Hloop. destruct (IH _ Hloop) as (more & -> & Hsub & Hall).
        exists more. split; [done|]. split; [by apply sublist_cons | done].
      * intros Hloop. destruct (IH _ Hloop) as (more & -> & Hsub & Hall).
        eexists (_ :: more). split; [by rewrite <- (assoc_L (++))|].
        split; [simpl; by apply sublist_skip|].
        constructor; [|done]. simpl. repeat split; [done | done | lia].
Qed.

End DependentFacts.

(** X17. The dependents of a target follow the file listing: their paths
    are a sub-sequence of the listing (same order, no file more often than the
    listing has it), the target itself is never among them, and each one
    brings in at least one name, has a usage count of at least 1, and has its
    relative path taken from the root. *)
Theorem dependents_follow_the_listing `{NodePath} (w : World) (targetPath : string)
    (dependents : list DependentInfo.t) :
  Tracer.analyzeDependents w targetPath = Ok dependents ->
  (map DependentInfo.filePath dependents `sublist_of` globbyFiles w)
  /\ (targetPath ∉ map DependentInfo.filePath dependents)
  /\ (NoDup (globbyFiles w) -> NoDup (map DependentInfo.filePath dependents))
  /\ Forall (fun d => DependentInfo.importedItems d <> []
                      /\ 1 <= DependentInfo.usageCount d
                      /\ DependentInfo.relativePath d
                         = path_relative (rootPath w) (DependentInfo.filePath d))
            dependents.
Proof.
  intros Hrun.
  destruct (dependentsLoop_order w targetPath (globbyFiles w) [] dependents Hrun)
    as (more & -> & Hsub & Hall). simpl.
  split; [done|]. split; [|split].
  - intros (d & Hd & Hin)%list_elem_of_fmap. rewrite Forall_forall in Hall.
    by destruct (Hall d Hin) as (Hne & _).
  - intros Hnd. by eapply sublist_NoDup.
  - eapply Forall_impl; [exact Hall|]. by intros d (_ & ? & ? & ?).
Qed.

Lemma dependents_follow_the_listing_witness :
  exists dependents,
    @Tracer.analyzeDependents Posix.ops Sample.chain "/p/src/b.ts" = Ok dependents
    /\ map DependentInfo.filePath dependents = ["/p/src/a.ts"]
    /\ (map DependentInfo.filePath dependents `sublist_of` globbyFiles Sample.chain)
    /\ ("/p/src/b.ts" ∉ map DependentInfo.filePath dependents).
Proof.
  destruct (@Tracer.analyzeDependents Posix.ops Sample.chain "/p/src/b.ts")
    as [dependents|] eqn:Hrun; [|by vm_compute in Hrun].
  exists dependents. split; [done|].
  split; [by vm_compute in Hrun; injection Hrun as <-|].
  pose proof (@dependents_follow_the_listing Posix.ops Sample.chain "/p/src/b.ts"
                dependents Hrun) as (Hsub & Hself & _).
  split; [exact Hsub | exact Hself].
Defined.

(** X18. Imports that bring in no name are invisible to the reverse scan. A
    file all of whose imports of the target have neither a default import nor
    named imports (a namespace import [import * as t], a side-effect import)
    is not among the dependents of the target. *)
Theorem nameless_imports_make_no_dependent `{NodePath} (w : World)
    (targetPath file : string) (sourceFile : Ast.SourceFile)
    (dependents : list DependentInfo.t) :
  Tracer.analyzeDependents w targetPath = Ok dependents ->
  fs w !! file = Some (FsFile sourceFile) ->
  Forall (fun importDecl =>
            Tracer.resolveImportPath w (path_dirname file)
              (Ast.getModuleSpecifierValue importDecl) = Some targetPath ->
            Ast.getDefaultImport importDecl = None /\ Ast.getNamedImports importDecl = [])
         (Ast.getImportDeclarations sourceFile) ->
  file ∉ map DependentInfo.filePath dependents.
Proof.
  intros Hrun Hfile Hall (d & Hd & Hin)%list_elem_of_fmap.
  apply (dependentsLoop_spec _ _ _ _ _ Hrun) in Hin
    as [[]%elem_of_nil|(file' & sf & _ & _ & Hfile' & Hnames & ->)].
  simpl in Hd. subst file'. rewrite Hfile in Hfile'. injection Hfile' as <-.
  apply Hnames. unfold Walk.namesFrom.
  induction Hall as [|importDecl l Hdecl _ IH]; [done|]. simpl. rewrite IH.
  unfold Walk.importsFrom. case_decide as Hres; [|done].
  destruct (Hdecl Hres) as [Hdefault Hnamed]. unfold Tracer.importedNames.
  by rewrite Hdefault, Hnamed.
Qed.

Lemma nameless_imports_make_no_dependent_witness :
  let n := Sample.moduleFile [Ast.mkImport "./t" None []; Ast.mkImport "./t" None []] [] in
  @Tracer.analyzeDependents Posix.ops Cases.namespaceImport "/p/src/t.ts" = Ok []
  /\ fs Cases.namespaceImport !! "/p/src/n.ts" = Some (FsFile n)
  /\ @Tracer.resolveImportPath Posix.ops Cases.namespaceImport "/p/src" "./t"
     = Some "/p/src/t.ts"
  /\ ("/p/src/n.ts" ∉ map DependentInfo.filePath ([] : list DependentInfo.t)).
Proof.
  intros n.
  assert (@Tracer.analyzeDependents Posix.ops Cases.namespaceImport "/p/src/t.ts" = Ok [])
    as Hrun by (vm_compute; reflexivity).
  split; [exact Hrun|]. split; [reflexivity|]. split; [vm_compute; reflexivity|].
  refine (@nameless_imports_make_no_dependent Posix.ops Cases.namespaceImport
            "/p/src/t.ts" "/p/src/n.ts" n [] Hrun eq_refl _).
  repeat constructor.
Defined.

(** * Further facts about the marker search *)

Section FollowedFacts.

Lemma visit_first (sourceFile : Ast.SourceFile) (line : nat)
    (seen : list (Ast.Node * Ast.Node)) (st : option Hydrator.FoundBlock * option nat)
    (np : Ast.Node * Ast.Node) :
  Marker.nearest sourceFile line seen st ->
  Followed.first sourceFile line seen (fst st) ->
  Followed.first sourceFile line (seen ++ [np])
                 (fst (Hydrator.visit (Ast.getFullText sourceFile) line st np)).
Proof.
  destruct np as [n parent]. destruct st as [found minDistance].
  intros Hnear Hfirst.
  assert (Followed.first sourceFile line (seen ++ [(n, parent)]) found) as Hkeep.
  { destruct found as [b|]; [|done].
    destruct Hfirst as (before & p & after & -> & Hrest).
    exists before, p, (after ++ [(n, parent)]). split; [|done].
    by rewrite <- (assoc_L (++)). }
  unfold Hydrator.visit. cbn [fst snd].
  fold (Marker.startLineOf sourceFile n).
  destruct (Nat.ltb_spec line (Marker.startLineOf sourceFile n)) as [Hafter|]; cbn [andb];
    [|done].
  destruct (Hydrator.closer _ minDistance) eqn:Hcloser; [|done].
  destruct (Hydrator.classify n parent) as [[blockType blockName]|] eqn:Hclass; [|done].
  cbn [fst]. exists seen, parent, []. cbn [Hydrator.node Hydrator.type Hydrator.name
    Hydrator.code Hydrator.endLine Hydrator.startLine].
  repeat (split; [done|]).
  apply Forall_forall. intros [m p] Hin Hfol. cbn [fst] in *.
  unfold Marker.nearest in Hnear. cbn [fst snd] in Hnear.
  destruct found as [b|].
  - destruct Hnear as (Hmin & _ & _ & [_ Hb] & Hleast). subst minDistance.
    simpl in Hcloser. apply Nat.ltb_lt in Hcloser.
    specialize (Hleast m p Hin Hfol). lia.
  - destruct Hnear as [_ Hnone]. destruct (Hnone m p Hin Hfol).
Qed.

Lemma fold_visit_first (sourceFile : Ast.SourceFile) (line : nat)
    (todo seen : list (Ast.Node * Ast.Node)) (st : option Hydrator.FoundBlock * option nat) :
  Marker.nearest sourceFile line seen st ->
  Followed.first sourceFile line seen (fst st) ->
  Followed.first sourceFile line (seen ++ todo)
    (fst (fold_left (Hydrator.visit (Ast.getFullText sourceFile) line) todo st)).
Proof.
  revert seen st. induction todo as [|np todo IH]; intros seen st Hnear Hfirst; simpl.
  - by rewrite app_nil_r.
  - rewrite cons_middle, (assoc_L (++) seen [np] todo).
    apply IH; [by apply visit_nearest | by apply visit_first].
Qed.

End FollowedFacts.

(** X19. Which node the marker search returns, and what it records. The
    block is made from one node of the traversal (every descendant of the
    file, parents before children, in source order): its type and name are
    those of the node's kind (an arrow function takes the name of the variable
    it initialises, else none), its code is the node's text, its start and end
    lines those of the node. Accepted nodes after the marker that come earlier
    in the traversal start on a later line, those that come later start on the
    same line or later: among the nearest nodes the first one visited wins, so
    an enclosing node wins over a nested one that starts on the same line. *)
Theorem following_block_is_first_of_the_nearest (sourceFile : Ast.SourceFile) (line : nat) :
  let text := Ast.getFullText sourceFile in
  match Hydrator.findFollowingCodeBlock sourceFile line with
  | Some b =>
      exists before parent after,
        Ast.descendants (Ast.root sourceFile) = before ++ (Hydrator.node b, parent) :: after
        /\ Hydrator.classify (Hydrator.node b) parent = Some (Hydrator.type b, Hydrator.name b)
        /\ Hydrator.code b = Ast.getText text (Hydrator.node b)
        /\ Hydrator.startLine b = Ast.lineAtPos text (Ast.getStart (Hydrator.node b))
        /\ Hydrator.endLine b = Ast.lineAtPos text (Ast.getEnd (Hydrator.node b))
        /\ line < Hydrator.startLine b
        /\ Forall (fun np => Marker.follows sourceFile line (fst np) ->
                             Hydrator.startLine b < Marker.startLineOf sourceFile (fst np))
                  before
        /\ Forall (fun np => Marker.follows sourceFile line (fst np) ->
                             Hydrator.startLine b <= Marker.startLineOf sourceFile (fst np))
                  after
  | None =>
      Forall (fun np => ~ Marker.follows sourceFile line (fst np))
             (Ast.descendants (Ast.root sourceFile))
  end.
Proof.
  intros text. unfold Hydrator.findFollowingCodeBlock.
  set (nodes := Ast.descendants (Ast.root sourceFile)).
  assert (Marker.nearest sourceFile line [] (None, None)) as Hstart.
  { split; [done|]. by intros n parent ?%elem_of_nil. }
  pose proof (fold_visit_nearest sourceFile line nodes [] (None, None) Hstart) as Hnear.
  pose proof (fold_visit_first sourceFile line nodes [] (None, None) Hstart I) as Hfirst.
  rewrite app_nil_l in Hnear, Hfirst. unfold Marker.nearest in Hnear.
  fold text in Hnear, Hfirst |- *.
  destruct (fold_left _ nodes (None, None)) as [[b|] minDistance]; cbn [fst snd] in *.
  - destruct Hnear as (_ & _ & Hsl & [_ Hafter] & Hleast).
    destruct Hfirst as (before & parent & after & Heq & Hclass & Hcode & Hend & Hbefore).
    exists before, parent, after. repeat (split; [done|]).
    split; [by rewrite Hsl|]. split; [done|].
    apply Forall_forall. intros [m p] Hin Hfol. apply (Hleast m p); [|done].
    rewrite Heq. apply elem_of_app. right. by right.
  - destruct Hnear as [_ Hnone]. apply Forall_forall. intros [m p] Hin. by apply (Hnone m p).
Qed.

(** * Further facts about the scorer *)

Section MatchedFacts.
Context `{NodePath}.

Lemma dedupe_fold (l acc : list string) :
  NoDup acc ->
  NoDup (fold_left (fun acc k => if decide (k ∈ acc) then acc else acc ++ [k]) l acc)
  /\ forall k, k ∈ fold_left (fun acc k => if decide (k ∈ acc) then acc else acc ++ [k]) l acc
               <-> k ∈ acc \/ k ∈ l.
Proof.
  revert acc. induction l as [|x l IH]; intros acc Hnd; simpl.
  - split; [done|]. intros k. split; [by left|]. by intros [?|?%elem_of_nil].
  - case_decide as Hx.
    + destruct (IH acc Hnd) as [Hnd' Hin]. split; [done|]. intros k. rewrite Hin.
      rewrite elem_of_cons. split.
      * intros [?|?]; [by left | right; by right].
      * intros [?|[->|?]]; [by left | by left | by right].
    + destruct (IH (acc ++ [x])) as [Hnd' Hin].
      { apply NoDup_app. split; [done|]. split; [|apply NoDup_singleton].
        by intros k Hk ->%list_elem_of_singleton. }
      split; [done|]. intros k. rewrite Hin, elem_of_app, list_elem_of_singleton, elem_of_cons.
      split.
      * intros [[?|?]|?]; [by left | right; by left | right; by right].
      * intros [?|[?|?]]; [left; by left | left; by right | by right].
Qed.

Lemma dedupe_spec (l : list string) :
  NoDup (Finder.dedupe l) /\ forall k, k ∈ Finder.dedupe l <-> k ∈ l.
Proof.
  destruct (dedupe_fold l [] (NoDup_nil_2)) as [Hnd Hin]. split; [done|].
  intros k. unfold Finder.dedupe. rewrite Hin. split; [by intros [?%elem_of_nil|?] | by right].
Qed.

Lemma award_fold_keywords {X} (hit : X -> bool) (points : nat) (keyword : string) (l : list X)
    (st : nat * list string) :
  snd (fold_left (fun acc x => Finder.award (hit x) points keyword acc) l st)
  = snd st ++ replicate (Score.countHits hit l) keyword.
Proof.
  revert st. unfold Score.countHits.
  induction l as [|x l IH]; intros st; simpl; [by rewrite app_nil_r|].
  rewrite IH, filter_cons. unfold Finder.award.
  destruct (hit x); simpl; [|done]. by rewrite <- (assoc_L (++)).
Qed.

Lemma keywordStep_keywords (file : Finder.FileAnalysis) (st : nat * list string)
    (keyword : string) :
  snd (Finder.keywordStep file st keyword)
  = snd st ++ replicate (Followed.hits file keyword) keyword.
Proof.
  unfold Finder.keywordStep, Followed.hits.
  rewrite !award_fold_keywords, !replicate_add, <- !(assoc_L (++)).
  destruct (JS.includes (JS.toLowerCase (path_basename _)) keyword);
    [simpl; by rewrite <- (assoc_L (++))|].
  destruct (JS.includes (JS.toLowerCase (Finder.relativePath file)) keyword); simpl; [|done].
  by rewrite <- (assoc_L (++)).
Qed.

Lemma keywords_fold_keywords (file : Finder.FileAnalysis) (keywords : list string)
    (st : nat * list string) (k : string) :
  k ∈ snd (fold_left (Finder.keywordStep file) keywords st)
  <-> k ∈ snd st \/ (k ∈ keywords /\ 0 < Followed.hits file k).
Proof.
  revert st. induction keywords as [|x keywords IH]; intros st; simpl.
  - split; [by left|]. by intros [?|[?%elem_of_nil _]].
  - rewrite IH, keywordStep_keywords, elem_of_app, elem_of_replicate, elem_of_cons. split.
    + intros [[?|[-> Hhits]]|[? ?]]; [by left | right | right; by auto].
      split; [by left | lia].
    + intros [?|[[->|?] Hhits]]; [by auto | | by auto].
      left. right. split; [done | lia].
Qed.

Lemma hits_points (file : Finder.FileAnalysis) (keyword : string) :
  0 < Followed.hits file keyword <-> 0 < Score.keywordPoints file keyword.
Proof.
  unfold Followed.hits, Score.keywordPoints, Score.namePoints, Score.exportPoints,
    Score.functionPoints, Score.interfacePoints.
  destruct (JS.includes (JS.toLowerCase (path_basename _)) keyword); [lia|].
  destruct (JS.includes (JS.toLowerCase (Finder.relativePath file)) keyword); lia.
Qed.

End MatchedFacts.

(** X20. The matched keywords of a file are the keywords that earn it
    points: a keyword is listed exactly when it is one of the keywords given
    and at least one tier (file name, path, an export, a function or an
    interface name) contains it; no keyword is listed twice, however many
    tiers it hits and however often it was given; and the list is empty
    exactly when the score is 0. *)
Theorem matched_keywords_are_those_that_score `{NodePath} (file : Finder.FileAnalysis)
    (keywords : list string) :
  let score := fst (Finder.calculateMatchScore file keywords) in
  let matchedKeywords := snd (Finder.calculateMatchScore file keywords) in
  NoDup matchedKeywords
  /\ (forall k, k ∈ matchedKeywords <-> k ∈ keywords /\ 0 < Score.keywordPoints file k)
  /\ (matchedKeywords = [] <-> score = 0).
Proof.
  intros score matchedKeywords.
  assert (forall k, k ∈ matchedKeywords <-> k ∈ keywords /\ 0 < Score.keywordPoints file k)
    as Hin.
  { intros k. unfold matchedKeywords, Finder.calculateMatchScore.
    pose proof (keywords_fold_keywords file keywords (0, []) k) as Hfold.
    destruct (fold_left _ keywords (0, [])) as [s pushed]; simpl in *.
    rewrite (proj2 (dedupe_spec pushed)), Hfold, hits_points.
    split; [by intros [?%elem_of_nil|?] | by right]. }
  split; [|split; [done|]].
  - unfold matchedKeywords, Finder.calculateMatchScore.
    destruct (fold_left _ keywords (0, [])) as [s pushed]; simpl. apply dedupe_spec.
  - unfold score. rewrite calculateMatchScore_sum. split.
    + intros Hnil.
      assert (Forall (fun k => Score.keywordPoints file k = 0) keywords) as Hzero.
      { apply Forall_forall. intros k Hk.
        destruct (Score.keywordPoints file k) eqn:Hp; [done|]. exfalso.
        assert (k ∈ matchedKeywords) as Hk' by (apply Hin; split; [done | lia]).
        rewrite Hnil in Hk'. by apply elem_of_nil in Hk'. }
      clear -Hzero. induction Hzero as [|k l Hk _ IH]; [done|]. simpl. by rewrite Hk, IH.
    + intros Hsum. destruct matchedKeywords as [|k rest] eqn:Hm; [done|]. exfalso.
      assert (k ∈ keywords /\ 0 < Score.keywordPoints file k) as [Hk Hpos]
        by (apply Hin; left).
      apply list_elem_of_split in Hk as (before & after & ->).
      rewrite map_app, sum_list_with_app in Hsum. simpl in Hsum. lia.
Qed.

(** * The preview of a file *)

Section PreviewFacts.

Lemma join_cons (sep p : string) (rest : list string) :
  rest <> [] -> JS.join sep (p :: rest) = p +:+ sep +:+ JS.join sep rest.
Proof. by destruct rest. Qed.

(** joining the fields of a split gives the text back *)
Lemma join_split (sep : ascii) (s : string) :
  JS.join (String sep EmptyString) (JS.split sep s) = s.
Proof.
  induction s as [|a s IH]; [done|]. simpl.
  destruct (Ascii.eqb_spec a sep) as [->|Hne].
  - rewrite join_cons by apply split_nonempty. by rewrite IH.
  - pose proof (split_nonempty sep s) as Hsplit.
    destruct (JS.split sep s) as [|h t]; [done|].
    destruct t as [|h' t]; simpl in *; by rewrite <- IH.
Qed.

Lemma join_app (sep : string) (l1 l2 : list string) :
  l1 <> [] -> l2 <> [] ->
  JS.join sep (l1 ++ l2) = JS.join sep l1 +:+ sep +:+ JS.join sep l2.
Proof.
  intros Hl1 Hl2. induction l1 as [|p l1 IH]; [done|].
  destruct l1 as [|p' l1].
  - simpl app. by rewrite join_cons.
  - change ((p :: p' :: l1) ++ l2) with (p :: (p' :: l1) ++ l2).
    rewrite join_cons by done. rewrite IH by done.
    rewrite (join_cons sep p (p' :: l1)) by done.
    by rewrite !app_assoc_str.
Qed.

End PreviewFacts.

(** X21. The preview of a file. A file of at most 50 lines is returned as
    it is, character for character (splitting at line feeds and joining again
    loses nothing). A longer file is cut after its 50th line, without the line
    feed that ends it, and followed by an empty line and the note
    [// ... N more lines], where N is the number of lines left out (the empty
    field after a final line feed counts as a line); the preview is then a
    proper prefix of the text. *)
Theorem key_code_is_first_fifty_lines (sourceFile : Ast.SourceFile) :
  let text := Ast.getFullText sourceFile in
  let lines := JS.split "010"%char text in
  JS.join Sample.lf lines = text
  /\ (length lines <= 50 -> Preview.extractKeyCode sourceFile = text)
  /\ (50 < length lines ->
        Preview.extractKeyCode sourceFile
        = JS.join Sample.lf (take 50 lines) +:+ Sample.lf +:+ Sample.lf +:+ "// ... "
          +:+ pretty (length lines - 50) +:+ " more lines"
        /\ text = JS.join Sample.lf (take 50 lines) +:+ Sample.lf
                  +:+ JS.join Sample.lf (drop 50 lines)).
Proof.
  intros text lines. unfold Preview.extractKeyCode. fold text lines.
  assert (JS.join Sample.lf lines = text) as Hjoin by apply join_split.
  split; [done|]. split.
  - intros Hshort. rewrite (proj2 (Nat.ltb_ge _ _)) by done.
    by rewrite take_ge.
  - intros Hlong. rewrite (proj2 (Nat.ltb_lt _ _)) by done. split; [done|].
    rewrite <- Hjoin at 1. rewrite <- (take_drop 50 lines) at 1.
    apply join_app.
    + intros Hnil. apply (f_equal length) in Hnil. rewrite length_take in Hnil. cbn [length] in Hnil. lia.
    + intros Hnil. apply (f_equal length) in Hnil. rewrite length_drop in Hnil. cbn [length] in Hnil. lia.
Qed.

(** * The ranking of the context finder *)

Section SortFacts.
Context {A : Type} (key : A -> nat).

Lemma insertDescending_perm (x : A) (l : list A) :
  FinderContext.insertDescending key x l ≡ₚ x :: l.
Proof.
  induction l as [|y l IH]; [done|]. simpl.
  destruct (key y <? key x); [done|]. rewrite IH. apply perm_swap.
Qed.

Lemma insertDescending_sorted (x : A) (l : list A) :
  StronglySorted (Ranked.descending key) l ->
  StronglySorted (Ranked.descending key) (FinderContext.insertDescending key x l).
Proof.
  induction 1 as [|y l Hsorted IH Hall]; simpl.
  - by repeat constructor.
  - destruct (Nat.ltb_spec (key y) (key x)) as [Hlt|Hge].
    + constructor; [by constructor|]. constructor; [unfold Ranked.descending; lia|].
      eapply Forall_impl; [exact Hall|]. unfold Ranked.descending. intros z Hz. lia.
    + constructor; [done|]. rewrite insertDescending_perm. by constructor.
Qed.

(** an element is inserted behind the elements with the same key *)
Lemma insertDescending_stable (s : nat) (x : A) (l : list A) :
  StronglySorted (Ranked.descending key) l ->
  filter (fun a => key a = s) (FinderContext.insertDescending key x l)
  = filter (fun a => key a = s) l ++ (if decide (key x = s) then [x] else []).
Proof.
  induction 1 as [|y l Hsorted IH Hall]; simpl.
  - rewrite filter_cons, filter_nil. by case_decide.
  - destruct (Nat.ltb_spec (key y) (key x)) as [Hlt|Hge].
    + rewrite (filter_cons _ x). case_decide as Hx; [|by rewrite app_nil_r].
      assert (filter (fun a => key a = s) (y :: l) = []) as ->; [|done].
      rewrite filter_cons. rewrite decide_False by lia.
      clear IH Hsorted. induction Hall as [|z l Hz Hl IHl]; [done|].
      rewrite filter_cons, IHl. unfold Ranked.descending in Hz. by rewrite decide_False by lia.
    + rewrite !(filter_cons _ y), IH. by destruct (decide (key y = s)).
Qed.

Lemma sort_fold (l acc : list A) :
  StronglySorted (Ranked.descending key) acc ->
  let sorted := fold_left (fun sorted x => FinderContext.insertDescending key x sorted) l acc in
  StronglySorted (Ranked.descending key) sorted
  /\ sorted ≡ₚ acc ++ l
  /\ forall s, filter (fun a => key a = s) sorted
               = filter (fun a => key a = s) acc ++ filter (fun a => key a = s) l.
Proof.
  revert acc. induction l as [|x l IH]; intros acc Hacc; simpl.
  - split; [done|]. rewrite app_nil_r. split; [done|]. intros s. by rewrite app_nil_r.
  - destruct (IH (FinderContext.insertDescending key x acc)) as (Hsorted & Hperm & Hstable);
      [by apply insertDescending_sorted|].
    split; [done|]. split.
    + rewrite Hperm, insertDescending_perm. simpl. apply Permutation_middle.
    + intros s. rewrite Hstable, insertDescending_stable by done.
      rewrite (filter_cons _ x), <- (assoc_L (++)). by case_decide.
Qed.

Lemma sortDescending_spec (l : list A) :
  StronglySorted (Ranked.descending key) (FinderContext.sortDescending key l)
  /\ FinderContext.sortDescending key l ≡ₚ l
  /\ forall s, filter (fun a => key a = s) (FinderContext.sortDescending key l)
               = filter (fun a => key a = s) l.
Proof. apply (sort_fold l []). constructor. Qed.

End SortFacts.

Section RankingFacts.
Context `{NodePath}.

Lemma matchFile_fold (finder : FinderContext.ContextFinder) (keywords : list string)
    (files : list FinderContext.ProjectFile) (acc : list FinderContext.ContextMatch) :
  fold_left (FinderContext.matchFile finder keywords) files acc
  = acc ++ map (Ranked.matchOf finder keywords)
               (filter (fun f => 0 < Ranked.scoreOf keywords f) files).
Proof.
  revert acc. induction files as [|f files IH]; intros acc; simpl.
  - by rewrite app_nil_r.
  - rewrite IH, filter_cons. unfold FinderContext.matchFile, Ranked.scoreOf.
    destruct (Nat.ltb_spec 0 (fst (Finder.calculateMatchScore (FinderContext.analysis f) keywords))).
    + rewrite decide_True by done. by rewrite <- (assoc_L (++)).
    + by rewrite decide_False by lia.
Qed.

Lemma findMatchingFiles_Ok (finder : FinderContext.ContextFinder) (keywords : list string)
    (matches : list FinderContext.ContextMatch) :
  FinderContext.findMatchingFiles finder keywords = Ok matches ->
  exists files,
    FinderContext.projectMap finder = Some files
    /\ matches
       = FinderContext.sortDescending FinderContext.matchScore
           (map (Ranked.matchOf finder keywords)
                (filter (fun f => 0 < Ranked.scoreOf keywords f) files)).
Proof.
  unfold FinderContext.findMatchingFiles. destruct (FinderContext.projectMap finder) as [files|]; [|done].
  intros [= <-]. exists files. split; [done|]. by rewrite matchFile_fold.
Qed.

Lemma relate_keeps (finder : FinderContext.ContextFinder) (relation : FinderContext.RelationType)
    (st : gset string * list FinderContext.RelatedFileInfo) (p q : string) :
  q ∈ fst st -> q ∈ fst (FinderContext.relate finder relation st p).
Proof.
  intros Hq. unfold FinderContext.relate. case_decide; [done|]. simpl.
  apply elem_of_union. by right.
Qed.

End RankingFacts.

Section RelatedFacts.
Context `{NodePath}.

Lemma relate_origin (finder : FinderContext.ContextFinder) (own : string)
    (allowed : FinderContext.RelationType -> string -> Prop)
    (relation : FinderContext.RelationType) (st : gset string * list FinderContext.RelatedFileInfo)
    (p : string) :
  (p ∉ fst st -> allowed relation p) ->
  Related.tracing finder own allowed st ->
  Related.tracing finder own allowed (FinderContext.relate finder relation st p)
  /\ p ∈ fst (FinderContext.relate finder relation st p).
Proof.
  intros Hrel Htracing. pose proof Htracing as (Hnd & Hvis & Hown & Hall).
  unfold FinderContext.relate.
  case_decide as Hseen; [by split|]. cbn [fst snd].
  split; [|apply elem_of_union; left; by apply elem_of_singleton].
  assert (p <> own /\ p ∉ map FinderContext.relatedPath (snd st)) as [Hp Hnew].
  { split; intros Hp; apply Hseen, Hvis; [by left | by right]. }
  unfold Related.tracing. cbn [fst snd]. split; [|split; [|split]].
  - rewrite map_app. apply NoDup_app. split; [done|]. split; [|apply NoDup_singleton].
    by intros q Hq ->%list_elem_of_singleton.
  - intros q. rewrite elem_of_union, elem_of_singleton, Hvis, map_app, elem_of_app. simpl.
    rewrite list_elem_of_singleton. split.
    + intros [->|[?|?]]; [right; by right | by left | right; by left].
    + intros [?|[?|?]]; [right; by left | right; by right | by left].
  - rewrite map_app. intros [?| ->%list_elem_of_singleton]%elem_of_app; done.
  - apply Forall_app. split; [done|]. apply Forall_singleton. split; [done|]. by apply Hrel.
Qed.

Lemma imports_origin (finder : FinderContext.ContextFinder) (own : string)
    (allowed : FinderContext.RelationType -> string -> Prop)
    (imports : list FinderContext.ImportInfo) (st : gset string * list FinderContext.RelatedFileInfo) :
  let resolved :=
    omap (fun imp => if FinderContext.isLocal imp
                     then FinderContext.truthy (FinderContext.resolvedPath imp) else None)
         imports in
  (forall p, p ∈ resolved -> allowed FinderContext.import_ p) ->
  Related.tracing finder own allowed st ->
  let st' :=
    fold_left (fun st imp =>
                 if FinderContext.isLocal imp
                 then match FinderContext.truthy (FinderContext.resolvedPath imp) with
                      | Some p => FinderContext.relate finder FinderContext.import_ st p
                      | None => st
                      end
                 else st) imports st in
  Related.tracing finder own allowed st'
  /\ (forall q, q ∈ fst st -> q ∈ fst st')
  /\ forall p, p ∈ resolved -> p ∈ fst st'.
Proof.
  revert st. induction imports as [|imp imports IH]; intros st resolved Hallowed Hst; simpl.
  - split; [done|]. split; [done|]. by intros p ?%elem_of_nil.
  - unfold resolved in *. cbn [omap list_omap] in Hallowed |- *.
    destruct (FinderContext.isLocal imp); [|by apply IH].
    destruct (FinderContext.truthy (FinderContext.resolvedPath imp)) as [p|]; [|by apply IH].
    destruct (relate_origin finder own allowed FinderContext.import_ st p) as [Hst1 Hp];
      [intros _; apply Hallowed; left | done |].
    destruct (IH (FinderContext.relate finder FinderContext.import_ st p)) as (Hst' & Hmono & Hall);
      [intros q Hq; apply Hallowed; by right | done |].
    split; [done|]. split.
    + intros q Hq. apply Hmono. by apply relate_keeps.
    + intros q [->|Hq]%elem_of_cons; [by apply Hmono | by apply Hall].
Qed.

Lemma references_origin (finder : FinderContext.ContextFinder) (own : string)
    (allowed : FinderContext.RelationType -> string -> Prop)
    (known paths : list string) (st : gset string * list FinderContext.RelatedFileInfo) :
  (forall p, p ∈ paths -> p ∉ known -> allowed FinderContext.typeRelation p) ->
  (forall q, q ∈ known -> q ∈ fst st) ->
  Related.tracing finder own allowed st ->
  let st' := fold_left (FinderContext.relate finder FinderContext.typeRelation) paths st in
  Related.tracing finder own allowed st'
  /\ (forall q, q ∈ fst st -> q ∈ fst st')
  /\ forall p, p ∈ paths -> p ∈ fst st'.
Proof.
  revert st. induction paths as [|p paths IH]; intros st Hallowed Hknown Hst; simpl.
  - split; [done|]. split; [done|]. by intros p ?%elem_of_nil.
  - destruct (relate_origin finder own allowed FinderContext.typeRelation st p) as [Hst1 Hp];
      [|done|].
    { intros Hnew. apply Hallowed; [left|]. intros Hk. by apply Hnew, Hknown. }
    destruct (IH (FinderContext.relate finder FinderContext.typeRelation st p))
      as (Hst' & Hmono & Hall); [| |done|].
    { intros q Hq. apply Hallowed. by right. }
    { intros q Hq. by apply relate_keeps, Hknown. }
    split; [done|]. split.
    + intros q Hq. apply Hmono. by apply relate_keeps.
    + intros q [->|Hq]%elem_of_cons; [by apply Hmono | by apply Hall].
Qed.

Lemma properties_origin (finder : FinderContext.ContextFinder) (own : string)
    (allowed : FinderContext.RelationType -> string -> Prop) (known : list string)
    (props : list FinderContext.PropertySignature)
    (st : gset string * list FinderContext.RelatedFileInfo) :
  let paths :=
    flat_map (fun prop =>
                match FinderContext.getTypeNode prop with
                | Some declarationFiles =>
                    FinderContext.findTypeReferences finder declarationFiles
                | None => []
                end) props in
  (forall p, p ∈ paths -> p ∉ known -> allowed FinderContext.typeRelation p) ->
  (forall q, q ∈ known -> q ∈ fst st) ->
  Related.tracing finder own allowed st ->
  let st' :=
    fold_left (fun st prop =>
                 match FinderContext.getTypeNode prop with
                 | Some declarationFiles =>
                     fold_left (FinderContext.relate finder FinderContext.typeRelation)
                               (FinderContext.findTypeReferences finder declarationFiles) st
                 | None => st
                 end) props st in
  Related.tracing finder own allowed st'
  /\ (forall q, q ∈ fst st -> q ∈ fst st')
  /\ forall p, p ∈ paths -> p ∈ fst st'.
Proof.
  revert st. induction props as [|prop props IH]; intros st paths Hallowed Hknown Hst.
  - split; [done|]. split; [done|]. by intros p ?%elem_of_nil.
  - unfold paths in *. cbn [flat_map fold_left] in Hallowed |- *.
    set (here := match FinderContext.getTypeNode prop with
                 | Some declarationFiles =>
                     FinderContext.findTypeReferences finder declarationFiles
                 | None => []
                 end) in *.
    assert (exists st1,
               st1 = match FinderContext.getTypeNode prop with
                     | Some declarationFiles =>
                         fold_left (FinderContext.relate finder FinderContext.typeRelation)
                           (FinderContext.findTypeReferences finder declarationFiles) st
                     | None => st
                     end
               /\ Related.tracing finder own allowed st1
               /\ (forall q, q ∈ fst st -> q ∈ fst st1)
               /\ forall p, p ∈ here -> p ∈ fst st1) as (st1 & <- & Hst1 & Hmono1 & Hall1).
    { unfold here. destruct (FinderContext.getTypeNode prop) as [declarationFiles|].
      - eexists. split; [done|].
        apply (references_origin finder own allowed known); [|done..].
        intros p Hp. apply Hallowed, elem_of_app. by left.
      - exists st. split; [done|]. split; [done|]. split; [done|]. by intros p ?%elem_of_nil. }
    destruct (IH st1) as (Hst' & Hmono & Hall); [| |done|].
    { intros p Hp. apply Hallowed, elem_of_app. by right. }
    { intros q Hq. by apply Hmono1, Hknown. }
    split; [done|]. split; [intros q Hq; by apply Hmono, Hmono1|].
    intros p [Hp|Hp]%elem_of_app; [by apply Hmono, Hall1 | by apply Hall].
Qed.

Lemma interfaces_origin (finder : FinderContext.ContextFinder) (own : string)
    (allowed : FinderContext.RelationType -> string -> Prop) (known : list string)
    (ifaces : list FinderContext.InterfaceDeclaration)
    (st : gset string * list FinderContext.RelatedFileInfo) :
  let paths :=
    flat_map (fun iface =>
                flat_map (fun prop =>
                            match FinderContext.getTypeNode prop with
                            | Some declarationFiles =>
                                FinderContext.findTypeReferences finder declarationFiles
                            | None => []
                            end)
                         (FinderContext.getProperties iface)) ifaces in
  (forall p, p ∈ paths -> p ∉ known -> allowed FinderContext.typeRelation p) ->
  (forall q, q ∈ known -> q ∈ fst st) ->
  Related.tracing finder own allowed st ->
  let st' :=
    fold_left (fun st iface =>
                 fold_left (fun st prop =>
                              match FinderContext.getTypeNode prop with
                              | Some declarationFiles =>
                                  fold_left (FinderContext.relate finder FinderContext.typeRelation)
                                    (FinderContext.findTypeReferences finder declarationFiles) st
                              | None => st
                              end)
                           (FinderContext.getProperties iface) st) ifaces st in
  Related.tracing finder own allowed st'
  /\ (forall q, q ∈ fst st -> q ∈ fst st')
  /\ forall p, p ∈ paths -> p ∈ fst st'.
Proof.
  revert st. induction ifaces as [|iface ifaces IH]; intros st paths Hallowed Hknown Hst.
  - split; [done|]. split; [done|]. by intros p ?%elem_of_nil.
  - unfold paths in *. cbn [flat_map fold_left] in Hallowed |- *.
    destruct (properties_origin finder own allowed known (FinderContext.getProperties iface) st)
      as (Hst1 & Hmono1 & Hall1); [|done..|].
    { intros p Hp. apply Hallowed, elem_of_app. by left. }
    match goal with
    | |- context [fold_left _ ifaces ?s] => destruct (IH s) as (Hst' & Hmono & Hall)
    end; [| |done|].
    { intros p Hp. apply Hallowed, elem_of_app. by right. }
    { intros q Hq. by apply Hmono1, Hknown. }
    split; [done|]. split; [intros q Hq; by apply Hmono, Hmono1|].
    intros p [Hp|Hp]%elem_of_app; [by apply Hmono, Hall1 | by apply Hall].
Qed.

Lemma typeReferences_root (finder : FinderContext.ContextFinder)
    (file : FinderContext.ProjectFile) (p : string) :
  p ∈ Related.typeReferences finder file ->
  JS.includes p (FinderContext.root finder) = true.
Proof.
  unfold Related.typeReferences.
  destruct (FinderContext.project finder !! _) as [sourceFile|]; [|by intros ?%elem_of_nil].
  rewrite list_elem_of_In, in_flat_map. intros (iface & _ & Hp).
  apply in_flat_map in Hp as (prop & _ & Hp).
  destruct (FinderContext.getTypeNode prop) as [declarationFiles|]; [|done].
  rewrite <- list_elem_of_In in Hp. unfold FinderContext.findTypeReferences in Hp.
  by apply list_elem_of_filter in Hp as [? _].
Qed.

End RelatedFacts.

(** X22. The matches are ranked. For a project map [files], the result of
    [findMatchingFiles] is in descending order of score; it holds a match for
    every file of the map whose score is positive and for no other, once per
    occurrence in the map; and files with equal scores stay in the order of
    the project map. Each match carries the score and the matched keywords the
    scorer gives its file. *)
Theorem matches_are_ranked_by_score `{NodePath} (finder : FinderContext.ContextFinder)
    (keywords : list string) (files : list FinderContext.ProjectFile)
    (matches : list FinderContext.ContextMatch) :
  FinderContext.projectMap finder = Some files ->
  FinderContext.findMatchingFiles finder keywords = Ok matches ->
  StronglySorted (fun a b => FinderContext.matchScore b <= FinderContext.matchScore a) matches
  /\ (forall score, 0 < score ->
        map FinderContext.file (filter (fun m => FinderContext.matchScore m = score) matches)
        = filter (fun f => Ranked.scoreOf keywords f = score) files)
  /\ Forall (fun m =>
               0 < FinderContext.matchScore m
               /\ (FinderContext.matchScore m, FinderContext.matchedKeywords m)
                  = Finder.calculateMatchScore (FinderContext.analysis (FinderContext.file m)) keywords)
            matches.
Proof.
  intros Hmap Hrun.
  destruct (findMatchingFiles_Ok finder keywords matches Hrun) as (files' & Hmap' & ->).
  rewrite Hmap in Hmap'. injection Hmap' as <-.
  set (found := map (Ranked.matchOf finder keywords)
                    (filter (fun f => 0 < Ranked.scoreOf keywords f) files)).
  destruct (sortDescending_spec FinderContext.matchScore found) as (Hsorted & Hperm & Hstable).
  split; [exact Hsorted|]. split.
  - intros score Hscore. rewrite Hstable. unfold found. clear -Hscore.
    induction files as [|f files IH]; [done|].
    rewrite !filter_cons. destruct (decide (0 < Ranked.scoreOf keywords f)) as [Hpos|Hzero].
    + simpl map. rewrite filter_cons. simpl FinderContext.matchScore.
      fold (Ranked.scoreOf keywords f).
      destruct (decide (Ranked.scoreOf keywords f = score)); simpl; by rewrite IH.
    + rewrite IH. destruct (decide (Ranked.scoreOf keywords f = score)); [lia | done].
  - rewrite Hperm. unfold found. apply Forall_forall.
    intros m (f & -> & [Hpos _]%list_elem_of_filter)%list_elem_of_fmap. simpl.
    split; [exact Hpos|]. by destruct (Finder.calculateMatchScore _ _).
Qed.

Lemma matches_are_ranked_by_score_witness :
  exists matches,
    FinderContext.projectMap FinderCases.finder
    = Some [FinderCases.cardFile; FinderCases.mathFile; FinderCases.profileFile]
    /\ @FinderContext.findMatchingFiles Posix.ops FinderCases.finder ["user"] = Ok matches
    /\ map (fun m => (Finder.relativePath (FinderContext.analysis (FinderContext.file m)),
                      FinderContext.matchScore m)) matches
       = [("src/userProfile.ts", 10); ("src/user/Card.tsx", 5)]
    /\ StronglySorted (fun a b => FinderContext.matchScore b <= FinderContext.matchScore a) matches.
Proof.
  destruct (@FinderContext.findMatchingFiles Posix.ops FinderCases.finder ["user"]) as [matches|] eqn:Hrun;
    [|by vm_compute in Hrun].
  exists matches. split; [reflexivity|]. split; [reflexivity|].
  split; [by vm_compute in Hrun; injection Hrun as <-|].
  exact (proj1 (@matches_are_ranked_by_score Posix.ops FinderCases.finder ["user"] _ matches
                  eq_refl Hrun)).
Defined.

(** X23. What a match carries besides its score. Its summary is that of its
    file, and the full source text is part of the summary exactly when the
    score is 10 or more and the file is in the finder's project; the text is
    then that of the file. Its related files are those traced for its file. *)
Theorem source_is_included_from_ten_points `{NodePath} (finder : FinderContext.ContextFinder)
    (keywords : list string) (matches : list FinderContext.ContextMatch) (m : FinderContext.ContextMatch) :
  FinderContext.findMatchingFiles finder keywords = Ok matches ->
  m ∈ matches ->
  let filePath := Finder.filePath (FinderContext.analysis (FinderContext.file m)) in
  FinderContext.codeSummary m
  = FinderContext.extractCodeSummary finder filePath (10 <=? FinderContext.matchScore m)
  /\ FinderContext.relatedFiles m = FinderContext.traceRelatedFiles finder (FinderContext.file m)
  /\ FinderContext.sourceCode (FinderContext.codeSummary m)
     = (if 10 <=? FinderContext.matchScore m
        then FinderContext.getFullText <$> FinderContext.project finder !! filePath
        else None).
Proof.
  intros Hrun Hin filePath.
  destruct (findMatchingFiles_Ok finder keywords matches Hrun) as (files & _ & ->).
  destruct (sortDescending_spec FinderContext.matchScore
              (map (Ranked.matchOf finder keywords)
                   (filter (fun f => 0 < Ranked.scoreOf keywords f) files)))
    as (_ & Hperm & _).
  rewrite Hperm in Hin. apply list_elem_of_fmap in Hin as (f & -> & _).
  unfold filePath, Ranked.matchOf.
  cbn [FinderContext.file FinderContext.matchScore FinderContext.codeSummary FinderContext.relatedFiles].
  split; [done|]. split; [done|].
  generalize (10 <=? fst (Finder.calculateMatchScore (FinderContext.analysis f) keywords)).
  intros includeSource. unfold FinderContext.extractCodeSummary.
  destruct (FinderContext.project finder !! _); simpl; by destruct includeSource.
Qed.

Lemma source_is_included_from_ten_points_witness :
  exists matches best second,
    @FinderContext.findMatchingFiles Posix.ops FinderCases.finder ["user"] = Ok matches
    /\ matches = [best; second]
    /\ best ∈ matches
    /\ FinderContext.matchScore best = 10
    /\ FinderContext.sourceCode (FinderContext.codeSummary best)
       = Some "export interface User { id: number }"
    /\ FinderContext.matchScore second = 5
    /\ FinderContext.sourceCode (FinderContext.codeSummary second) = None
    /\ FinderContext.codeSummary best
       = FinderContext.extractCodeSummary FinderCases.finder
           (Finder.filePath (FinderContext.analysis (FinderContext.file best)))
           (10 <=? FinderContext.matchScore best).
Proof.
  destruct (@FinderContext.findMatchingFiles Posix.ops FinderCases.finder ["user"]) as [matches|] eqn:Hrun;
    [|by vm_compute in Hrun].
  destruct matches as [|best [|second [|third rest]]];
    try (by vm_compute in Hrun).
  assert (best ∈ [best; second]) as Hin by left.
  exists [best; second], best, second. split; [done|]. split; [done|]. split; [exact Hin|].
  split; [by vm_compute in Hrun; injection Hrun as <- <-|].
  split; [by vm_compute in Hrun; injection Hrun as <- <-|].
  split; [by vm_compute in Hrun; injection Hrun as <- <-|].
  split; [by vm_compute in Hrun; injection Hrun as <- <-|].
  exact (proj1 (@source_is_included_from_ten_points Posix.ops FinderCases.finder ["user"]
                  [best; second] best Hrun Hin)).
Defined.

(** X24. The related files of a file. No path is named twice and never the
    file's own. An entry with relation [import] is for a resolved local
    import of the file; an entry with relation [type] is for a file that
    declares the type of a property of one of the file's interfaces, has the
    root in its path and is not imported by the file; no entry has another
    relation. Conversely every resolved local import and every such
    declaration file, the file itself apart, has an entry. Each entry carries
    the summary of its path, without source text. *)
Theorem related_files_are_distinct `{NodePath} (finder : FinderContext.ContextFinder)
    (file : FinderContext.ProjectFile) :
  let own := Finder.filePath (FinderContext.analysis file) in
  let related := FinderContext.traceRelatedFiles finder file in
  NoDup (map FinderContext.relatedPath related)
  /\ (forall p,
        p ∈ map FinderContext.relatedPath related
        <-> p <> own
            /\ (p ∈ Ranked.localImports file \/ p ∈ Related.typeReferences finder file))
  /\ Forall (fun r =>
               (FinderContext.relationType r = FinderContext.import_
                /\ FinderContext.relatedPath r ∈ Ranked.localImports file
                \/ FinderContext.relationType r = FinderContext.typeRelation
                   /\ FinderContext.relatedPath r ∈ Related.typeReferences finder file
                   /\ JS.includes (FinderContext.relatedPath r) (FinderContext.root finder) = true
                   /\ (FinderContext.relatedPath r ∉ Ranked.localImports file))
               /\ FinderContext.relatedSummary r
                  = FinderContext.extractCodeSummary finder (FinderContext.relatedPath r) false
               /\ FinderContext.sourceCode (FinderContext.relatedSummary r) = None)
            related.
Proof.
  intros own related.
  assert (Related.tracing finder own (Related.origin finder file) ({[own]}, [])) as Hstart.
  { unfold Related.tracing. cbn [fst snd map].
    split; [constructor|]. split; [|split; [|constructor]].
    - intros p. rewrite elem_of_singleton. split; [by left|]. by intros [?|?%elem_of_nil].
    - by intros ?%elem_of_nil. }
  destruct (imports_origin finder own (Related.origin finder file)
              (FinderContext.imports file) _ (fun p Hp => Hp) Hstart) as (Himp & _ & Hall).
  assert (exists st, related = snd st
                     /\ Related.tracing finder own (Related.origin finder file) st
                     /\ (forall p, p ∈ Ranked.localImports file -> p ∈ fst st)
                     /\ (forall p, p ∈ Related.typeReferences finder file -> p ∈ fst st))
    as (st & -> & (Hnd & Hvis & Hown & Hrel) & Hlocal & Htypes).
  { unfold related, FinderContext.traceRelatedFiles, Related.typeReferences. fold own.
    destruct (FinderContext.project finder !! own) as [sourceFile|] eqn:Hsource.
    - match type of Himp with
      | Related.tracing _ _ _ ?s =>
          destruct (interfaces_origin finder own (Related.origin finder file)
                      (Ranked.localImports file) (FinderContext.getInterfaces sourceFile) s)
            as (Hst' & Hmono & Hrefs); [|exact Hall|exact Himp|]
      end.
      { intros p Hp Hnew. cbn [Related.origin].
        assert (p ∈ Related.typeReferences finder file) as Href.
        { unfold Related.typeReferences. fold own. by rewrite Hsource. }
        split; [done|]. split; [by eapply typeReferences_root | done]. }
      eexists. split; [done|]. split; [exact Hst'|]. split; [|exact Hrefs].
      intros p Hp. by apply Hmono, Hall.
    - eexists. split; [done|]. split; [exact Himp|]. split; [exact Hall|].
      by intros p ?%elem_of_nil. }
  rewrite Forall_forall in Hrel.
  split; [done|]. split.
  - intros p. split.
    + intros Hp. split; [by intros ->|].
      change map with (@fmap list _) in Hp. apply list_elem_of_fmap in Hp as (r & -> & Hr).
      destruct (Hrel r Hr) as [_ Horigin]. unfold Related.origin in Horigin.
      destruct (FinderContext.relationType r); [by left | right; by destruct Horigin | done].
    + intros [Hne [Hp|Hp]].
      * apply Hlocal, Hvis in Hp as [?|?]; done.
      * apply Htypes, Hvis in Hp as [?|?]; done.
  - apply Forall_forall. intros r Hr. destruct (Hrel r Hr) as [Hsum Horigin].
    split; [|split; [done|]].
    + unfold Related.origin in Horigin.
      destruct (FinderContext.relationType r); [by left | by right | done].
    + rewrite Hsum. unfold FinderContext.extractCodeSummary.
      by destruct (FinderContext.project finder !! _).
Qed.

(** The imported file is entered as an import and not again for the type it
    declares; the file itself and the library of the compiler are not
    entered. *)
Lemma related_files_of_a_typed_file :
  map (fun r => (FinderContext.relatedPath r, FinderContext.relationType r))
      (FinderContext.traceRelatedFiles RelatedCases.finder RelatedCases.listFile)
  = [("/p/src/item.ts", FinderContext.import_); ("/p/src/user.ts", FinderContext.typeRelation)]
  /\ Ranked.localImports RelatedCases.listFile = ["/p/src/item.ts"]
  /\ Related.typeReferences RelatedCases.finder RelatedCases.listFile
     = ["/p/src/item.ts"; "/p/src/user.ts"; "/p/src/list.ts"].
Proof. split; [|split]; vm_compute; reflexivity. Qed.

(** * The commands *)

Section CommandFacts.
Context `{NodePath}.

Lemma push_groups (kinds : list DependencyInfo.FileType) (seen : list DependencyInfo.t)
    (dep : DependencyInfo.t) :
  Command.push (map (fun kind => (kind, filter (fun d => DependencyInfo.type d = kind) seen))
                    kinds) dep
  = map (fun kind => (kind, filter (fun d => DependencyInfo.type d = kind) (seen ++ [dep])))
        kinds.
Proof.
  unfold Command.push. rewrite map_map. apply map_ext. intros kind. simpl.
  rewrite filter_app, filter_cons, filter_nil.
  destruct (decide (kind = DependencyInfo.type dep)) as [->|Hne].
  - by rewrite decide_True by done.
  - rewrite decide_False by done. by rewrite app_nil_r.
Qed.

Lemma groupByType_fold (kinds : list DependencyInfo.FileType)
    (dependencies seen : list DependencyInfo.t) :
  fold_left Command.push dependencies
    (map (fun kind => (kind, filter (fun d => DependencyInfo.type d = kind) seen)) kinds)
  = map (fun kind => (kind, filter (fun d => DependencyInfo.type d = kind)
                                   (seen ++ dependencies))) kinds.
Proof.
  revert seen. induction dependencies as [|dep dependencies IH]; intros seen; simpl.
  - by rewrite app_nil_r.
  - rewrite push_groups, IH. by rewrite <- (assoc_L (++)).
Qed.

Lemma analyzeImpact_returns (extra : nat) (w : World) (filePath : string) :
  is_Some (Tracer.analyzeImpact (4 + extra) w filePath).
Proof.
  unfold Tracer.analyzeImpact.
  destruct (negb _); [by eexists|].
  destruct (addSourceFileAtPath w _) as [sf|e]; [|by eexists].
  destruct (analyzeDependencies_terminates (4 + extra) w
              (if path_isAbsolute filePath then filePath else path_join (rootPath w) filePath)
              sf 0 3 (Nat.lt_0_succ _) (le_n_S _ _ (Nat.le_add_r 3 extra)) Tracer.cleared)
    as [[st [deps|e]] Hrun];
    unfold Tracer.forwardTraversal; rewrite Hrun; [|by eexists].
  destruct (Tracer.analyzeDependents w _); by eexists.
Qed.

Lemma traceChanges_spec (extra : nat) (w : World) (fileChanges : list Diff.FileChange)
    (impactMap : gmap string ImpactAnalysis.t) :
  exists traced,
    Command.traceChanges (4 + extra) w fileChanges impactMap = Some traced
    /\ forall relativePath impact,
         traced !! relativePath = Some impact ->
         impactMap !! relativePath = Some impact
         \/ exists fileChange,
              fileChange ∈ fileChanges
              /\ Diff.relativePath fileChange = relativePath
              /\ Diff.fileStatus fileChange <> Diff.Deleted
              /\ Tracer.analyzeImpact (4 + extra) w (Diff.filePath fileChange)
                 = Some (Ok impact).
Proof.
  revert impactMap. induction fileChanges as [|fc rest IH]; intros impactMap.
  - exists impactMap. split; [done|]. by left.
  - cbn [Command.traceChanges]. unfold Command.traceChange.
    assert (forall m, (forall relativePath impact,
                m !! relativePath = Some impact ->
                impactMap !! relativePath = Some impact
                \/ exists fileChange,
                     fileChange ∈ fc :: rest
                     /\ Diff.relativePath fileChange = relativePath
                     /\ Diff.fileStatus fileChange <> Diff.Deleted
                     /\ Tracer.analyzeImpact (4 + extra) w (Diff.filePath fileChange)
                        = Some (Ok impact)) ->
              exists traced,
                Command.traceChanges (4 + extra) w rest m = Some traced
                /\ forall relativePath impact,
                     traced !! relativePath = Some impact ->
                     impactMap !! relativePath = Some impact
                     \/ exists fileChange,
                          fileChange ∈ fc :: rest
                          /\ Diff.relativePath fileChange = relativePath
                          /\ Diff.fileStatus fileChange <> Diff.Deleted
                          /\ Tracer.analyzeImpact (4 + extra) w (Diff.filePath fileChange)
                             = Some (Ok impact)) as Hnext.
    { intros m Hm. destruct (IH m) as (traced & Hrun & Hall). exists traced.
      split; [done|]. intros relativePath impact Hlook.
      destruct (Hall relativePath impact Hlook) as [Hold|(fc' & Hin & Hrest)]; [by apply Hm|].
      right. exists fc'. split; [by right | done]. }
    case_decide as Hstatus; [apply Hnext; by left|].
    destruct (analyzeImpact_returns extra w (Diff.filePath fc)) as [[impact|e] Himpact];
      rewrite Himpact; [|apply Hnext; by left].
    apply Hnext. intros relativePath impact' Hlook.
    destruct (decide (relativePath = Diff.relativePath fc)) as [->|Hne].
    + rewrite lookup_insert_eq in Hlook. injection Hlook as <-.
      right. exists fc. split; [left | done].
    + rewrite lookup_insert_ne in Hlook by done. by left.
Qed.

End CommandFacts.

(** X25. The impact report lists every dependency once, under the heading
    of its type: the group of a type holds the dependencies of that type, in
    the order of the dependency list, so the six groups together hold as many
    entries as the list has. *)
Theorem report_groups_partition_dependencies (dependencies : list DependencyInfo.t) :
  Command.groupByType dependencies
  = map (fun kind => (kind, filter (fun d => DependencyInfo.type d = kind) dependencies))
        [DependencyInfo.component; DependencyInfo.hook; DependencyInfo.util;
         DependencyInfo.service; DependencyInfo.type_; DependencyInfo.other]
  /\ sum_list (map (fun group => length (snd group)) (Command.groupByType dependencies))
     = length dependencies.
Proof.
  assert (Command.groupByType dependencies
          = map (fun kind => (kind, filter (fun d => DependencyInfo.type d = kind)
                                           dependencies))
                [DependencyInfo.component; DependencyInfo.hook; DependencyInfo.util;
                 DependencyInfo.service; DependencyInfo.type_; DependencyInfo.other]) as Heq.
  { exact (groupByType_fold
             [DependencyInfo.component; DependencyInfo.hook; DependencyInfo.util;
              DependencyInfo.service; DependencyInfo.type_; DependencyInfo.other]
             dependencies []). }
  split; [exact Heq|]. rewrite Heq. clear Heq. cbn [map snd sum_list sum_list_with].
  unfold id.
  induction dependencies as [|d dependencies IH]; [done|].
  rewrite !filter_cons. cbn [length].
  destruct (DependencyInfo.type d); repeat case_decide; try done; cbn [length]; lia.
Qed.

(** X26. The diff command traces the changes it reports and survives the
    failures. Its loop always completes; the impact map it builds has an entry
    only under the relative path of a reported change that is not a deletion
    and whose impact analysis succeeded, and the entry is that analysis. A
    change whose analysis throws is left out without an error. *)
Theorem diff_command_traces_reported_changes `{NodePath} (extra : nat) (w : World)
    (fileChanges : list Diff.FileChange) :
  exists impactMap,
    Command.traceChanges (4 + extra) w fileChanges ∅ = Some impactMap
    /\ forall relativePath impact,
         impactMap !! relativePath = Some impact ->
         exists fileChange,
           fileChange ∈ fileChanges
           /\ Diff.relativePath fileChange = relativePath
           /\ Diff.fileStatus fileChange <> Diff.Deleted
           /\ Tracer.analyzeImpact (4 + extra) w (Diff.filePath fileChange) = Some (Ok impact).
Proof.
  destruct (traceChanges_spec extra w fileChanges ∅) as (traced & Hrun & Hall).
  exists traced. split; [done|]. intros relativePath impact Hlook.
  destruct (Hall relativePath impact Hlook) as [Hold|?]; [|done].
  by rewrite lookup_empty in Hold.
Qed.

(** * The keywords of a request *)

Section KeywordFacts.

Lemma add_spec (keywords : list string) (k : string) :
  NoDup keywords ->
  NoDup (Keywords.add keywords k)
  /\ forall x, x ∈ Keywords.add keywords k <-> x ∈ keywords \/ x = k.
Proof.
  intros Hnd. unfold Keywords.add. case_decide as Hin.
  - split; [done|]. intros x. split; [by left|]. by intros [?| ->].
  - split.
    + apply NoDup_app. split; [done|]. split; [|apply NoDup_singleton].
      by intros x Hx ->%list_elem_of_singleton.
    + intros x. by rewrite elem_of_app, list_elem_of_singleton.
Qed.

(** a loop that adds the image of some of the items *)
Lemma add_fold {X} (pick : X -> option string) (items : list X) (keywords : list string) :
  NoDup keywords ->
  let keywords' :=
    fold_left (fun keywords item =>
                 match pick item with
                 | Some k => Keywords.add keywords k
                 | None => keywords
                 end) items keywords in
  NoDup keywords'
  /\ forall x, x ∈ keywords' <-> x ∈ keywords \/ exists item, item ∈ items /\ pick item = Some x.
Proof.
  revert keywords. induction items as [|item items IH]; intros keywords Hnd; simpl.
  - split; [done|]. intros x. split; [by left|]. by intros [?|(? & ?%elem_of_nil & _)].
  - assert (NoDup (match pick item with
                   | Some k => Keywords.add keywords k
                   | None => keywords
                   end)
            /\ forall x, x ∈ match pick item with
                             | Some k => Keywords.add keywords k
                             | None => keywords
                             end
                         <-> x ∈ keywords \/ pick item = Some x) as [Hnd1 Hin1].
    { destruct (pick item) as [k|].
      - destruct (add_spec keywords k Hnd) as [? Hin]. split; [done|]. intros x.
        rewrite Hin. split; [intros [?| ->]; by auto | intros [?|[= ->]]; by auto].
      - split; [done|]. intros x. split; [by left | by intros [?|?]]. }
    destruct (IH _ Hnd1) as [Hnd' Hin']. split; [done|]. intros x.
    rewrite Hin', Hin1. split.
    + intros [[?|?]|(i & ? & ?)]; [by left | right | right].
      * exists item. split; [left | done].
      * exists i. split; [by right | done].
    + intros [?|(i & [->|?]%elem_of_cons & ?)]; [left; by left | left; by right | right].
      by exists i.
Qed.

Lemma addEnglish_spec (keywords : list string) (word : string) :
  NoDup keywords ->
  NoDup (Keywords.addEnglish keywords word)
  /\ forall x, x ∈ Keywords.addEnglish keywords word
               <-> x ∈ keywords
                   \/ (2 <= String.length word
                       /\ (x = JS.toLowerCase word
                           \/ exists part, part ∈ Keywords.camelSplit word
                                           /\ 1 < String.length part
                                           /\ x = JS.toLowerCase part)).
Proof.
  intros Hnd. unfold Keywords.addEnglish.
  destruct (Nat.leb_spec 2 (String.length word)) as [Hlen|Hlen].
  2:{ split; [done|]. intros x. split; [by left|]. intros [?|[? _]]; [done | lia]. }
  destruct (add_spec keywords (JS.toLowerCase word) Hnd) as [Hnd1 Hin1].
  destruct (add_fold (fun part => Some (JS.toLowerCase part))
              (filter (fun p => 1 < String.length p) (Keywords.camelSplit word))
              _ Hnd1) as [Hnd2 Hin2].
  split; [exact Hnd2|]. intros x. rewrite Hin2, Hin1. split.
  - intros [[?|?]|(part & [? ?]%list_elem_of_filter & [= <-])]; [by left | right | right].
    + split; [done | by left].
    + split; [done|]. right. by exists part.
  - intros [?|[_ [?|(part & ? & ? & ->)]]]; [left; by left | left; by right | right].
    exists part. split; [by apply list_elem_of_filter | done].
Qed.

Lemma addEnglish_fold (words : list string) (keywords : list string) :
  NoDup keywords ->
  NoDup (fold_left Keywords.addEnglish words keywords)
  /\ forall x, x ∈ fold_left Keywords.addEnglish words keywords
               <-> x ∈ keywords
                   \/ exists word, word ∈ words /\ 2 <= String.length word
                        /\ (x = JS.toLowerCase word
                            \/ exists part, part ∈ Keywords.camelSplit word
                                            /\ 1 < String.length part
                                            /\ x = JS.toLowerCase part).
Proof.
  revert keywords. induction words as [|word words IH]; intros keywords Hnd; simpl.
  - split; [done|]. intros x. split; [by left|]. by intros [?|(? & ?%elem_of_nil & _)].
  - destruct (addEnglish_spec keywords word Hnd) as [Hnd1 Hin1].
    destruct (IH _ Hnd1) as [Hnd' Hin']. split; [done|]. intros x.
    rewrite Hin', Hin1. split.
    + intros [[?|[? ?]]|(w & ? & ?)]; [by left | right | right].
      * exists word. split; [left | done].
      * exists w. split; [by right | done].
    + intros [?|(w & [->|?]%elem_of_cons & ?)]; [left; by left | left; by right | right].
      by exists w.
Qed.

Lemma addToken_spec (keywords : list string) (token : string) :
  NoDup keywords ->
  NoDup (Keywords.addToken keywords token)
  /\ forall x, x ∈ Keywords.addToken keywords token
               <-> x ∈ keywords \/ (token <> EmptyString /\ Extracted.fromToken token x).
Proof.
  intros Hnd. unfold Keywords.addToken.
  destruct token as [|a token'] eqn:Htoken.
  { split; [done|]. intros x. split; [by left|]. by intros [?|[? _]]. }
  rewrite <- Htoken. assert (token <> EmptyString) as Hne by (by rewrite Htoken).
  replace (String.length token =? 0) with false by (by rewrite Htoken).
  clear Htoken a token'.
  destruct (add_fold (fun word => if decide (word ∈ Keywords.stopWords) then None
                                  else Some (JS.toLowerCase word))
              (Keywords.chineseWords token) keywords Hnd) as [Hnd1 Hin1].
  assert (fold_left (fun keywords word =>
                       if decide (word ∈ Keywords.stopWords) then keywords
                       else Keywords.add keywords (JS.toLowerCase word))
                    (Keywords.chineseWords token) keywords
          = fold_left (fun keywords word =>
                         match (if decide (word ∈ Keywords.stopWords) then None
                                else Some (JS.toLowerCase word)) with
                         | Some k => Keywords.add keywords k
                         | None => keywords
                         end)
                      (Keywords.chineseWords token) keywords) as ->.
  { clear. revert keywords.
    induction (Keywords.chineseWords token) as [|word words IH]; intros keywords; [done|].
    simpl. rewrite IH. by case_decide. }
  cbv zeta in Hnd1, Hin1.
  destruct (addEnglish_fold (Keywords.englishWords token) _ Hnd1) as [Hnd2 Hin2].
  assert (forall x,
            x ∈ fold_left Keywords.addEnglish (Keywords.englishWords token)
                  (fold_left (fun keywords word =>
                                match (if decide (word ∈ Keywords.stopWords) then None
                                       else Some (JS.toLowerCase word)) with
                                | Some k => Keywords.add keywords k
                                | None => keywords
                                end)
                             (Keywords.chineseWords token) keywords)
            <-> x ∈ keywords
                \/ (exists word, word ∈ Keywords.chineseWords token
                                 /\ (word ∉ Keywords.stopWords) /\ x = JS.toLowerCase word)
                \/ (exists word, word ∈ Keywords.englishWords token
                                 /\ 2 <= String.length word
                                 /\ (x = JS.toLowerCase word
                                     \/ exists part, part ∈ Keywords.camelSplit word
                                                     /\ 1 < String.length part
                                                     /\ x = JS.toLowerCase part))) as Hin3.
  { intros x. rewrite Hin2, Hin1. split.
    - intros [[?|(word & ? & Hpick)]|?]; [by left | right; left | right; by right].
      exists word. case_decide; [done|]. by injection Hpick as <-.
    - intros [?|[(word & ? & ? & ->)|?]]; [left; by left | left; right | by right].
      exists word. split; [done|]. by rewrite decide_False. }
  destruct (Keywords.isFileToken token) eqn:Hfile.
  - destruct (add_spec _ token Hnd2) as [Hnd4 Hin4]. split; [exact Hnd4|].
    intros x. rewrite Hin4, Hin3. unfold Extracted.fromToken. split.
    + intros [[?|[?|?]]| ->]; [by left | right | right | right]; (split; [done|]);
        [by left | right; by left | right; by right].
    + intros [?|[_ [?|[?|[_ ->]]]]];
        [left; by left | left; right; by left | left; right; by right | by right].
  - split; [exact Hnd2|]. intros x. rewrite Hin3. unfold Extracted.fromToken. split.
    + intros [?|[?|?]]; [by left | right | right]; (split; [done|]);
        [by left | right; by left].
    + intros [?|[_ [?|[?|[? _]]]]]; [by left | right; by left | right; by right | congruence].
Qed.

Lemma addToken_fold (tokens : list string) (keywords : list string) :
  NoDup keywords ->
  NoDup (fold_left Keywords.addToken tokens keywords)
  /\ forall x, x ∈ fold_left Keywords.addToken tokens keywords
               <-> x ∈ keywords
                   \/ exists token, token ∈ tokens /\ token <> EmptyString
                                    /\ Extracted.fromToken token x.
Proof.
  revert keywords. induction tokens as [|token tokens IH]; intros keywords Hnd; simpl.
  - split; [done|]. intros x. split; [by left|]. by intros [?|(? & ?%elem_of_nil & _)].
  - destruct (addToken_spec keywords token Hnd) as [Hnd1 Hin1].
    destruct (IH _ Hnd1) as [Hnd' Hin']. split; [done|]. intros x.
    rewrite Hin', Hin1. split.
    + intros [[?|[? ?]]|(t & ? & ?)]; [by left | right | right].
      * exists token. split; [left | done].
      * exists t. split; [by right | done].
    + intros [?|(t & [->|?]%elem_of_cons & ?)]; [left; by left | left; by right | right].
      by exists t.
Qed.

(** the keywords are the keywords of the tokens, each once *)
Lemma extractKeywords_spec (userInput : string) :
  NoDup (Keywords.extractKeywords userInput)
  /\ forall k, k ∈ Keywords.extractKeywords userInput
               <-> exists token, token ∈ Keywords.tokens userInput
                                 /\ token <> EmptyString /\ Extracted.fromToken token k.
Proof.
  destruct (addToken_fold (Keywords.tokens userInput) [] (NoDup_nil_2)) as [Hnd Hin].
  split; [done|]. intros k. unfold Keywords.extractKeywords. rewrite Hin.
  split; [by intros [?%elem_of_nil|?] | by right].
Qed.

Lemma lowerChar_idemp (a : ascii) : JS.lowerChar (JS.lowerChar a) = JS.lowerChar a.
Proof. by destruct a as [[] [] [] [] [] [] [] []]. Qed.

Lemma toLowerCase_idemp (s : string) : JS.toLowerCase (JS.toLowerCase s) = JS.toLowerCase s.
Proof. induction s as [|a s IH]; [done|]. simpl. by rewrite lowerChar_idemp, IH. Qed.

Lemma toLowerCase_length (s : string) : String.length (JS.toLowerCase s) = String.length s.
Proof. induction s as [|a s IH]; [done|]. simpl. by rewrite IH. Qed.

Lemma isFileToken_length (token : string) :
  Keywords.isFileToken token = true -> 4 <= String.length token.
Proof.
  induction token as [|a rest IH]; [done|]. simpl.
  intros [[_ Hext]%andb_true_iff|Hrest]%orb_true_iff; [|apply IH in Hrest; lia].
  destruct rest as [|b [|c [|d rest]]]; simpl in *;
    try (by rewrite ?andb_false_r, ?orb_false_r in Hext;
         repeat match type of Hext with context [if ?c then _ else _] => destruct c end).
  lia.
Qed.

Lemma length_app_str (s t : string) :
  String.length (s +:+ t) = String.length s + String.length t.
Proof. induction s as [|a s IH]; [done|]. rewrite app_cons. simpl. by rewrite IH. Qed.

Lemma unchars_length (cs : list string) :
  Forall (fun c => 1 <= String.length c) cs ->
  length cs <= String.length (Utf8.unchars cs).
Proof.
  induction 1 as [|c cs Hc _ IH]; [done|]. simpl. rewrite length_app_str. lia.
Qed.

Lemma chars_nonempty (s : string) : Forall (fun c => 1 <= String.length c) (Utf8.chars s).
Proof.
  assert (forall n s, String.length s <= n ->
                      Forall (fun c => 1 <= String.length c) (Utf8.chars s)) as Hall.
  { clear s. induction n as [|n IH]; intros s Hlen.
    - destruct s; [constructor | simpl in Hlen; lia].
    - destruct s as [|a s1]; [constructor|]. cbn [Utf8.chars].
      destruct (_ || _).
      { constructor; [simpl; lia | apply IH; simpl in Hlen; lia]. }
      destruct s1 as [|b s2]; [repeat constructor|].
      destruct (_ <? 224).
      { constructor; [simpl; lia | apply IH; simpl in Hlen; lia]. }
      destruct s2 as [|c s3]; [repeat constructor; simpl; lia|].
      destruct (_ <? 240).
      { constructor; [simpl; lia | apply IH; simpl in Hlen; lia]. }
      destruct s3 as [|d s4]; [repeat constructor; simpl; lia|].
      constructor; [simpl; lia | apply IH; simpl in Hlen; lia]. }
  by apply (Hall (String.length s)).
Qed.

Lemma elem_of_rev {X} (x : X) (l : list X) : x ∈ rev l -> x ∈ l.
Proof. rewrite !list_elem_of_In. apply in_rev. Qed.

Lemma runs_elements (keep : string -> bool) (cs run r : list string) :
  r ∈ Keywords.runs keep run cs -> forall c, c ∈ r -> c ∈ run \/ c ∈ cs.
Proof.
  revert run. induction cs as [|c0 cs IH]; intros run; cbn [Keywords.runs].
  - destruct run as [|c1 run]; [by intros ?%elem_of_nil|].
    intros ->%list_elem_of_singleton c Hc. left. by apply elem_of_rev.
  - destruct (keep c0).
    + intros Hr c Hc. destruct (IH _ Hr c Hc) as [[->|?]%elem_of_cons|?];
        [right; left | by left | right; by right].
    + intros [Hr|Hr]%elem_of_app c Hc.
      * destruct run as [|c1 run]; [by apply elem_of_nil in Hr|].
        apply list_elem_of_singleton in Hr. subst r. left. by apply elem_of_rev.
      * destruct (IH _ Hr c Hc) as [?%elem_of_nil|?]; [done | right; by right].
Qed.

Lemma chineseWords_length (token word : string) :
  word ∈ Keywords.chineseWords token -> 2 <= String.length word.
Proof.
  unfold Keywords.chineseWords.
  intros (run & -> & [Hlen Hrun]%list_elem_of_filter)%list_elem_of_fmap.
  etransitivity; [exact Hlen|]. apply unchars_length. apply Forall_forall. intros c Hc.
  destruct (runs_elements _ _ _ _ Hrun c Hc) as [?%elem_of_nil|Hin]; [done|].
  pose proof (chars_nonempty token) as Hall. rewrite Forall_forall in Hall. by apply Hall.
Qed.

End KeywordFacts.

(** X27. The keywords of a request. No keyword occurs twice. Every keyword
    is at least two 8-bit characters long, so none is empty (an empty keyword
    would be found in every name). Every keyword is in lower case, with one
    exception: a token of the request that names a file ([name.ts],
    [name.js], ...) is also kept whole as it was written. *)
Theorem keywords_are_lower_case_or_file_names (userInput : string) :
  let keywords := Keywords.extractKeywords userInput in
  NoDup keywords
  /\ Forall (fun k => 2 <= String.length k) keywords
  /\ Forall (fun k => JS.toLowerCase k = k
                      \/ (k ∈ Keywords.tokens userInput /\ Keywords.isFileToken k = true))
            keywords.
Proof.
  intros keywords. destruct (extractKeywords_spec userInput) as [Hnd Hin].
  split; [exact Hnd|]. split.
  - apply Forall_forall. intros k (token & Htoken & Hne & Hfrom)%Hin.
    destruct Hfrom as [(word & Hword & _ & ->)|[(word & _ & Hlen & Hk)|[Hfile ->]]].
    + rewrite toLowerCase_length. by eapply chineseWords_length.
    + destruct Hk as [->|(part & _ & Hpart & ->)]; rewrite toLowerCase_length; lia.
    + apply isFileToken_length in Hfile. lia.
  - apply Forall_forall. intros k (token & Htoken & Hne & Hfrom)%Hin.
    destruct Hfrom as [(word & _ & _ & ->)|[(word & _ & _ & Hk)|[Hfile ->]]].
    + left. apply toLowerCase_idemp.
    + left. destruct Hk as [->|(part & _ & _ & ->)]; apply toLowerCase_idemp.
    + by right.
Qed.

(** X28. What becomes a keyword. Every word of letters and digits of the
    request that has at least two characters is a keyword in lower case, and
    so is each of its camel-case parts of at least two characters (a part
    begins at a capital letter); every token that names a file is a keyword as
    written; and a run of two or more Chinese characters is a keyword unless
    it is, as a whole, one of the stop words. Nothing else is a keyword. *)
Theorem keywords_come_from_words (userInput : string) (k : string) :
  k ∈ Keywords.extractKeywords userInput
  <-> exists token,
        token ∈ Keywords.tokens userInput /\ token <> EmptyString
        /\ ((exists word, word ∈ Keywords.chineseWords token /\ (word ∉ Keywords.stopWords)
                          /\ k = JS.toLowerCase word)
            \/ (exists word, word ∈ Keywords.englishWords token /\ 2 <= String.length word
                             /\ (k = JS.toLowerCase word
                                 \/ exists part, part ∈ Keywords.camelSplit word
                                                 /\ 1 < String.length part
                                                 /\ k = JS.toLowerCase part))
            \/ (Keywords.isFileToken token = true /\ k = token)).
Proof. apply extractKeywords_spec. Qed.

(** The example of the specification: the words, and the parts of the
    camel-case word. *)
Lemma keywords_of_the_example :
  Keywords.extractKeywords "optimize getUserProfile performance"
  = ["optimize"; "getuserprofile"; "get"; "user"; "profile"; "performance"].
Proof. vm_compute. reflexivity. Qed.
